(** * UVCCapture: the capture tool of [jni/uvccap.c], embedded and verified

    The program drives a V4L2 capture device through [open], [ioctl],
    [mmap], [select] and [write].  Everything the program learns from the
    outside arrives as the result of such a call, so the embedding runs
    each function against a _script_: the list of replies the kernel gives,
    in the order the calls are made.  Every call is appended to a _trace_
    together with the reply it got, and properties about "what the program
    did to the device" are properties of that trace.

    Integers are [Z]; the places where the C code converts between [int]
    and [uint32_t] are written out with [s32] and [u32]. *)

From Stdlib Require Import ZArith List String Ascii Bool Lia.
From stdpp Require Import base list pretty.
Import ListNotations.
Local Open Scope Z_scope.

(** ** Machine integers *)

Definition u32 (x : Z) : Z := x mod 2 ^ 32.

Definition s32 (x : Z) : Z :=
  let y := x mod 2 ^ 32 in if y <? 2 ^ 31 then y else y - 2 ^ 32.

(** ** Constants of the C library and of the kernel headers

    These come from [<errno.h>], [<fcntl.h>], [<sys/mman.h>] and
    [<linux/videodev2.h>]; the values are the ones of Linux. *)

Definition EPERM : Z := 1.
Definition EIO : Z := 5.
Definition EAGAIN : Z := 11.
Definition ENOMEM : Z := 12.
Definition EBUSY : Z := 16.
Definition EINVAL : Z := 22.
Definition ETIMEDOUT : Z := 110.

Definition O_RDONLY : Z := 0.
Definition O_WRONLY : Z := 1.
Definition O_CREAT : Z := 64.

Definition NULL : Z := 0.
Definition MAP_FAILED : Z := -1.

Definition V4L2_BUF_TYPE_VIDEO_CAPTURE : Z := 1.
Definition V4L2_MEMORY_MMAP : Z := 1.
Definition V4L2_FIELD_INTERLACED : Z := 4.
Definition V4L2_CAP_VIDEO_CAPTURE : Z := 1.

Definition v4l2_fourcc (a b c d : ascii) : Z :=
  Z.lor (Z.of_N (N_of_ascii a))
    (Z.lor (Z.shiftl (Z.of_N (N_of_ascii b)) 8)
       (Z.lor (Z.shiftl (Z.of_N (N_of_ascii c)) 16)
          (Z.shiftl (Z.of_N (N_of_ascii d)) 24))).

Definition V4L2_PIX_FMT_RGB565 : Z := v4l2_fourcc "R" "G" "B" "P".
Definition V4L2_PIX_FMT_RGB32 : Z := v4l2_fourcc "R" "G" "B" "4".
Definition V4L2_PIX_FMT_BGR32 : Z := v4l2_fourcc "B" "G" "R" "4".
Definition V4L2_PIX_FMT_YUYV : Z := v4l2_fourcc "Y" "U" "Y" "V".
Definition V4L2_PIX_FMT_UYVY : Z := v4l2_fourcc "U" "Y" "V" "Y".
Definition V4L2_PIX_FMT_YUV420 : Z := v4l2_fourcc "Y" "U" "1" "2".
Definition V4L2_PIX_FMT_YUV410 : Z := v4l2_fourcc "Y" "U" "V" "9".
Definition V4L2_PIX_FMT_YUV422P : Z := v4l2_fourcc "4" "2" "2" "P".

(** ** Constants of [uvccap.c] *)

Definition DEF_VIDEO_DEVICE : string := "/dev/video0".
Definition DEF_CAPTURE_WIDTH : Z := 640.
Definition DEF_CAPTURE_HEIGHT : Z := 480.
Definition DEF_PIXEL_FORMAT : Z := 3.
Definition DEF_CAPTURE_PREFIX : string := "video.cap".
Definition DEF_CAPTURE_COUNT : Z := 1.

Definition NUMBER_OF_SUPPORTED_PIXEL_FORMATS : Z := 8.

(** The table has [NUMBER_OF_SUPPORTED_PIXEL_FORMATS + 1] entries: the
    eight formats and the sentinel. *)
Definition PIXEL_FORMATS : list Z :=
  [ V4L2_PIX_FMT_RGB565;
    V4L2_PIX_FMT_RGB32;
    V4L2_PIX_FMT_BGR32;
    V4L2_PIX_FMT_YUYV;
    V4L2_PIX_FMT_UYVY;
    V4L2_PIX_FMT_YUV420;
    V4L2_PIX_FMT_YUV410;
    V4L2_PIX_FMT_YUV422P;
    0 ].

(** [enum ERRORS] *)
Definition NOERROR : Z := 0.
Definition INVALID_ARGUMENTS : Z := 100.
Definition INVALID_FORMAT_ARGUMENTS : Z := 101.
Definition VIDEO_DEVICE_BUSY : Z := 102.
Definition VIDEO_DEVICE_OPEN_FAILED : Z := 103.
Definition VIDEO_DEVICE_NOCAPS : Z := 104.
Definition VIDEO_DEVICE_NOCROPCAPS : Z := 105.
Definition VIDEO_DEVICE_CAPTURE_NOT_SUPPORTED : Z := 106.
Definition VIDEO_DEVICE_CROPPING_FAILED : Z := 107.
Definition VIDEO_DEVICE_ENUM_FORMAT_FAILED : Z := 108.
Definition VIDEO_DEVICE_QUERY_BUFFER_FAILED : Z := 109.
Definition VIDEO_DEVICE_STREAMING_FAILED : Z := 110.
Definition IO_METHOD_NOT_SUPPORTED : Z := 111.
Definition IO_ERROR : Z := 112.
Definition IO_FILE_NOT_CREATED : Z := 113.
Definition MEMORY_MAPPING_FAILED : Z := 114.
Definition MEMORY_QUEUEING_FAILED : Z := 115.
Definition MEMORY_DEQUEUEING_FAILED : Z := 116.
Definition INSUFFICIENT_MEMORY : Z := 117.
Definition NOT_PERMITTED : Z := 118.

(** ** The structures exchanged with the kernel

    Only the fields the program reads or writes are kept; the identity
    strings of [v4l2_capability] and the description of [v4l2_fmtdesc] are
    only printed. *)

Record v4l2_rect := mk_rect
  { rect_left : Z; rect_top : Z; rect_width : Z; rect_height : Z }.

Record v4l2_capability := mk_capability
  { cap_version : Z; capabilities : Z }.

Record v4l2_cropcap := mk_cropcap
  { cropcap_type : Z; cropcap_bounds : v4l2_rect; cropcap_defrect : v4l2_rect }.

Record v4l2_crop := mk_crop
  { crop_type : Z; crop_c : v4l2_rect }.

Record v4l2_pix_format := mk_pix
  { pix_width : Z; pix_height : Z; pix_pixelformat : Z; pix_field : Z;
    pix_bytesperline : Z; pix_sizeimage : Z; pix_colorspace : Z; pix_priv : Z }.

Record v4l2_format := mk_format
  { format_type : Z; format_pix : v4l2_pix_format }.

Record v4l2_fmtdesc := mk_fmtdesc
  { desc_index : Z; desc_type : Z; desc_flags : Z; desc_pixelformat : Z }.

Record v4l2_requestbuffers := mk_req
  { req_count : Z; req_type : Z; req_memory : Z }.

Record v4l2_buffer := mk_buffer
  { buf_index : Z; buf_type : Z; buf_memory : Z; buf_length : Z; buf_offset : Z }.

(** What [memset (&x, 0, sizeof x)] leaves. *)
Definition zero_rect : v4l2_rect := mk_rect 0 0 0 0.
Definition zero_capability : v4l2_capability := mk_capability 0 0.
Definition zero_cropcap : v4l2_cropcap := mk_cropcap 0 zero_rect zero_rect.
Definition zero_crop : v4l2_crop := mk_crop 0 zero_rect.
Definition zero_pix : v4l2_pix_format := mk_pix 0 0 0 0 0 0 0 0.
Definition zero_format : v4l2_format := mk_format 0 zero_pix.

(** ** Program data *)

Record app_args_t := mk_args
  { device : string;
    cap_width : Z;
    cap_height : Z;
    pixel_format : Z;
    cap_prefix : string;
    cap_count : Z }.

Record video_buf_t := mk_video_buf { addr : Z; size : Z }.

(** [buffers] is [None] for the NULL pointer.  The table itself is a
    list of cells; a cell that [malloc] handed out and nobody wrote yet is
    [None], so that reading it can be told apart from reading a value. *)
Record video_dev_t := mk_dev
  { fd : Z;
    caps : v4l2_capability;
    cropcaps : v4l2_cropcap;
    crop : v4l2_crop;
    format : v4l2_format;
    buffers : option (list (option video_buf_t));
    buffer_count : Z }.

Definition set_fd (d : video_dev_t) (x : Z) : video_dev_t :=
  mk_dev x (caps d) (cropcaps d) (crop d) (format d) (buffers d) (buffer_count d).
Definition set_caps (d : video_dev_t) (x : v4l2_capability) : video_dev_t :=
  mk_dev (fd d) x (cropcaps d) (crop d) (format d) (buffers d) (buffer_count d).
Definition set_cropcaps (d : video_dev_t) (x : v4l2_cropcap) : video_dev_t :=
  mk_dev (fd d) (caps d) x (crop d) (format d) (buffers d) (buffer_count d).
Definition set_crop (d : video_dev_t) (x : v4l2_crop) : video_dev_t :=
  mk_dev (fd d) (caps d) (cropcaps d) x (format d) (buffers d) (buffer_count d).
Definition set_format (d : video_dev_t) (x : v4l2_format) : video_dev_t :=
  mk_dev (fd d) (caps d) (cropcaps d) (crop d) x (buffers d) (buffer_count d).
Definition set_buffers (d : video_dev_t)
    (b : option (list (option video_buf_t))) (n : Z) : video_dev_t :=
  mk_dev (fd d) (caps d) (cropcaps d) (crop d) (format d) b n.

(** ** Calls, replies and the world *)

Inductive ioctl_req :=
| VIDIOC_QUERYCAP | VIDIOC_CROPCAP | VIDIOC_ENUM_FMT
| VIDIOC_S_CROP | VIDIOC_S_FMT | VIDIOC_G_FMT
| VIDIOC_REQBUFS | VIDIOC_QUERYBUF | VIDIOC_QBUF | VIDIOC_DQBUF
| VIDIOC_STREAMON | VIDIOC_STREAMOFF.

Inductive ioctl_arg :=
| ArgCapability (c : v4l2_capability)
| ArgCropcap (c : v4l2_cropcap)
| ArgFmtdesc (d : v4l2_fmtdesc)
| ArgCrop (c : v4l2_crop)
| ArgFormat (f : v4l2_format)
| ArgReq (r : v4l2_requestbuffers)
| ArgBuffer (b : v4l2_buffer)
| ArgType (t : Z).

Inductive syscall :=
| SysOpen (path : string) (flags : Z)
| SysClose (fd : Z)
| SysIoctl (fd : Z) (req : ioctl_req) (arg : ioctl_arg)
| SysMmap (len : Z) (fd : Z) (off : Z)
| SysMunmap (addr : Z) (len : Z)
| SysSelect (nfds : Z) (usec : Z)
| SysWrite (fd : Z) (ptr : Z) (len : Z)
| SysUsleep (usec : Z)
| LibMalloc (cells : Z)
| LibFree.

(** A reply: the value the call returns, the [errno] it stores when that
    value is negative, what an [ioctl] left in the structure it was given
    ([None]: untouched), and for [select] whether the descriptor is still in
    the read set. *)
Record reply := mk_reply
  { rv : Z; re : Z; ra : option ioctl_arg; rready : bool }.

Definition event : Type := syscall * reply.

Record world := mk_world
  { script : list reply; trace : list event; errno : Z }.

(** A run ends with a value, or stops because the script has no reply
    left for the call being made ([Starved]), or is killed by a failed
    [assert] or by an access outside an object ([Crashed]). *)
Inductive result (A : Type) :=
| Done (a : A) (w : world)
| Starved (w : world)
| Crashed (w : world).
Arguments Done {A} a w.
Arguments Starved {A} w.
Arguments Crashed {A} w.

Definition M (A : Type) : Type := world -> result A.

Definition pure {A} (a : A) : M A := fun w => Done a w.

Definition bind {A B} (m : M A) (k : A -> M B) : M B :=
  fun w =>
    match m w with
    | Done a w' => k a w'
    | Starved w' => Starved w'
    | Crashed w' => Crashed w'
    end.

Notation "'let*' x ':=' m 'in' k" := (bind m (fun x => k))
  (at level 10, x pattern, m at level 100, k at level 200).

Definition crash {A} : M A := fun w => Crashed w.

Definition starve {A} : M A := fun w => Starved w.

(** The loops of the program that have no bound of their own make at
    least one call per turn, so a run on a script of [n] replies never takes
    more than [n] turns of any of them ([exhausts_main] below). *)
Definition with_fuel {A} (f : nat -> M A) : M A :=
  fun w => f (S (length (script w))) w.

Definition get_errno : M Z := fun w => Done (errno w) w.

(** A system call takes the next reply of the script. *)
Definition call (c : syscall) : M reply :=
  fun w =>
    match script w with
    | [] => Starved w
    | r :: s =>
        Done r (mk_world s (trace w ++ [(c, r)])
                  (if rv r <? 0 then re r else errno w))
    end.

(** [free] returns nothing: it is only recorded. *)
Definition void_reply : reply := mk_reply 0 0 None false.

Definition emit (c : syscall) : M unit :=
  fun w => Done tt (mk_world (script w) (trace w ++ [(c, void_reply)]) (errno w)).

Definition world_of {A} (r : result A) : world :=
  match r with Done _ w | Starved w | Crashed w => w end.

Definition value_of {A} (r : result A) : option A :=
  match r with Done a _ => Some a | _ => None end.

(** What the kernel left in the structure passed to an [ioctl]. *)
Definition out_capability (r : reply) (dflt : v4l2_capability) :=
  match ra r with Some (ArgCapability c) => c | _ => dflt end.
Definition out_cropcap (r : reply) (dflt : v4l2_cropcap) :=
  match ra r with Some (ArgCropcap c) => c | _ => dflt end.
Definition out_crop (r : reply) (dflt : v4l2_crop) :=
  match ra r with Some (ArgCrop c) => c | _ => dflt end.
Definition out_format (r : reply) (dflt : v4l2_format) :=
  match ra r with Some (ArgFormat c) => c | _ => dflt end.
Definition out_req (r : reply) (dflt : v4l2_requestbuffers) :=
  match ra r with Some (ArgReq c) => c | _ => dflt end.
Definition out_buffer (r : reply) (dflt : v4l2_buffer) :=
  match ra r with Some (ArgBuffer c) => c | _ => dflt end.

(** Reading [a[i]] from a C array: [None] when [i] is outside of it. *)
Definition array_get {A} (a : list A) (i : Z) : option A :=
  if i <? 0 then None else a !! Z.to_nat i.

(** ** [parse_args]

    [getopt] is taken as done: the options arrive as the pairs of option
    letter and argument it yields, in order.  The [--help] shortcut, which
    leaves the process, is not part of the embedding. *)

Definition is_digit (c : ascii) : bool :=
  let n := N_of_ascii c in ((48 <=? n) && (n <=? 57))%N.

Definition is_space (c : ascii) : bool :=
  let n := N_of_ascii c in ((n =? 32) || ((9 <=? n) && (n <=? 13)))%N.

Fixpoint atoi_digits (s : string) (acc : Z) : Z :=
  match s with
  | String c s' =>
      if is_digit c then atoi_digits s' (acc * 10 + (Z.of_N (N_of_ascii c) - 48))
      else acc
  | EmptyString => acc
  end.

Fixpoint atoi_skip (s : string) : string :=
  match s with
  | String c s' => if is_space c then atoi_skip s' else s
  | EmptyString => s
  end.

(** Modelled from the C library: [atoi] skips white space, reads an
    optional sign and the decimal digits that follow, and converts to
    [int]. *)
Definition atoi (s : string) : Z :=
  match atoi_skip s with
  | String "-" s' => s32 (- atoi_digits s' 0)
  | String "+" s' => s32 (atoi_digits s' 0)
  | s' => s32 (atoi_digits s' 0)
  end.

Definition set_pixel_format (a : app_args_t) (x : Z) : app_args_t :=
  mk_args (device a) (cap_width a) (cap_height a) x (cap_prefix a) (cap_count a).

Fixpoint parse_args (opts : list (ascii * string)) (args : app_args_t)
  : Z * app_args_t :=
  match opts with
  | [] => (0, args)
  | (opt, optarg) :: rest =>
      if Ascii.eqb opt "d" then
        if String.eqb optarg "" then (-1, args)
        else parse_args rest
               (mk_args optarg (cap_width args) (cap_height args)
                  (pixel_format args) (cap_prefix args) (cap_count args))
      else if Ascii.eqb opt "w" then
        parse_args rest
          (mk_args (device args) (atoi optarg) (cap_height args)
             (pixel_format args) (cap_prefix args) (cap_count args))
      else if Ascii.eqb opt "h" then
        parse_args rest
          (mk_args (device args) (cap_width args) (atoi optarg)
             (pixel_format args) (cap_prefix args) (cap_count args))
      else if Ascii.eqb opt "f" then
        let args := set_pixel_format args (atoi optarg) in
        if pixel_format args >=? NUMBER_OF_SUPPORTED_PIXEL_FORMATS
        then (-1, args)
        else parse_args rest args
      else if Ascii.eqb opt "p" then
        parse_args rest
          (mk_args (device args) (cap_width args) (cap_height args)
             (pixel_format args) optarg (cap_count args))
      else if Ascii.eqb opt "n" then
        parse_args rest
          (mk_args (device args) (cap_width args) (cap_height args)
             (pixel_format args) (cap_prefix args) (atoi optarg))
      else parse_args rest args
  end.

(** ** [to_v4l2_pixel_format] *)

Definition to_v4l2_pixel_format (format : Z) : option Z :=
  if format >=? NUMBER_OF_SUPPORTED_PIXEL_FORMATS
  then array_get PIXEL_FORMATS DEF_PIXEL_FORMAT
  else array_get PIXEL_FORMATS format.

(** ** [open_video_device]

    What the program prints and logs is left out, here and below. *)

Definition ioctl (fd : Z) (req : ioctl_req) (arg : ioctl_arg) : M reply :=
  call (SysIoctl fd req arg).

Fixpoint enum_formats (fuel : nat) (dev : video_dev_t) (i : Z) : M Z :=
  match fuel with
  | O => starve
  | S fuel' =>
      let desc := mk_fmtdesc i V4L2_BUF_TYPE_VIDEO_CAPTURE 0 0 in
      let* r := ioctl (fd dev) VIDIOC_ENUM_FMT (ArgFmtdesc desc) in
      if rv r <? 0 then
        let* e := get_errno in
        if e =? EINVAL then pure NOERROR
        else pure VIDEO_DEVICE_ENUM_FORMAT_FAILED
      else enum_formats fuel' dev (u32 (i + 1))
  end.

Definition open_video_device (args : app_args_t) (dev : video_dev_t)
  : M (Z * video_dev_t) :=
  let* o := call (SysOpen (device args) O_RDONLY) in
  let dev := set_fd dev (rv o) in
  if fd dev <? 0 then
    let* e := get_errno in
    if e =? EBUSY then pure (VIDEO_DEVICE_BUSY, dev)
    else if e =? EPERM then pure (NOT_PERMITTED, dev)
    else pure (VIDEO_DEVICE_OPEN_FAILED, dev)
  else
    (* get device capabilities *)
    let* r := ioctl (fd dev) VIDIOC_QUERYCAP (ArgCapability (caps dev)) in
    let dev := set_caps dev (out_capability r (caps dev)) in
    if rv r <? 0 then
      let* _ := call (SysClose (fd dev)) in
      pure (VIDEO_DEVICE_NOCAPS, set_fd dev (-1))
    else if Z.land (capabilities (caps dev)) V4L2_CAP_VIDEO_CAPTURE =? 0 then
      let* _ := call (SysClose (fd dev)) in
      pure (VIDEO_DEVICE_CAPTURE_NOT_SUPPORTED, set_fd dev (-1))
    else
      (* get cropping capabilities *)
      let cc := mk_cropcap V4L2_BUF_TYPE_VIDEO_CAPTURE zero_rect zero_rect in
      let* r := ioctl (fd dev) VIDIOC_CROPCAP (ArgCropcap cc) in
      let dev := set_cropcaps dev (out_cropcap r cc) in
      if rv r <? 0 then pure (VIDEO_DEVICE_NOCROPCAPS, dev)
      else
        (* enumerate pixel formats *)
        let* code := with_fuel (fun fuel => enum_formats fuel dev 0) in
        pure (code, dev).

(** ** [close_video_device] *)

Definition cells : Type := list (option video_buf_t).

Fixpoint unmap_buffers (n : nat) (tbl : cells) (i : Z) : M unit :=
  match n with
  | O => pure tt
  | S n' =>
      match array_get tbl i with
      | Some (Some b) =>
          if addr b =? MAP_FAILED then pure tt
          else
            let* _ := call (SysMunmap (addr b) (size b)) in
            unmap_buffers n' tbl (i + 1)
      | _ => crash
      end
  end.

Fixpoint close_retry (fuel : nat) (fd : Z) : M unit :=
  match fuel with
  | O => starve
  | S fuel' =>
      let* r := call (SysClose fd) in
      if rv r <? 0 then close_retry fuel' fd else pure tt
  end.

(** The session is passed [const]: the function returns nothing and
    changes nothing in [dev]. *)
Definition close_video_device (dev : video_dev_t) : M unit :=
  if 0 >? fd dev then pure tt
  else
    let* _ :=
      match buffers dev with
      | Some tbl =>
          let* _ := unmap_buffers (Z.to_nat (u32 (buffer_count dev))) tbl 0 in
          emit LibFree
      | None => pure tt
      end in
    with_fuel (fun fuel => close_retry fuel (fd dev)).

(** ** [init_buffer] *)

(** [malloc] is answered from the script like a system call: the value of
    the reply is the address of the table, or [NULL].  The table has [count]
    cells, none of them written.

    The loop that queries and maps the granted buffers.  [n] is the number
    of turns left, [count - i].  It yields [result], the table and the [i]
    the loop was left with. *)
Fixpoint query_buffers (n : nat) (dev : video_dev_t) (buf_ptr : cells) (i : Z)
  : M (Z * cells * Z) :=
  match n with
  | O => pure (NOERROR, buf_ptr, i)
  | S n' =>
      (* [buf.type] is assigned twice and [buf.memory] stays cleared *)
      let buf := mk_buffer i V4L2_MEMORY_MMAP 0 0 0 in
      let buf_ptr := <[Z.to_nat i := Some (mk_video_buf MAP_FAILED 0)]> buf_ptr in
      let* r := ioctl (fd dev) VIDIOC_QUERYBUF (ArgBuffer buf) in
      if rv r <? 0 then
        let* e := get_errno in
        if e =? EINVAL then pure (NOERROR, buf_ptr, i)
        else pure (VIDEO_DEVICE_QUERY_BUFFER_FAILED, buf_ptr, i)
      else
        let buf := out_buffer r buf in
        let* m := call (SysMmap (buf_length buf) (fd dev) (buf_offset buf)) in
        let buf_ptr :=
          <[Z.to_nat i := Some (mk_video_buf (rv m) (buf_length buf))]> buf_ptr in
        if rv m =? MAP_FAILED then pure (MEMORY_MAPPING_FAILED, buf_ptr, i)
        else query_buffers n' dev buf_ptr (i + 1)
  end.

(** The loop that takes the mappings back when [result] is an error. *)
Fixpoint release_buffers (n : nat) (buf_ptr : cells) (i : Z) : M cells :=
  match n with
  | O => pure buf_ptr
  | S n' =>
      match array_get buf_ptr i with
      | Some (Some b) =>
          if addr b =? MAP_FAILED then pure buf_ptr
          else
            let* _ := call (SysMunmap (addr b) (size b)) in
            release_buffers n'
              (<[Z.to_nat i := Some (mk_video_buf NULL 0)]> buf_ptr) (i + 1)
      | _ => crash
      end
  end.

Definition init_buffer (dev : video_dev_t) : M (Z * video_dev_t) :=
  let dev := set_buffers dev None 0 in
  let req := mk_req 2 V4L2_BUF_TYPE_VIDEO_CAPTURE V4L2_MEMORY_MMAP in
  let* r := ioctl (fd dev) VIDIOC_REQBUFS (ArgReq req) in
  let req := out_req r req in
  let* refused :=
    if rv r <? 0 then
      let* e := get_errno in
      if e =? EBUSY then pure (Some VIDEO_DEVICE_BUSY)
      else if e =? EINVAL then pure (Some IO_METHOD_NOT_SUPPORTED)
      else pure None
    else pure None in
  match refused with
  | Some code => pure (code, dev)
  | None =>
      let count := u32 (req_count req) in
      if count <? 2 then pure (INSUFFICIENT_MEMORY, dev)
      else
        let* p := call (LibMalloc count) in
        if rv p =? NULL then pure (INSUFFICIENT_MEMORY, dev)
        else
          let buf_ptr := replicate (Z.to_nat count) None in
          let* (result, buf_ptr, i) :=
            query_buffers (Z.to_nat count) dev buf_ptr 0 in
          if negb (result =? NOERROR) then
            let* _ := release_buffers (Z.to_nat count) buf_ptr 0 in
            let* _ := emit LibFree in
            pure (result, dev)
          else pure (result, set_buffers dev (Some buf_ptr) (s32 i))
  end.

(** ** [init_video_device] *)

Definition init_video_device (args : app_args_t) (dev : video_dev_t)
  : M (Z * video_dev_t) :=
  (* set cropping area *)
  let c := mk_crop V4L2_BUF_TYPE_VIDEO_CAPTURE (cropcap_defrect (cropcaps dev)) in
  let* r := ioctl (fd dev) VIDIOC_S_CROP (ArgCrop c) in
  let dev := set_crop dev (out_crop r c) in
  let* failed :=
    if rv r <? 0 then
      let* e := get_errno in pure (negb (e =? EINVAL))
    else pure false in
  if (failed : bool) then pure (VIDEO_DEVICE_CROPPING_FAILED, dev)
  else
    (* set format *)
    match to_v4l2_pixel_format (pixel_format args) with
    | None => crash
    | Some code =>
        let f :=
          mk_format V4L2_BUF_TYPE_VIDEO_CAPTURE
            (mk_pix (u32 (cap_width args)) (u32 (cap_height args)) code
               V4L2_FIELD_INTERLACED 0 0 0 0) in
        let* r := ioctl (fd dev) VIDIOC_S_FMT (ArgFormat f) in
        let dev := set_format dev (out_format r f) in
        let* refused :=
          if rv r <? 0 then
            let* e := get_errno in
            if e =? EBUSY then pure (Some VIDEO_DEVICE_BUSY)
            else if e =? EINVAL then pure (Some INVALID_FORMAT_ARGUMENTS)
            else pure None
          else pure None in
        match refused with
        | Some code => pure (code, dev)
        | None =>
            (* the current format is read into a local and only printed *)
            let fmt := mk_format V4L2_BUF_TYPE_VIDEO_CAPTURE zero_pix in
            let* _ := ioctl (fd dev) VIDIOC_G_FMT (ArgFormat fmt) in
            init_buffer dev
        end
    end.

(** ** [start_capture] and [stop_capture] *)

(** The retry loop for one buffer; [n] is the number of turns left,
    [5 - retry].  It yields [result] and the [retry] it was left with. *)
Fixpoint queue_retry (n : nat) (dev : video_dev_t) (i retry : Z) : M (Z * Z) :=
  match n with
  | O => pure (NOERROR, retry)
  | S n' =>
      let buf := mk_buffer i V4L2_BUF_TYPE_VIDEO_CAPTURE V4L2_MEMORY_MMAP 0 0 in
      let* r := ioctl (fd dev) VIDIOC_QBUF (ArgBuffer buf) in
      if rv r =? 0 then pure (NOERROR, retry)
      else
        let* e := get_errno in
        let* result :=
          if e =? EINVAL then pure MEMORY_QUEUEING_FAILED
          else if e =? EIO then pure IO_ERROR
          else if (e =? ENOMEM) || (e =? EAGAIN) then
            let* _ := call (SysUsleep 10000) in pure NOERROR
          else pure MEMORY_QUEUEING_FAILED in
        if negb (result =? NOERROR) then pure (result, retry)
        else queue_retry n' dev i (retry + 1)
  end.

(** The loop over the buffers; [n] is [count - i]. *)
Fixpoint queue_buffers (n : nat) (dev : video_dev_t) (i : Z) : M Z :=
  match n with
  | O => pure NOERROR
  | S n' =>
      let* (result, retry) := queue_retry 5 dev i 0 in
      let result := if retry >=? 5 then MEMORY_QUEUEING_FAILED else result in
      if negb (result =? NOERROR) then pure result
      else queue_buffers n' dev (i + 1)
  end.

Definition start_capture (dev : video_dev_t) : M Z :=
  let count := u32 (buffer_count dev) in
  let* result := queue_buffers (Z.to_nat count) dev 0 in
  if negb (result =? NOERROR) then pure result
  else
    let* r := ioctl (fd dev) VIDIOC_STREAMON (ArgType V4L2_BUF_TYPE_VIDEO_CAPTURE) in
    if rv r <? 0 then pure VIDEO_DEVICE_STREAMING_FAILED else pure result.

Definition stop_capture (dev : video_dev_t) : M unit :=
  let* _ := ioctl (fd dev) VIDIOC_STREAMOFF (ArgType V4L2_BUF_TYPE_VIDEO_CAPTURE) in
  pure tt.

(** ** [read_frame] *)

(** [snprintf (path, sizeof (path), "%s.%d", prefix, index)] *)
Definition frame_path (prefix : string) (index : Z) : string :=
  String.substring 0 4095 (prefix ++ "." ++ pretty index)%string.

(** The loop that writes the frame out.  [wrote] and [n] are [int],
    [size] and [length] are [uint32_t]. *)
Fixpoint write_frame (fuel : nat) (fd ptr size length wrote : Z) : M unit :=
  match fuel with
  | O => starve
  | S fuel' =>
      if u32 wrote <? u32 length then
        let* r := call (SysWrite fd (ptr + wrote) (u32 (size - wrote))) in
        let n := s32 (rv r) in
        if n <? 0 then pure tt
        else write_frame fuel' fd ptr size length (s32 (wrote + n))
      else pure tt
  end.

Definition read_frame (args : app_args_t) (dev : video_dev_t) (index : Z) : M Z :=
  let buf := mk_buffer 0 V4L2_BUF_TYPE_VIDEO_CAPTURE V4L2_MEMORY_MMAP 0 0 in
  let* r := ioctl (fd dev) VIDIOC_DQBUF (ArgBuffer buf) in
  if rv r <? 0 then pure MEMORY_DEQUEUEING_FAILED
  else
    let buf := out_buffer r buf in
    (* assert (buf.index < dev->buffer_count) *)
    if negb (u32 (buf_index buf) <? u32 (buffer_count dev)) then crash
    else
      (* write captured data. *)
      let path := frame_path (cap_prefix args) index in
      let* o := call (SysOpen path (Z.lor O_WRONLY O_CREAT)) in
      let* result :=
        if rv o <? 0 then
          let* e := get_errno in
          if e =? EPERM then pure NOT_PERMITTED else pure IO_FILE_NOT_CREATED
        else
          match buffers dev with
          | Some tbl =>
              match array_get tbl (u32 (buf_index buf)) with
              | Some (Some b) =>
                  let* _ :=
                    with_fuel (fun fuel =>
                      write_frame fuel (rv o) (addr b) (size b) (buf_length buf) 0) in
                  let* _ := call (SysClose (rv o)) in
                  pure NOERROR
              | _ => crash
              end
          | None => crash
          end in
      let* q := ioctl (fd dev) VIDIOC_QBUF (ArgBuffer buf) in
      if rv q <? 0 then pure MEMORY_QUEUEING_FAILED else pure result.

(** ** [do_capture] *)

(** One turn of the capture loop, entered with [i < count]. *)
Inductive turn := Continue (i : Z) (result : Z) | Break (result : Z).

Definition capture_turn (args : app_args_t) (dev : video_dev_t) (i result : Z)
  : M turn :=
  let* s := call (SysSelect (fd dev + 1) 40000) in
  if rv s <? 0 then
    let* e := get_errno in
    if ETIMEDOUT =? e then pure (Continue i result)
    else pure (Break result)
  else if negb (rready s) then pure (Continue i result)
  else
    let* result := read_frame args dev i in
    if negb (NOERROR =? result) then pure (Break result)
    else pure (Continue (i + 1) result).

Fixpoint capture_loop (fuel : nat) (args : app_args_t) (dev : video_dev_t)
    (count i result : Z) : M Z :=
  match fuel with
  | O => starve
  | S fuel' =>
      if i <? count then
        let* t := capture_turn args dev i result in
        match t with
        | Continue i result => capture_loop fuel' args dev count i result
        | Break result => pure result
        end
      else pure result
  end.

Definition do_capture (args : app_args_t) (dev : video_dev_t) : M Z :=
  let* result := start_capture dev in
  if negb (NOERROR =? result) then pure result
  else
    (* capture! *)
    let count := cap_count args in
    let* result :=
      with_fuel (fun fuel => capture_loop fuel args dev count 0 result) in
    let* _ := stop_capture dev in
    pure result.

(** ** [main] *)

Definition default_args : app_args_t :=
  mk_args DEF_VIDEO_DEVICE DEF_CAPTURE_WIDTH DEF_CAPTURE_HEIGHT
    DEF_PIXEL_FORMAT DEF_CAPTURE_PREFIX DEF_CAPTURE_COUNT.

Definition initial_dev : video_dev_t :=
  mk_dev (-1) zero_capability zero_cropcap zero_crop zero_format None 0.

Definition main (opts : list (ascii * string)) : M Z :=
  let '(failed, args) := parse_args opts default_args in
  if negb (failed =? 0) then pure INVALID_ARGUMENTS
  else
    let* (code, dev) := open_video_device args initial_dev in
    if negb (NOERROR =? code) then pure code
    else
      let* (code, dev) := init_video_device args dev in
      let* code :=
        if NOERROR =? code then do_capture args dev else pure code in
      let* _ := close_video_device dev in
      pure code.

(** ** Vocabulary of the statements *)

(** Replies used to build concrete scripts. *)
Definition ok (v : Z) : reply := mk_reply v 0 None false.
Definition ok_arg (a : ioctl_arg) : reply := mk_reply 0 0 (Some a) false.
Definition fail (e : Z) : reply := mk_reply (-1) e None false.
Definition ready : reply := mk_reply 1 0 None true.
Definition timeout : reply := mk_reply 0 0 None false.

Definition boot (s : list reply) : world := mk_world s [] 0.

(** Kinds of events. *)
Definition is_ioctl (q : ioctl_req) (ev : event) : bool :=
  match fst ev with
  | SysIoctl _ q' _ =>
      match q, q' with
      | VIDIOC_QUERYCAP, VIDIOC_QUERYCAP | VIDIOC_CROPCAP, VIDIOC_CROPCAP
      | VIDIOC_ENUM_FMT, VIDIOC_ENUM_FMT | VIDIOC_S_CROP, VIDIOC_S_CROP
      | VIDIOC_S_FMT, VIDIOC_S_FMT | VIDIOC_G_FMT, VIDIOC_G_FMT
      | VIDIOC_REQBUFS, VIDIOC_REQBUFS | VIDIOC_QUERYBUF, VIDIOC_QUERYBUF
      | VIDIOC_QBUF, VIDIOC_QBUF | VIDIOC_DQBUF, VIDIOC_DQBUF
      | VIDIOC_STREAMON, VIDIOC_STREAMON
      | VIDIOC_STREAMOFF, VIDIOC_STREAMOFF => true
      | _, _ => false
      end
  | _ => false
  end.

Definition is_mmap (ev : event) : bool :=
  match fst ev with SysMmap _ _ _ => true | _ => false end.

Definition is_munmap (ev : event) : bool :=
  match fst ev with SysMunmap _ _ => true | _ => false end.

Definition is_close (ev : event) : bool :=
  match fst ev with SysClose _ => true | _ => false end.

(** The number of events of a kind in a trace. *)
Definition count_events (p : event -> bool) (tr : list event) : nat :=
  length (List.filter p tr).

(** The replies to [k] buffers queried and mapped in turn: for each one,
    the reply to the query followed by the reply to [mmap]. *)
Definition mapped_replies (pairs : list (reply * reply)) : list reply :=
  flat_map (fun qm => [fst qm; snd qm]) pairs.

Definition maps_well (qm : reply * reply) : Prop :=
  0 <= rv (fst qm) /\ rv (snd qm) <> MAP_FAILED.

(** The request [init_buffer] makes, and the count a reply grants. *)
Definition buffer_request : v4l2_requestbuffers :=
  mk_req 2 V4L2_BUF_TYPE_VIDEO_CAPTURE V4L2_MEMORY_MMAP.

Definition granted (r : reply) : Z := u32 (req_count (out_req r buffer_request)).

(** The format [init_video_device] asks for. *)
Definition format_request (args : app_args_t) (code : Z) : v4l2_format :=
  mk_format V4L2_BUF_TYPE_VIDEO_CAPTURE
    (mk_pix (u32 (cap_width args)) (u32 (cap_height args)) code
       V4L2_FIELD_INTERLACED 0 0 0 0).

(** A reply to VIDIOC_QBUF that makes [start_capture] sleep and try
    again. *)
Definition transient (r : reply) : Prop :=
  rv r < 0 /\ (re r = ENOMEM \/ re r = EAGAIN).

(** The replies to attempts that fail and are retried: for each one, the
    reply to VIDIOC_QBUF followed by the reply to [usleep]. *)
Definition retried_replies (ts : list (reply * reply)) : list reply :=
  flat_map (fun qu => [fst qu; snd qu]) ts.

(** The replies to one buffer being queued: attempts that are retried,
    then the attempt that succeeds. *)
Definition queued_replies (b : list (reply * reply) * reply) : list reply :=
  retried_replies (fst b) ++ [snd b].

Definition queued_well (b : list (reply * reply) * reply) : Prop :=
  Forall (fun qu => transient (fst qu)) (fst b)
  /\ (length (fst b) < 5)%nat
  /\ rv (snd b) = 0.

Definition all_queued (bs : list (list (reply * reply) * reply)) : list reply :=
  concat (map queued_replies bs).

(** A readiness wait that ends without a frame: [select] fails with
    ETIMEDOUT, or returns with the descriptor out of the read set. *)
Definition timed_out (r : reply) : Prop :=
  (rv r < 0 /\ re r = ETIMEDOUT) \/ (0 <= rv r /\ rready r = false).

(** Replies to [write] that bring the loop of [read_frame] to its end,
    entered with [wrote] bytes written of a frame of [length] bytes: the
    last one either fails or completes the frame. *)
Fixpoint writes_end (length wrote : Z) (ws : list reply) : bool :=
  if u32 wrote <? u32 length then
    match ws with
    | [] => false
    | r :: ws' =>
        if s32 (rv r) <? 0 then
          match ws' with [] => true | _ => false end
        else writes_end length (s32 (wrote + s32 (rv r))) ws'
    end
  else
    match ws with [] => true | _ => false end.

(** [only P m]: whatever the world, the calls [m] makes all satisfy [P];
    they are added at the end of the trace, and the script does not grow. *)
Definition only {A} (P : syscall -> bool) (m : M A) : Prop :=
  forall w,
    exists evs,
      trace (world_of (m w)) = trace w ++ evs
      /\ forallb (fun ev => P (fst ev)) evs = true
      /\ (length (script (world_of (m w))) <= length (script w))%nat.

(** Calls other than the buffer request, the mapping of a buffer and the
    start of streaming. *)
Definition quiet (c : syscall) : bool :=
  match c with
  | SysMmap _ _ _ => false
  | SysIoctl _ VIDIOC_REQBUFS _ | SysIoctl _ VIDIOC_STREAMON _ => false
  | _ => true
  end.

Definition not_reqbufs (c : syscall) : bool :=
  match c with
  | SysIoctl _ VIDIOC_REQBUFS _ => false
  | _ => true
  end.

(** Calls other than the buffer request and the start of streaming. *)
Definition pool_call (c : syscall) : bool :=
  match c with
  | SysIoctl _ VIDIOC_REQBUFS _ | SysIoctl _ VIDIOC_STREAMON _ => false
  | _ => true
  end.

(** Calls other than the mapping of a buffer and the start of streaming. *)
Definition calm (c : syscall) : bool :=
  match c with
  | SysMmap _ _ _ => false
  | SysIoctl _ VIDIOC_STREAMON _ => false
  | _ => true
  end.

Definition is_usleep (ev : event) : bool :=
  match fst ev with SysUsleep _ => true | _ => false end.

(** The number of attempts that were retried while [bs] were queued. *)
Definition retries (bs : list (list (reply * reply) * reply)) : nat :=
  length (concat (map fst bs)).

Definition is_write (c : syscall) : bool :=
  match c with SysWrite _ _ _ => true | _ => false end.

(** A buffer request answered without error with fewer than two buffers. *)
Definition short_grant (ev : event) : bool :=
  negb (not_reqbufs (fst ev)) && (0 <=? rv (snd ev)) && (granted (snd ev) <? 2).

(** [guarded ok m]: whatever the world, either no call [m] makes is a
    buffer request answered with a short grant, or [m] maps no buffer, does
    not start streaming, and can only return a value that satisfies [ok]. *)
Definition guarded {A} (ok : A -> Prop) (m : M A) : Prop :=
  forall w,
    exists evs,
      trace (world_of (m w)) = trace w ++ evs
      /\ (existsb short_grant evs = false
          \/ (forallb (fun ev => calm (fst ev)) evs = true
              /\ forall a, value_of (m w) = Some a -> ok a)).

(** [exhausts m]: when a run of [m] stops for want of a reply, the
    script is empty: it is the kernel that stopped answering, not the
    bound on the turns of a loop that was reached. *)
Definition exhausts {A} (m : M A) : Prop :=
  forall w, match m w with Starved w' => script w' = [] | _ => True end.

(** The calls that enumerate the pixel formats from index [i] on, one
    for each reply of [rs]. *)
Definition enum_events (fd i : Z) (rs : list reply) : list event :=
  imap (fun j r =>
          (SysIoctl fd VIDIOC_ENUM_FMT
             (ArgFmtdesc (mk_fmtdesc (i + Z.of_nat j)
                            V4L2_BUF_TYPE_VIDEO_CAPTURE 0 0)), r)) rs.

(** The buffer that the replies [qm] to its query and to its mapping put
    in cell [i] of the pool. *)
Definition pool_cell (i : Z) (qm : reply * reply) : video_buf_t :=
  mk_video_buf (rv (snd qm))
    (buf_length (out_buffer (fst qm) (mk_buffer i V4L2_MEMORY_MMAP 0 0 0))).

Definition pool_cells (i : Z) (pairs : list (reply * reply)) : list video_buf_t :=
  imap (fun j qm => pool_cell (i + Z.of_nat j) qm) pairs.

(** The calls that query and map the buffers from index [i] on. *)
Definition query_events (fd i : Z) (pairs : list (reply * reply)) : list event :=
  concat
    (imap (fun j qm =>
             let sent := mk_buffer (i + Z.of_nat j) V4L2_MEMORY_MMAP 0 0 0 in
             let got := out_buffer (fst qm) sent in
             [(SysIoctl fd VIDIOC_QUERYBUF (ArgBuffer sent), fst qm);
              (SysMmap (buf_length got) fd (buf_offset got), snd qm)]) pairs).

(** The calls that unmap the buffers [bs], answered by [us]. *)
Definition unmap_events (bs : list video_buf_t) (us : list reply) : list event :=
  map (fun bu => (SysMunmap (addr (fst bu)) (size (fst bu)), snd bu)) (zip bs us).

Definition close_events (fd : Z) (rs : list reply) : list event :=
  map (fun r => (SysClose fd, r)) rs.

(** The regions, address and length, that a trace maps and unmaps. *)
Definition mapped_regions (tr : list event) : list (Z * Z) :=
  flat_map (fun ev =>
              match fst ev with
              | SysMmap len _ _ =>
                  if rv (snd ev) =? MAP_FAILED then [] else [(rv (snd ev), len)]
              | _ => []
              end) tr.

Definition unmapped_regions (tr : list event) : list (Z * Z) :=
  flat_map (fun ev =>
              match fst ev with
              | SysMunmap a n => [(a, n)]
              | _ => []
              end) tr.

Definition region (b : video_buf_t) : Z * Z := (addr b, size b).

(** The replies to the capture of one frame: waits that time out, the
    wait that finds the descriptor ready, then the replies to the dequeue,
    to the creation of the file, to the writes, to the close of the file and
    to the queueing of the buffer. *)
Record frame := mk_frame
  { f_waits : list reply;
    f_select : reply;
    f_dequeue : reply;
    f_open : reply;
    f_writes : list reply;
    f_close : reply;
    f_queue : reply }.

Definition frame_replies (fr : frame) : list reply :=
  f_waits fr ++ [f_select fr; f_dequeue fr; f_open fr]
    ++ f_writes fr ++ [f_close fr; f_queue fr].

Definition dequeued (fr : frame) : v4l2_buffer :=
  out_buffer (f_dequeue fr)
    (mk_buffer 0 V4L2_BUF_TYPE_VIDEO_CAPTURE V4L2_MEMORY_MMAP 0 0).

(** A frame that is captured without error on the session [dev]. *)
Definition frame_good (dev : video_dev_t) (fr : frame) : Prop :=
  Forall timed_out (f_waits fr)
  /\ 0 <= rv (f_select fr) /\ rready (f_select fr) = true
  /\ 0 <= rv (f_dequeue fr)
  /\ u32 (buf_index (dequeued fr)) < u32 (buffer_count dev)
  /\ (exists tbl b,
        buffers dev = Some tbl
        /\ array_get tbl (u32 (buf_index (dequeued fr))) = Some (Some b))
  /\ 0 <= rv (f_open fr)
  /\ writes_end (buf_length (dequeued fr)) 0 (f_writes fr) = true
  /\ 0 <= rv (f_queue fr).

Definition all_frames (frs : list frame) : list reply :=
  concat (map frame_replies frs).

(** The number of turns of the capture loop that [frs] take. *)
Definition turns (frs : list frame) : nat :=
  (length (concat (map f_waits frs)) + length frs)%nat.

(** The files a trace creates. *)
Definition created_files (tr : list event) : list string :=
  flat_map (fun ev =>
              match fst ev with
              | SysOpen path flags =>
                  if flags =? Z.lor O_WRONLY O_CREAT then [path] else []
              | _ => []
              end) tr.

(** The files of the frames [i], [i + 1], ... , one for each of [frs]. *)
Definition frame_files (prefix : string) (i : Z) (frs : list frame) : list string :=
  imap (fun j _ => frame_path prefix (i + Z.of_nat j)) frs.

Definition is_select (ev : event) : bool :=
  match fst ev with SysSelect _ _ => true | _ => false end.

(** The calls of the loop that writes a frame out, entered with [wrote]
    bytes written, when the writes are answered by [ws]. *)
Fixpoint write_events (fd ptr size wrote : Z) (ws : list reply) : list event :=
  match ws with
  | [] => []
  | r :: ws' =>
      (SysWrite fd (ptr + wrote) (u32 (size - wrote)), r)
        :: write_events fd ptr size (wrote + rv r) ws'
  end.

(** Writes that succeed, each one before the frame of [len] bytes is
    complete, and that complete it together. *)
Fixpoint writes_fill (len wrote : Z) (ws : list reply) : Prop :=
  match ws with
  | [] => len <= wrote
  | r :: ws' =>
      wrote < len /\ 0 <= rv r /\ wrote + rv r < 2 ^ 31
      /\ writes_fill len (wrote + rv r) ws'
  end.

(** The calls of the loop that writes a frame out as the loop makes
    them, entered with [wrote] bytes written: each write starts where the
    one before it stopped; [wrote] is an [int]. *)
Fixpoint frame_writes (fd ptr size wrote : Z) (ws : list reply) : list event :=
  match ws with
  | [] => []
  | r :: ws' =>
      (SysWrite fd (ptr + wrote) (u32 (size - wrote)), r)
        :: frame_writes fd ptr size (s32 (wrote + s32 (rv r))) ws'
  end.

(** The cell of the pool that the buffer dequeued for [fr] names. *)
Definition frame_buffer (dev : video_dev_t) (fr : frame) : option video_buf_t :=
  match buffers dev with
  | Some tbl =>
      match array_get tbl (u32 (buf_index (dequeued fr))) with
      | Some (Some b) => Some b
      | _ => None
      end
  | None => None
  end.

(** The calls that capture frame [i], answered by the replies of [fr]:
    the waits, the dequeue, the creation of the file of the frame, the
    writes to the descriptor of that file from the memory of the buffer
    dequeued, the close of the file, and the buffer queued again. *)
Definition frame_events (args : app_args_t) (dev : video_dev_t) (i : Z)
    (fr : frame) : list event :=
  map (fun r => (SysSelect (fd dev + 1) 40000, r)) (f_waits fr)
    ++ [(SysSelect (fd dev + 1) 40000, f_select fr);
        (SysIoctl (fd dev) VIDIOC_DQBUF
           (ArgBuffer
              (mk_buffer 0 V4L2_BUF_TYPE_VIDEO_CAPTURE V4L2_MEMORY_MMAP 0 0)),
         f_dequeue fr);
        (SysOpen (frame_path (cap_prefix args) i) (Z.lor O_WRONLY O_CREAT),
         f_open fr)]
    ++ match frame_buffer dev fr with
       | Some b => frame_writes (rv (f_open fr)) (addr b) (size b) 0 (f_writes fr)
       | None => []
       end
    ++ [(SysClose (rv (f_open fr)), f_close fr);
        (SysIoctl (fd dev) VIDIOC_QBUF (ArgBuffer (dequeued fr)), f_queue fr)].

(** The calls that capture the frames [i], [i + 1], ... , one for each
    of [frs]. *)
Fixpoint frames_events (args : app_args_t) (dev : video_dev_t) (i : Z)
    (frs : list frame) : list event :=
  match frs with
  | [] => []
  | fr :: frs' => frame_events args dev i fr ++ frames_events args dev (i + 1) frs'
  end.

(** [returns P m]: every value that [m] returns satisfies [P]. *)
Definition returns {A} (P : A -> Prop) (m : M A) : Prop :=
  forall w a w', m w = Done a w' -> P a.

(** The values of [enum ERRORS]. *)
Definition is_error_code (code : Z) : Prop :=
  code = NOERROR \/ (INVALID_ARGUMENTS <= code <= NOT_PERMITTED).

(** What the test of a request's [errno] leaves: an error code, or
    nothing when the failure is passed over. *)
Definition refusal (x : option Z) : Prop :=
  match x with Some code => is_error_code code | None => True end.

(** * Properties *)

(** ** Running the embedding *)

Lemma ltb_true (a b : Z) : a < b -> (a <? b) = true.
Proof. apply Z.ltb_lt. Qed.

Lemma ltb_false (a b : Z) : b <= a -> (a <? b) = false.
Proof. apply Z.ltb_ge. Qed.

Lemma geb_true (a b : Z) : b <= a -> (a >=? b) = true.
Proof. intros H. rewrite Z.geb_leb. apply Z.leb_le. exact H. Qed.

Lemma geb_false (a b : Z) : a < b -> (a >=? b) = false.
Proof. intros H. rewrite Z.geb_leb. apply Z.leb_gt. exact H. Qed.

Lemma eqb_true (a b : Z) : a = b -> (a =? b) = true.
Proof. apply Z.eqb_eq. Qed.

Lemma eqb_false (a b : Z) : a <> b -> (a =? b) = false.
Proof. apply Z.eqb_neq. Qed.

(** [run] takes the next calls of a program from a script whose head is
    known. *)
Ltac run :=
  cbv [bind call pure ioctl get_errno crash starve emit script trace errno].

(** ** Pixel formats *)

Lemma array_get_negative {A} (a : list A) (i : Z) :
  i < 0 -> array_get a i = None.
Proof.
  intros H. unfold array_get. destruct (Z.ltb_spec i 0); [reflexivity | lia].
Qed.

Lemma array_get_inside {A} (a : list A) (i : Z) :
  0 <= i -> array_get a i = a !! Z.to_nat i.
Proof.
  intros H. unfold array_get. destruct (Z.ltb_spec i 0); [lia | reflexivity].
Qed.

(** C9. An index at or beyond [NUMBER_OF_SUPPORTED_PIXEL_FORMATS] is
    mapped, without any failure, to the default entry
    [PIXEL_FORMATS[DEF_PIXEL_FORMAT]], which is YUYV; an index inside the
    table is mapped to the entry at that index, one of the eight format
    codes and never the sentinel. *)
Theorem to_v4l2_pixel_format_fallback (format : Z) :
  (NUMBER_OF_SUPPORTED_PIXEL_FORMATS <= format ->
     to_v4l2_pixel_format format = Some V4L2_PIX_FMT_YUYV
     /\ PIXEL_FORMATS !! Z.to_nat DEF_PIXEL_FORMAT = Some V4L2_PIX_FMT_YUYV)
  /\ (0 <= format < NUMBER_OF_SUPPORTED_PIXEL_FORMATS ->
     exists code, PIXEL_FORMATS !! Z.to_nat format = Some code
       /\ code <> 0
       /\ to_v4l2_pixel_format format = Some code).
Proof.
  unfold to_v4l2_pixel_format, NUMBER_OF_SUPPORTED_PIXEL_FORMATS. split.
  - intros H. destruct (Z.geb_spec format 8); [| lia]. split; reflexivity.
  - intros [H0 H8]. destruct (Z.geb_spec format 8); [lia |].
    rewrite array_get_inside by assumption.
    assert (Hn : (Z.to_nat format < 8)%nat) by lia.
    destruct (Z.to_nat format) as [|[|[|[|[|[|[|[|n]]]]]]]]; [..| lia];
      (eexists; split; [reflexivity | split; [discriminate | reflexivity]]).
Qed.

Lemma to_v4l2_pixel_format_fallback_witness :
  to_v4l2_pixel_format 8 = Some V4L2_PIX_FMT_YUYV
  /\ to_v4l2_pixel_format 2147483647 = Some V4L2_PIX_FMT_YUYV
  /\ exists code, PIXEL_FORMATS !! Z.to_nat 5 = Some code
       /\ code <> 0 /\ to_v4l2_pixel_format 5 = Some code.
Proof.
  split; [| split].
  - apply (proj1 (to_v4l2_pixel_format_fallback 8)).
    unfold NUMBER_OF_SUPPORTED_PIXEL_FORMATS; lia.
  - apply (proj1 (to_v4l2_pixel_format_fallback 2147483647)).
    unfold NUMBER_OF_SUPPORTED_PIXEL_FORMATS; lia.
  - apply (proj2 (to_v4l2_pixel_format_fallback 5)).
    unfold NUMBER_OF_SUPPORTED_PIXEL_FORMATS; lia.
Defined.

(** C10. Only the upper bound of the index is guarded.  The [-f] option
    is refused exactly when its value is at or above
    [NUMBER_OF_SUPPORTED_PIXEL_FORMATS]; any smaller value, negative ones
    included, is stored in the arguments.  For a negative index the access
    [PIXEL_FORMATS[format]] falls outside the table, and
    [init_video_device] reaches that access as soon as the crop request has
    not failed. *)
Theorem negative_pixel_format_unguarded
    (format : Z) (optarg : string) (args : app_args_t) :
  (fst (parse_args [("f"%char, optarg)] args) = -1
     <-> NUMBER_OF_SUPPORTED_PIXEL_FORMATS <= atoi optarg)
  /\ (atoi optarg < NUMBER_OF_SUPPORTED_PIXEL_FORMATS ->
      parse_args [("f"%char, optarg)] args
        = (0, set_pixel_format args (atoi optarg)))
  /\ (format < 0 ->
      array_get PIXEL_FORMATS format = None
      /\ to_v4l2_pixel_format format = None
      /\ forall dev c s tr e, 0 <= rv c ->
           exists w,
             init_video_device (set_pixel_format args format) dev
               (mk_world (c :: s) tr e) = Crashed w
             /\ script w = s).
Proof.
  unfold NUMBER_OF_SUPPORTED_PIXEL_FORMATS.
  assert (Hparse : parse_args [("f"%char, optarg)] args
            = if atoi optarg >=? 8
              then (-1, set_pixel_format args (atoi optarg))
              else (0, set_pixel_format args (atoi optarg))).
  { cbn [parse_args Ascii.eqb Bool.eqb]. unfold set_pixel_format at 1.
    cbn [pixel_format]. unfold NUMBER_OF_SUPPORTED_PIXEL_FORMATS.
    destruct (atoi optarg >=? 8); reflexivity. }
  rewrite Hparse. split; [| split].
  - destruct (Z.geb_spec (atoi optarg) 8); cbn [fst]; split; intros; lia.
  - intros Hlt. destruct (Z.geb_spec (atoi optarg) 8); [lia | reflexivity].
  - intros Hneg.
    assert (Hget : array_get PIXEL_FORMATS format = None)
      by (apply array_get_negative; assumption).
    assert (Hto : to_v4l2_pixel_format format = None).
    { unfold to_v4l2_pixel_format, NUMBER_OF_SUPPORTED_PIXEL_FORMATS.
      destruct (Z.geb_spec format 8); [lia | assumption]. }
    split; [assumption | split; [assumption |]].
    intros dev c s tr e Hc.
    unfold init_video_device, ioctl, bind, call, pure. cbn [script].
    destruct (Z.ltb_spec (rv c) 0); [lia |].
    cbn [pixel_format set_pixel_format]. rewrite Hto.
    unfold crash. eexists; split; reflexivity.
Qed.

Lemma negative_pixel_format_unguarded_witness :
  atoi "-1" = -1
  /\ parse_args [("f"%char, "-1"%string)] default_args
       = (0, set_pixel_format default_args (-1))
  /\ to_v4l2_pixel_format (-1) = None
  /\ exists w,
       init_video_device (set_pixel_format default_args (-1)) initial_dev
         (boot [ok 0]) = Crashed w /\ script w = [].
Proof.
  destruct (negative_pixel_format_unguarded (-1) "-1" default_args)
    as (_ & Hparse & Hneg).
  destruct Hneg as (_ & Hto & Hinit); [lia |].
  split; [reflexivity |]. split; [| split; [exact Hto |]].
  - apply Hparse. vm_compute. reflexivity.
  - apply (Hinit initial_dev (ok 0) [] [] 0). simpl; lia.
Defined.

(** ** Opening the device *)

(** How [open_video_device] ends when the device opens and reports the
    capture capability, and the cropping-capabilities query then fails. *)
Lemma open_video_device_cropcap_failed
    (args : app_args_t) (dev : video_dev_t) (o q c : reply)
    (s : list reply) (tr : list event) (e : Z) :
  0 <= rv o -> 0 <= rv q ->
  Z.land (capabilities (out_capability q (caps dev))) V4L2_CAP_VIDEO_CAPTURE <> 0 ->
  rv c < 0 ->
  let cc := mk_cropcap V4L2_BUF_TYPE_VIDEO_CAPTURE zero_rect zero_rect in
  open_video_device args dev (mk_world (o :: q :: c :: s) tr e)
  = Done (VIDEO_DEVICE_NOCROPCAPS,
          set_cropcaps (set_caps (set_fd dev (rv o)) (out_capability q (caps dev)))
            (out_cropcap c cc))
      (mk_world s
         (tr ++ [(SysOpen (device args) O_RDONLY, o)]
             ++ [(SysIoctl (rv o) VIDIOC_QUERYCAP (ArgCapability (caps dev)), q)]
             ++ [(SysIoctl (rv o) VIDIOC_CROPCAP (ArgCropcap cc), c)])
         (re c)).
Proof.
  intros Ho Hq Hcap Hc cc.
  unfold open_video_device. run. cbn [fd set_fd set_caps caps].
  rewrite (ltb_false _ _ Ho). run.
  rewrite (ltb_false _ _ Hq), (eqb_false _ _ Hcap). run.
  rewrite (ltb_true _ _ Hc). rewrite <- !app_assoc. reflexivity.
Qed.

(** C3, in the form that holds of the code. Whenever the
    cropping-capabilities query fails, the invalid-argument response
    included, [open_video_device] stops there with
    [VIDEO_DEVICE_NOCROPCAPS]: the query is the last call it makes. *)
Theorem cropcap_failure_always_fatal
    (args : app_args_t) (dev : video_dev_t) (o q c : reply)
    (s : list reply) (tr : list event) (e : Z) :
  0 <= rv o -> 0 <= rv q ->
  Z.land (capabilities (out_capability q (caps dev))) V4L2_CAP_VIDEO_CAPTURE <> 0 ->
  rv c < 0 ->
  exists dev' w',
    open_video_device args dev (mk_world (o :: q :: c :: s) tr e)
      = Done (VIDEO_DEVICE_NOCROPCAPS, dev') w'
    /\ script w' = s
    /\ last (trace w')
       = Some (SysIoctl (rv o) VIDIOC_CROPCAP
                 (ArgCropcap (mk_cropcap V4L2_BUF_TYPE_VIDEO_CAPTURE
                                zero_rect zero_rect)), c)
    /\ count_events (is_ioctl VIDIOC_ENUM_FMT) (trace w')
       = count_events (is_ioctl VIDIOC_ENUM_FMT) tr.
Proof.
  intros Ho Hq Hcap Hc.
  rewrite open_video_device_cropcap_failed by assumption.
  eexists; eexists. split; [reflexivity |]. cbn [script trace].
  split; [reflexivity |]. split.
  - rewrite !app_assoc. apply last_snoc.
  - unfold count_events. rewrite !List.filter_app, !length_app. cbn. lia.
Qed.

Lemma cropcap_failure_always_fatal_witness :
  exists dev' w',
    open_video_device default_args initial_dev
      (boot [ok 3; ok_arg (ArgCapability (mk_capability 0 1)); fail EIO;
             fail EINVAL])
      = Done (VIDEO_DEVICE_NOCROPCAPS, dev') w'
    /\ script w' = [fail EINVAL]
    /\ last (trace w')
       = Some (SysIoctl 3 VIDIOC_CROPCAP
                 (ArgCropcap (mk_cropcap V4L2_BUF_TYPE_VIDEO_CAPTURE
                                zero_rect zero_rect)), fail EIO)
    /\ count_events (is_ioctl VIDIOC_ENUM_FMT) (trace w') = 0%nat.
Proof.
  apply (cropcap_failure_always_fatal default_args initial_dev
           (ok 3) (ok_arg (ArgCapability (mk_capability 0 1))) (fail EIO)
           [fail EINVAL] [] 0); simpl; try lia; discriminate.
Defined.

(** C3, as the specification words it, does not hold: the query answered
    with EINVAL on a capture device does not let [open_video_device] go on
    to the format enumeration; it returns [VIDEO_DEVICE_NOCROPCAPS] like any
    other failure. *)
Lemma cropcap_einval_not_tolerated :
  let run :=
    open_video_device default_args initial_dev
      (boot [ok 3; ok_arg (ArgCapability (mk_capability 0 1)); fail EINVAL;
             fail EINVAL]) in
  option_map fst (value_of run) = Some VIDEO_DEVICE_NOCROPCAPS
  /\ VIDEO_DEVICE_NOCROPCAPS <> NOERROR
  /\ count_events (is_ioctl VIDIOC_ENUM_FMT) (trace (world_of run)) = 0%nat
  /\ script (world_of run) = [fail EINVAL].
Proof.
  cbv zeta. split; [vm_compute; reflexivity |].
  split; [discriminate |]. split; vm_compute; reflexivity.
Qed.

(** ** Closing the session *)


(** ** Allocating the buffers *)

Lemma count_events_app (p : event -> bool) (a b : list event) :
  count_events p (a ++ b) = (count_events p a + count_events p b)%nat.
Proof. unfold count_events. rewrite List.filter_app, length_app. reflexivity. Qed.

(** The query loop on [k] buffers that map well followed by a query that
    fails with EINVAL: it stops there with no error and [i] advanced by
    [k]. *)
Lemma query_buffers_stops_at_einval (pairs : list (reply * reply)) :
  forall (n : nat) (dev : video_dev_t) (tbl : cells) (i : Z)
         (f : reply) (s : list reply) (tr : list event) (e : Z),
    (length pairs < n)%nat ->
    Forall maps_well pairs ->
    rv f < 0 -> re f = EINVAL ->
    exists tbl' evs,
      query_buffers n dev tbl i (mk_world (mapped_replies pairs ++ f :: s) tr e)
        = Done (NOERROR, tbl', i + Z.of_nat (length pairs))
            (mk_world s (tr ++ evs) EINVAL)
      /\ count_events is_mmap evs = length pairs
      /\ count_events is_munmap evs = 0%nat.
Proof.
  induction pairs as [| [q m] pairs IH]; intros n dev tbl i f s tr e Hn Hall Hf He.
  - destruct n as [| n]; [cbn in Hn; lia |].
    cbn [mapped_replies flat_map app query_buffers]. run.
    rewrite (ltb_true _ _ Hf), He. cbn [Z.eqb EINVAL Pos.eqb].
    eexists; eexists. split; [| split].
    + cbn [length Z.of_nat]. rewrite Z.add_0_r. reflexivity.
    + reflexivity.
    + reflexivity.
  - destruct n as [| n]; [cbn in Hn; lia |].
    inversion Hall as [| ? ? [Hq Hm] Hall']; subst. cbn [fst snd] in Hq, Hm.
    cbn [mapped_replies flat_map app fst snd query_buffers]. run.
    rewrite (ltb_false _ _ Hq). run. rewrite (eqb_false _ _ Hm).
    fold (mapped_replies pairs).
    edestruct (IH n dev) as (tbl' & evs & Hrun & Hmm & Hun);
      [cbn in Hn; lia | exact Hall' | exact Hf | exact He |].
    rewrite Hrun. eexists; eexists. split; [| split].
    + replace (i + Z.of_nat (length ((q, m) :: pairs)))
        with (i + 1 + Z.of_nat (length pairs)) by (cbn [length]; lia).
      rewrite <- !app_assoc. reflexivity.
    + rewrite !count_events_app, Hmm. reflexivity.
    + rewrite !count_events_app, Hun. reflexivity.
Qed.

(** C2, in the form that holds of the code. When the query of some granted
    index fails with EINVAL, [init_buffer] stops enumerating and returns
    [NOERROR]; the pool it leaves in the session holds the buffers mapped
    until then, however many they are, and none of them is unmapped. *)
Theorem init_buffer_partial_pool
    (dev : video_dev_t) (g p : reply) (pairs : list (reply * reply))
    (f : reply) (s : list reply) (tr : list event) (e : Z) :
  0 <= rv g -> 2 <= granted g -> rv p <> NULL ->
  Z.of_nat (length pairs) < granted g ->
  Forall maps_well pairs ->
  rv f < 0 -> re f = EINVAL ->
  exists tbl w',
    init_buffer dev (mk_world (g :: p :: mapped_replies pairs ++ f :: s) tr e)
      = Done (NOERROR,
              set_buffers dev (Some tbl) (s32 (Z.of_nat (length pairs)))) w'
    /\ script w' = s
    /\ count_events is_mmap (trace w')
       = (count_events is_mmap tr + length pairs)%nat
    /\ count_events is_munmap (trace w') = count_events is_munmap tr.
Proof.
  intros Hg Hcount Hp Hk Hall Hf He.
  unfold init_buffer. run. rewrite (ltb_false _ _ Hg).
  fold buffer_request. fold (granted g).
  rewrite (ltb_false _ _ Hcount). run. rewrite (eqb_false _ _ Hp).
  edestruct (query_buffers_stops_at_einval pairs (Z.to_nat (granted g)))
    as (tbl' & evs & Hrun & Hmm & Hun);
    [| exact Hall | exact Hf | exact He |]; [lia |].
  cbn [fd set_buffers]. cbn [fd set_buffers] in Hrun.
  rewrite Hrun. cbn [negb Z.eqb NOERROR]. rewrite Z.add_0_l.
  eexists; eexists. split; [reflexivity |]. cbn [script trace].
  split; [reflexivity |]. rewrite !count_events_app, Hmm, Hun.
  cbn. split; lia.
Qed.

Lemma init_buffer_partial_pool_witness :
  exists tbl w',
    init_buffer (set_fd initial_dev 3)
      (boot (ok_arg (ArgReq (mk_req 4 1 1)) :: ok 4096
             :: mapped_replies
                  [(ok_arg (ArgBuffer (mk_buffer 0 1 0 614400 0)), ok 8192)]
             ++ fail EINVAL :: []))
      = Done (NOERROR,
              set_buffers (set_fd initial_dev 3) (Some tbl) (s32 (Z.of_nat 1))) w'
    /\ script w' = []
    /\ count_events is_mmap (trace w') = 1%nat
    /\ count_events is_munmap (trace w') = 0%nat.
Proof.
  apply (init_buffer_partial_pool (set_fd initial_dev 3)
           (ok_arg (ArgReq (mk_req 4 1 1))) (ok 4096)
           [(ok_arg (ArgBuffer (mk_buffer 0 1 0 614400 0)), ok 8192)]
           (fail EINVAL) [] [] 0).
  - simpl; lia.
  - vm_compute; discriminate.
  - discriminate.
  - vm_compute; reflexivity.
  - repeat constructor; simpl; try lia; discriminate.
  - simpl; lia.
  - reflexivity.
Defined.

(** C2, as the specification words it, does not hold: with two buffers
    granted and the very first query answered with EINVAL, no buffer is
    mapped and [init_buffer] still returns [NOERROR], not
    [INSUFFICIENT_MEMORY]; the same with one buffer mapped before the query
    that fails. *)
Lemma init_buffer_accepts_short_pool :
  let none :=
    init_buffer (set_fd initial_dev 3)
      (boot [ok_arg (ArgReq (mk_req 2 1 1)); ok 4096; fail EINVAL]) in
  let one :=
    init_buffer (set_fd initial_dev 3)
      (boot [ok_arg (ArgReq (mk_req 2 1 1)); ok 4096;
             ok_arg (ArgBuffer (mk_buffer 0 1 0 614400 0)); ok 8192;
             fail EINVAL]) in
  option_map fst (value_of none) = Some NOERROR
  /\ option_map (fun x => buffer_count (snd x)) (value_of none) = Some 0
  /\ count_events is_mmap (trace (world_of none)) = 0%nat
  /\ option_map fst (value_of one) = Some NOERROR
  /\ option_map (fun x => buffer_count (snd x)) (value_of one) = Some 1
  /\ count_events is_mmap (trace (world_of one)) = 1%nat
  /\ NOERROR <> INSUFFICIENT_MEMORY.
Proof.
  cbv zeta. repeat split; try (vm_compute; reflexivity). discriminate.
Qed.

(** ** Fewer than two buffers granted *)

Lemma init_buffer_short_grant
    (dev : video_dev_t) (g : reply) (s : list reply) (tr : list event) (e : Z) :
  0 <= rv g -> granted g < 2 ->
  init_buffer dev (mk_world (g :: s) tr e)
  = Done (INSUFFICIENT_MEMORY, set_buffers dev None 0)
      (mk_world s
         (tr ++ [(SysIoctl (fd dev) VIDIOC_REQBUFS (ArgReq buffer_request), g)])
         e).
Proof.
  intros Hg Hcount. unfold init_buffer. run. rewrite (ltb_false _ _ Hg).
  fold buffer_request. fold (granted g). rewrite (ltb_true _ _ Hcount).
  reflexivity.
Qed.

(** ** Negotiating the format *)

Lemma init_buffer_keeps_format (dev : video_dev_t) (w : world) :
  forall code dev' w',
    init_buffer dev w = Done (code, dev') w' -> format dev' = format dev.
Proof.
  intros code dev' w'. unfold init_buffer, ioctl, bind, pure.
  destruct (call _ w) as [g w1 | |]; [| discriminate ..].
  destruct (rv g <? 0).
  - unfold get_errno. destruct (errno w1 =? EBUSY).
    { intros [= <- <- <-]. reflexivity. }
    destruct (errno w1 =? EINVAL).
    { intros [= <- <- <-]. reflexivity. }
    destruct (u32 _ <? 2).
    { intros [= <- <- <-]. reflexivity. }
    destruct (call _ w1) as [p w2 | |]; [| discriminate ..].
    destruct (rv p =? NULL).
    { intros [= <- <- <-]. reflexivity. }
    destruct (query_buffers _ _ _ _ w2) as [[[res tbl] i] w3 | |];
      [| discriminate ..].
    destruct (negb (res =? NOERROR)).
    + destruct (release_buffers _ _ _ w3) as [tbl' w4 | |]; [| discriminate ..].
      unfold emit. intros [= <- <- <-]. reflexivity.
    + intros [= <- <- <-]. reflexivity.
  - destruct (u32 _ <? 2).
    { intros [= <- <- <-]. reflexivity. }
    destruct (call _ w1) as [p w2 | |]; [| discriminate ..].
    destruct (rv p =? NULL).
    { intros [= <- <- <-]. reflexivity. }
    destruct (query_buffers _ _ _ _ w2) as [[[res tbl] i] w3 | |];
      [| discriminate ..].
    destruct (negb (res =? NOERROR)).
    + destruct (release_buffers _ _ _ w3) as [tbl' w4 | |]; [| discriminate ..].
      unfold emit. intros [= <- <- <-]. reflexivity.
    + intros [= <- <- <-]. reflexivity.
Qed.

(** C4, in the form that holds of the code. Whatever width, height and
    format are asked for, once the crop request is tolerated and the format
    request is not refused, [init_video_device] goes on to [init_buffer]
    with a session whose format is the structure given to VIDIOC_S_FMT as
    the kernel left it. The reply [g] to VIDIOC_G_FMT, success or failure,
    whatever it reports, has no part in it: it is consumed and the session
    is the same for every [g]. *)
Theorem negotiated_format_is_set_format_result
    (args : app_args_t) (dev : video_dev_t) (code : Z) (c f g : reply)
    (s : list reply) (tr : list event) (e : Z) :
  (rv c < 0 -> re c = EINVAL) ->
  to_v4l2_pixel_format (pixel_format args) = Some code ->
  (rv f < 0 -> re f <> EBUSY /\ re f <> EINVAL) ->
  let asked := format_request args code in
  let cropped :=
    mk_crop V4L2_BUF_TYPE_VIDEO_CAPTURE (cropcap_defrect (cropcaps dev)) in
  let dev1 := set_format (set_crop dev (out_crop c cropped)) (out_format f asked) in
  exists w1,
    init_video_device args dev (mk_world (c :: f :: g :: s) tr e)
      = init_buffer dev1 w1
    /\ script w1 = s
    /\ last (trace w1)
       = Some (SysIoctl (fd dev) VIDIOC_G_FMT
                 (ArgFormat (mk_format V4L2_BUF_TYPE_VIDEO_CAPTURE zero_pix)), g)
    /\ forall res dev' w',
         init_buffer dev1 w1 = Done (res, dev') w' ->
         format dev' = out_format f asked.
Proof.
  intros Hc Hcode Hf asked cropped dev1.
  assert (Hstep : exists w1,
            init_video_device args dev (mk_world (c :: f :: g :: s) tr e)
              = init_buffer dev1 w1
            /\ script w1 = s
            /\ last (trace w1)
               = Some (SysIoctl (fd dev) VIDIOC_G_FMT
                         (ArgFormat (mk_format V4L2_BUF_TYPE_VIDEO_CAPTURE
                                       zero_pix)), g)).
  { unfold init_video_device. rewrite Hcode. run.
    fold cropped. fold (format_request args code). fold asked.
    cbn [fd set_crop set_format]. fold dev1.
    destruct (Z.ltb_spec (rv c) 0) as [Hlt | Hge].
    - rewrite (Hc Hlt). cbn [Z.eqb EINVAL Pos.eqb negb].
      destruct (Z.ltb_spec (rv f) 0) as [Hflt | Hfge].
      + destruct (Hf Hflt) as [Hb Hi].
        rewrite (eqb_false _ _ Hb), (eqb_false _ _ Hi).
        eexists. split; [reflexivity |]. split; [reflexivity |].
        cbn [trace]. apply last_snoc.
      + eexists. split; [reflexivity |]. split; [reflexivity |].
        cbn [trace]. apply last_snoc.
    - destruct (Z.ltb_spec (rv f) 0) as [Hflt | Hfge].
      + destruct (Hf Hflt) as [Hb Hi].
        rewrite (eqb_false _ _ Hb), (eqb_false _ _ Hi).
        eexists. split; [reflexivity |]. split; [reflexivity |].
        cbn [trace]. apply last_snoc.
      + eexists. split; [reflexivity |]. split; [reflexivity |].
        cbn [trace]. apply last_snoc. }
  destruct Hstep as (w1 & Hrun & Hs & Hlast).
  exists w1. split; [exact Hrun |]. split; [exact Hs |]. split; [exact Hlast |].
  intros res dev' w' Hdone.
  rewrite (init_buffer_keeps_format dev1 w1 res dev' w' Hdone). reflexivity.
Qed.

(** A device that accepts 640x480 as asked, has VIDIOC_S_FMT write back
    352x288 in a second run, and in both reports 320x240 to VIDIOC_G_FMT. *)
Lemma negotiated_format_is_set_format_result_witness :
  let adjusted := mk_format 1 (mk_pix 352 288 V4L2_PIX_FMT_YUYV 4 704 202752 0 0) in
  let reported := mk_format 1 (mk_pix 320 240 V4L2_PIX_FMT_YUYV 4 640 153600 0 0) in
  let rest :=
    [ok_arg (ArgReq (mk_req 2 1 1)); ok 4096;
     ok_arg (ArgBuffer (mk_buffer 0 1 0 202752 0)); ok 8192;
     ok_arg (ArgBuffer (mk_buffer 1 1 0 202752 202752)); ok 212992] in
  exists dev' w',
    init_video_device default_args (set_fd initial_dev 3)
      (boot (ok 0 :: ok_arg (ArgFormat adjusted)
               :: ok_arg (ArgFormat reported) :: rest))
      = Done (NOERROR, dev') w'
    /\ format dev' = adjusted.
Proof.
  intros adjusted reported rest.
  destruct (negotiated_format_is_set_format_result
              default_args (set_fd initial_dev 3) V4L2_PIX_FMT_YUYV
              (ok 0) (ok_arg (ArgFormat adjusted)) (ok_arg (ArgFormat reported))
              rest [] 0)
    as (w1 & Hrun & _ & _ & Hfmt).
  - simpl. lia.
  - reflexivity.
  - simpl. lia.
  - unfold boot. rewrite Hrun.
    assert (Hcode : option_map fst (value_of (init_buffer
                (set_format
                   (set_crop (set_fd initial_dev 3)
                      (out_crop (ok 0)
                         (mk_crop V4L2_BUF_TYPE_VIDEO_CAPTURE
                            (cropcap_defrect (cropcaps (set_fd initial_dev 3))))))
                   (out_format (ok_arg (ArgFormat adjusted))
                      (format_request default_args V4L2_PIX_FMT_YUYV))) w1))
              = Some NOERROR)
      by (rewrite <- Hrun; vm_compute; reflexivity).
    destruct (init_buffer _ w1) as [[res dev'] w' | |] eqn:Hinit;
      [| discriminate Hcode ..].
    cbn in Hcode. injection Hcode as ->.
    exists dev', w'. split; [reflexivity |].
    apply (Hfmt NOERROR dev' w'). reflexivity.
Defined.

(** C4, as the specification words it, does not hold: the device accepts the
    request without writing anything back and then reports 320x240 to
    VIDIOC_G_FMT; the query succeeds, and the format of the session is still
    the raw request, 640x480, not what the query reported. *)
Lemma negotiated_format_ignores_get_format :
  let reported := mk_format 1 (mk_pix 320 240 V4L2_PIX_FMT_YUYV 4 640 153600 0 0) in
  let run :=
    init_video_device default_args (set_fd initial_dev 3)
      (boot [ok 0; ok 0; ok_arg (ArgFormat reported);
             ok_arg (ArgReq (mk_req 2 1 1)); ok 4096;
             ok_arg (ArgBuffer (mk_buffer 0 1 0 153600 0)); ok 8192;
             ok_arg (ArgBuffer (mk_buffer 1 1 0 153600 153600)); ok 163840]) in
  option_map fst (value_of run) = Some NOERROR
  /\ option_map (fun x => format (snd x)) (value_of run)
     = Some (format_request default_args V4L2_PIX_FMT_YUYV)
  /\ format_request default_args V4L2_PIX_FMT_YUYV
     = mk_format 1 (mk_pix 640 480 V4L2_PIX_FMT_YUYV 4 0 0 0 0)
  /\ option_map (fun x => format (snd x)) (value_of run) <> Some reported.
Proof.
  cbv zeta. split; [vm_compute; reflexivity |].
  split; [vm_compute; reflexivity |]. split; [vm_compute; reflexivity |].
  vm_compute. discriminate.
Qed.

(** ** Starting the capture *)

Lemma transient_retries (r : reply) (e : Z) :
  transient r ->
  (rv r =? 0) = false
  /\ (rv r <? 0) = true
  /\ (re r =? EINVAL) = false
  /\ (re r =? EIO) = false
  /\ ((re r =? ENOMEM) || (re r =? EAGAIN)) = true.
Proof.
  intros [Hlt [He | He]]; rewrite He;
    (split; [apply Z.eqb_neq; lia |]); (split; [apply Z.ltb_lt; lia |]);
    repeat split; reflexivity.
Qed.

(** Attempts that are retried use up as many turns of the retry loop;
    each one is followed by a sleep. *)
Lemma queue_retry_transients (ts : list (reply * reply)) :
  forall (n : nat) (dev : video_dev_t) (i retry : Z)
         (rest : list reply) (tr : list event) (e : Z),
    Forall (fun qu => transient (fst qu)) ts ->
    exists evs e',
      queue_retry (length ts + n) dev i retry
        (mk_world (retried_replies ts ++ rest) tr e)
      = queue_retry n dev i (retry + Z.of_nat (length ts))
          (mk_world rest (tr ++ evs) e')
      /\ count_events (is_ioctl VIDIOC_QBUF) evs = length ts
      /\ count_events is_usleep evs = length ts
      /\ count_events (is_ioctl VIDIOC_STREAMON) evs = 0%nat.
Proof.
  induction ts as [| [q u] ts IH]; intros n dev i retry rest tr e Hall.
  - exists [], e. cbn [length Nat.add retried_replies flat_map app Z.of_nat].
    rewrite Z.add_0_r, app_nil_r. repeat split; reflexivity.
  - inversion Hall as [| ? ? Hq Hall']; subst. cbn [fst] in Hq.
    destruct (transient_retries q e Hq) as (H0 & Hlt & Hinv & Hio & Hmem).
    cbn [length Nat.add retried_replies flat_map app fst snd queue_retry].
    run. rewrite H0, Hlt, Hinv, Hio, Hmem. run. cbn [negb Z.eqb NOERROR].
    fold (retried_replies ts).
    edestruct (IH n dev i (retry + 1)) as (evs & e' & Hrun & Hq' & Hu & Hon);
      [exact Hall' |].
    rewrite Hrun. eexists; eexists. split; [| split; [| split]].
    + replace (retry + Z.of_nat (S (length ts)))
        with (retry + 1 + Z.of_nat (length ts)) by lia.
      rewrite <- !app_assoc. reflexivity.
    + rewrite !count_events_app, Hq'. reflexivity.
    + rewrite !count_events_app, Hu. reflexivity.
    + rewrite !count_events_app, Hon. reflexivity.
Qed.

Lemma retries_cons (ts : list (reply * reply)) (q : reply)
    (bs : list (list (reply * reply) * reply)) :
  retries ((ts, q) :: bs) = (length ts + retries bs)%nat.
Proof. unfold retries. cbn [map concat fst]. apply length_app. Qed.

(** A buffer queued within the bound lets the loop over the buffers go
    on to the next one. *)
Lemma queue_buffers_queued (bs : list (list (reply * reply) * reply)) :
  forall (n : nat) (dev : video_dev_t) (i : Z)
         (rest : list reply) (tr : list event) (e : Z),
    Forall queued_well bs ->
    exists evs e',
      queue_buffers (length bs + n) dev i
        (mk_world (all_queued bs ++ rest) tr e)
      = queue_buffers n dev (i + Z.of_nat (length bs))
          (mk_world rest (tr ++ evs) e')
      /\ count_events (is_ioctl VIDIOC_QBUF) evs = (retries bs + length bs)%nat
      /\ count_events is_usleep evs = retries bs
      /\ count_events (is_ioctl VIDIOC_STREAMON) evs = 0%nat.
Proof.
  induction bs as [| [ts q] bs IH]; intros n dev i rest tr e Hall.
  - exists [], e. cbn [length Nat.add all_queued map concat app Z.of_nat].
    rewrite Z.add_0_r, app_nil_r. repeat split; reflexivity.
  - inversion Hall as [| ? ? (Hts & Hlen & Hq) Hall']; subst.
    cbn [fst snd] in Hts, Hlen, Hq.
    cbn [length Nat.add all_queued map concat queue_buffers].
    fold (all_queued bs). unfold queued_replies at 1. cbn [fst snd].
    rewrite <- !app_assoc. cbn [app]. unfold bind at 1.
    destruct (queue_retry_transients ts (5 - length ts) dev i 0
                (q :: all_queued bs ++ rest) tr e Hts)
      as (evs & e' & Hrun & Hqs & Hus & Hon).
    replace (length ts + (5 - length ts))%nat with 5%nat in Hrun by lia.
    rewrite Hrun.
    destruct (5 - length ts)%nat as [| m] eqn:Hm; [lia |].
    cbn [queue_retry]. run. rewrite (eqb_true _ _ Hq).
    rewrite (geb_false (0 + Z.of_nat (length ts)) 5) by lia.
    cbn [negb Z.eqb NOERROR].
    edestruct (IH n dev (i + 1)) as (evs' & e'' & Hrun' & Hqs' & Hus' & Hon');
      [exact Hall' |].
    rewrite Hrun'. rewrite retries_cons.
    eexists; eexists. split; [| split; [| split]].
    + replace (i + Z.of_nat (S (length bs)))
        with (i + 1 + Z.of_nat (length bs)) by lia.
      rewrite <- !app_assoc. reflexivity.
    + rewrite !count_events_app, Hqs, Hqs'. cbn. lia.
    + rewrite !count_events_app, Hus, Hus'. cbn. lia.
    + rewrite !count_events_app, Hon, Hon'. reflexivity.
Qed.

(** C5.  [start_capture] queues the buffers in turn; [bs] are the
    buffers already queued, each within the bound, after [retries bs]
    attempts that were retried.
    - When they are all the buffers and VIDIOC_STREAMON is accepted, the
      start succeeds: attempts answered with ENOMEM or EAGAIN, up to four
      for a buffer, do not make it fail.
    - When the next buffer has five attempts in a row answered with ENOMEM
      or EAGAIN, each followed by a sleep, the start fails with
      [MEMORY_QUEUEING_FAILED] after these five attempts: there is no sixth
      one, nothing that follows in the script is consumed, and streaming is
      not started.
    - When an attempt for the next buffer, after fewer than five that were
      retried, is answered with EINVAL, the start fails with
      [MEMORY_QUEUEING_FAILED]; answered with EIO, with [IO_ERROR]; in both
      cases that attempt is the last call made: no sleep follows it and
      streaming is not started. *)
Theorem start_capture_retry_bound
    (dev : video_dev_t) (bs : list (list (reply * reply) * reply))
    (ts : list (reply * reply)) (tr : list event) (e : Z) :
  Forall queued_well bs ->
  Forall (fun qu => transient (fst qu)) ts ->
  (length bs = Z.to_nat (u32 (buffer_count dev)) ->
   forall on s, 0 <= rv on ->
     exists w',
       start_capture dev (mk_world (all_queued bs ++ on :: s) tr e)
         = Done NOERROR w'
       /\ script w' = s
       /\ last (trace w')
          = Some (SysIoctl (fd dev) VIDIOC_STREAMON
                    (ArgType V4L2_BUF_TYPE_VIDEO_CAPTURE), on)
       /\ count_events (is_ioctl VIDIOC_QBUF) (trace w')
          = (count_events (is_ioctl VIDIOC_QBUF) tr
             + (retries bs + length bs))%nat)
  /\ ((length bs < Z.to_nat (u32 (buffer_count dev)))%nat ->
      length ts = 5%nat ->
      forall s,
        exists w',
          start_capture dev
            (mk_world (all_queued bs ++ retried_replies ts ++ s) tr e)
            = Done MEMORY_QUEUEING_FAILED w'
          /\ script w' = s
          /\ count_events (is_ioctl VIDIOC_QBUF) (trace w')
             = (count_events (is_ioctl VIDIOC_QBUF) tr
                + (retries bs + length bs) + 5)%nat
          /\ count_events is_usleep (trace w')
             = (count_events is_usleep tr + retries bs + 5)%nat
          /\ count_events (is_ioctl VIDIOC_STREAMON) (trace w')
             = count_events (is_ioctl VIDIOC_STREAMON) tr)
  /\ ((length bs < Z.to_nat (u32 (buffer_count dev)))%nat ->
      (length ts < 5)%nat ->
      forall f s, rv f < 0 -> re f = EINVAL \/ re f = EIO ->
        exists w',
          start_capture dev
            (mk_world (all_queued bs ++ retried_replies ts ++ f :: s) tr e)
            = Done (if re f =? EINVAL then MEMORY_QUEUEING_FAILED else IO_ERROR) w'
          /\ script w' = s
          /\ last (trace w')
             = Some (SysIoctl (fd dev) VIDIOC_QBUF
                       (ArgBuffer
                          (mk_buffer (Z.of_nat (length bs))
                             V4L2_BUF_TYPE_VIDEO_CAPTURE V4L2_MEMORY_MMAP 0 0)), f)
          /\ count_events is_usleep (trace w')
             = (count_events is_usleep tr + retries bs + length ts)%nat
          /\ count_events (is_ioctl VIDIOC_STREAMON) (trace w')
             = count_events (is_ioctl VIDIOC_STREAMON) tr).
Proof.
  intros Hbs Hts. split; [| split].
  - intros Hlen on s Hon. unfold start_capture. unfold bind at 1.
    destruct (queue_buffers_queued bs 0 dev 0 (on :: s) tr e Hbs)
      as (evs & e' & Hrun & Hqs & _).
    rewrite Nat.add_0_r, Hlen in Hrun. rewrite Hrun.
    cbn [queue_buffers]. run. cbn [negb Z.eqb NOERROR].
    rewrite (ltb_false _ _ Hon).
    eexists. split; [reflexivity |]. split; [reflexivity |].
    cbn [trace]. split; [apply last_snoc |].
    rewrite !count_events_app, Hqs. cbn. lia.
  - intros Hlen Hfive s. unfold start_capture. unfold bind at 1.
    destruct (queue_buffers_queued bs
                (Z.to_nat (u32 (buffer_count dev)) - length bs) dev 0
                (retried_replies ts ++ s) tr e Hbs)
      as (evs & e' & Hrun & Hqs & Hus & Hon).
    replace (length bs + (Z.to_nat (u32 (buffer_count dev)) - length bs))%nat
      with (Z.to_nat (u32 (buffer_count dev))) in Hrun by lia.
    rewrite Hrun.
    destruct (Z.to_nat (u32 (buffer_count dev)) - length bs)%nat
      as [| m] eqn:Hm; [lia |].
    cbn [queue_buffers]. unfold bind at 1.
    destruct (queue_retry_transients ts 0 dev (0 + Z.of_nat (length bs)) 0
                s (tr ++ evs) e' Hts)
      as (evs' & e'' & Hrun' & Hqs' & Hus' & Hon').
    rewrite Nat.add_0_r in Hrun'. rewrite Hfive in Hrun', Hqs', Hus'.
    rewrite Hrun'.
    cbn [queue_retry]. run. cbn.
    eexists. split; [reflexivity |]. split; [reflexivity |].
    cbn [trace]. rewrite !count_events_app, Hqs, Hus, Hon, Hqs', Hus', Hon'.
    repeat split; lia.
  - intros Hlen Hfew f s Hf He. unfold start_capture. unfold bind at 1.
    destruct (queue_buffers_queued bs
                (Z.to_nat (u32 (buffer_count dev)) - length bs) dev 0
                (retried_replies ts ++ f :: s) tr e Hbs)
      as (evs & e' & Hrun & _ & Hus & Hon).
    replace (length bs + (Z.to_nat (u32 (buffer_count dev)) - length bs))%nat
      with (Z.to_nat (u32 (buffer_count dev))) in Hrun by lia.
    rewrite Hrun.
    destruct (Z.to_nat (u32 (buffer_count dev)) - length bs)%nat
      as [| m] eqn:Hm; [lia |].
    cbn [queue_buffers]. unfold bind at 1.
    destruct (queue_retry_transients ts (5 - length ts) dev
                (0 + Z.of_nat (length bs)) 0 (f :: s) (tr ++ evs) e' Hts)
      as (evs' & e'' & Hrun' & _ & Hus' & Hon').
    replace (length ts + (5 - length ts))%nat with 5%nat in Hrun' by lia.
    rewrite Hrun'.
    destruct (5 - length ts)%nat as [| k] eqn:Hk; [lia |].
    cbn [queue_retry]. run.
    rewrite (eqb_false (rv f) 0) by lia. rewrite (ltb_true _ _ Hf).
    rewrite !Z.add_0_l.
    destruct He as [He | He]; rewrite He;
      cbn [Z.eqb EINVAL EIO Pos.eqb negb MEMORY_QUEUEING_FAILED IO_ERROR NOERROR];
      rewrite (geb_false (Z.of_nat (length ts)) 5) by lia;
      cbn [Z.eqb negb];
      (eexists; split; [reflexivity |]; split; [reflexivity |]; split;
       [apply last_snoc |]; cbn [trace];
       rewrite !count_events_app, Hus, Hon, Hus', Hon'; cbn; lia).
Qed.

(** The scenarios on a session of two buffers: three attempts answered
    with ENOMEM and the fourth accepted; six answers ENOMEM in a row, of
    which the sixth is never asked for; an attempt answered with EIO. *)
Lemma start_capture_retry_bound_witness :
  let tbl := [Some (mk_video_buf 8192 100); Some (mk_video_buf 12288 100)] in
  let dev := set_buffers (set_fd initial_dev 3) (Some tbl) 2 in
  let t := (fail ENOMEM, ok 0) in
  (exists w',
     start_capture dev
       (boot (all_queued [([t; t; t], ok 0); ([], ok 0)] ++ ok 0 :: []))
       = Done NOERROR w'
     /\ script w' = []
     /\ last (trace w')
        = Some (SysIoctl 3 VIDIOC_STREAMON
                  (ArgType V4L2_BUF_TYPE_VIDEO_CAPTURE), ok 0)
     /\ count_events (is_ioctl VIDIOC_QBUF) (trace w') = 5%nat)
  /\ (exists w',
        start_capture dev
          (boot (all_queued [] ++ retried_replies [t; t; t; t; t]
                   ++ [fail ENOMEM; ok 0]))
          = Done MEMORY_QUEUEING_FAILED w'
        /\ script w' = [fail ENOMEM; ok 0]
        /\ count_events (is_ioctl VIDIOC_QBUF) (trace w') = 5%nat
        /\ count_events is_usleep (trace w') = 5%nat
        /\ count_events (is_ioctl VIDIOC_STREAMON) (trace w') = 0%nat)
  /\ (exists w',
        start_capture dev
          (boot (all_queued [([], ok 0)] ++ retried_replies [t]
                   ++ fail EIO :: [ok 0]))
          = Done IO_ERROR w'
        /\ script w' = [ok 0]
        /\ last (trace w')
           = Some (SysIoctl 3 VIDIOC_QBUF
                     (ArgBuffer (mk_buffer 1 V4L2_BUF_TYPE_VIDEO_CAPTURE
                                   V4L2_MEMORY_MMAP 0 0)), fail EIO)
        /\ count_events is_usleep (trace w') = 1%nat
        /\ count_events (is_ioctl VIDIOC_STREAMON) (trace w') = 0%nat).
Proof.
  intros tbl dev t.
  assert (Ht : transient (fst t)) by (split; [simpl; lia | left; reflexivity]).
  split; [| split].
  - apply (proj1 (start_capture_retry_bound dev
                    [([t; t; t], ok 0); ([], ok 0)] [] [] 0
                    ltac:(repeat constructor; simpl; lia)
                    ltac:(constructor))).
    + reflexivity.
    + simpl; lia.
  - apply (proj1 (proj2 (start_capture_retry_bound dev [] [t; t; t; t; t] [] 0
                    ltac:(constructor)
                    ltac:(repeat constructor; simpl; lia)))).
    + vm_compute. lia.
    + reflexivity.
  - apply (proj2 (proj2 (start_capture_retry_bound dev [([], ok 0)] [t] [] 0
                    ltac:(repeat constructor; simpl; lia)
                    ltac:(repeat constructor; simpl; lia)))
             ltac:(vm_compute; lia) ltac:(simpl; lia) (fail EIO) [ok 0]).
    + simpl; lia.
    + right; reflexivity.
Defined.

(** ** What a function may call *)

Section Only.
Context {A B : Type} (P : syscall -> bool).

Lemma only_pure (a : A) : only P (pure a).
Proof. intros w. exists []. cbn. rewrite app_nil_r. auto. Qed.

Lemma only_crash : only P (@crash A).
Proof. intros w. exists []. cbn. rewrite app_nil_r. auto. Qed.

Lemma only_starve : only P (@starve A).
Proof. intros w. exists []. cbn. rewrite app_nil_r. auto. Qed.

Lemma only_get_errno : only P get_errno.
Proof. intros w. exists []. cbn. rewrite app_nil_r. auto. Qed.

Lemma only_call (c : syscall) : P c = true -> only P (call c).
Proof.
  intros Hc w. unfold call. destruct (script w) as [| r s] eqn:Hs.
  - exists []. cbn. rewrite app_nil_r, Hs. auto.
  - exists [(c, r)]. cbn. rewrite Hc. repeat split; auto.
Qed.

Lemma only_emit (c : syscall) : P c = true -> only P (emit c).
Proof.
  intros Hc w. exists [(c, void_reply)]. cbn. rewrite Hc. auto.
Qed.

Lemma only_bind (m : M A) (k : A -> M B) :
  only P m -> (forall a, only P (k a)) -> only P (bind m k).
Proof.
  intros Hm Hk w. unfold bind.
  destruct (Hm w) as (evs & Htr & Hall & Hlen).
  destruct (m w) as [a w1 | w1 | w1]; cbn [world_of] in *.
  - destruct (Hk a w1) as (evs' & Htr' & Hall' & Hlen').
    exists (evs ++ evs'). split; [| split].
    + rewrite Htr', Htr, app_assoc. reflexivity.
    + rewrite forallb_app. apply andb_true_intro. split; assumption.
    + lia.
  - exists evs. auto.
  - exists evs. auto.
Qed.

Lemma only_with_fuel (f : nat -> M A) :
  (forall fuel, only P (f fuel)) -> only P (with_fuel f).
Proof. intros Hf w. unfold with_fuel. apply Hf. Qed.
End Only.

Lemma only_weaken {A} (P Q : syscall -> bool) (m : M A) :
  (forall c, P c = true -> Q c = true) -> only P m -> only Q m.
Proof.
  intros HPQ Hm w. destruct (Hm w) as (evs & Htr & Hall & Hlen).
  exists evs. repeat split; auto.
  rewrite forallb_forall in *. intros ev Hin. apply HPQ, Hall, Hin.
Qed.

(** One step of a proof that a function only makes calls of a kind. *)
Ltac only_step :=
  lazymatch goal with
  | |- only _ (bind _ _) => apply only_bind; [| intros ?]
  | |- only _ (pure _) => apply only_pure
  | |- only _ crash => apply only_crash
  | |- only _ starve => apply only_starve
  | |- only _ get_errno => apply only_get_errno
  | |- only _ (call _) => apply only_call; reflexivity
  | |- only _ (ioctl _ _ _) => apply only_call; reflexivity
  | |- only _ (emit _) => apply only_emit; reflexivity
  | |- only _ (with_fuel _) => apply only_with_fuel; intros ?
  | |- only _ (if ?b then _ else _) => destruct b
  | |- only _ (match ?x with _ => _ end) => destruct x
  | |- only _ (let _ := _ in _) => cbv zeta
  end.

Ltac only_run := repeat only_step.

Lemma only_enum_formats P (dev : video_dev_t) :
  (forall fd a, P (SysIoctl fd VIDIOC_ENUM_FMT a) = true) ->
  forall fuel i, only P (enum_formats fuel dev i).
Proof.
  intros HP. induction fuel as [| fuel IH]; intros i; cbn [enum_formats].
  - apply only_starve.
  - apply only_bind; [apply only_call, HP | intros r].
    destruct (rv r <? 0); [only_run | apply IH].
Qed.

Lemma only_close_retry P (fd : Z) :
  P (SysClose fd) = true -> forall fuel, only P (close_retry fuel fd).
Proof.
  intros HP. induction fuel as [| fuel IH]; cbn [close_retry].
  - apply only_starve.
  - apply only_bind; [apply only_call, HP | intros r].
    destruct (rv r <? 0); [apply IH | only_run].
Qed.

Lemma only_unmap_buffers P (tbl : cells) :
  (forall a n, P (SysMunmap a n) = true) ->
  forall n i, only P (unmap_buffers n tbl i).
Proof.
  intros HP. induction n as [| n IH]; intros i; cbn [unmap_buffers].
  - apply only_pure.
  - destruct (array_get tbl i) as [[b |] |]; [| apply only_crash ..].
    destruct (addr b =? MAP_FAILED); [apply only_pure |].
    apply only_bind; [apply only_call, HP | intros _; apply IH].
Qed.

Lemma only_release_buffers P :
  (forall a n, P (SysMunmap a n) = true) ->
  forall n tbl i, only P (release_buffers n tbl i).
Proof.
  intros HP. induction n as [| n IH]; intros tbl i; cbn [release_buffers].
  - apply only_pure.
  - destruct (array_get tbl i) as [[b |] |]; [| apply only_crash ..].
    destruct (addr b =? MAP_FAILED); [apply only_pure |].
    apply only_bind; [apply only_call, HP | intros _; apply IH].
Qed.

Lemma only_query_buffers P (dev : video_dev_t) :
  (forall fd a, P (SysIoctl fd VIDIOC_QUERYBUF a) = true) ->
  (forall n fd o, P (SysMmap n fd o) = true) ->
  forall n tbl i, only P (query_buffers n dev tbl i).
Proof.
  intros HQ HM. induction n as [| n IH]; intros tbl i; cbn [query_buffers].
  - apply only_pure.
  - apply only_bind; [apply only_call, HQ | intros r].
    destruct (rv r <? 0); [only_run |].
    apply only_bind; [apply only_call, HM | intros m].
    destruct (rv m =? MAP_FAILED); [apply only_pure | apply IH].
Qed.

Lemma only_queue_retry P (dev : video_dev_t) :
  (forall fd a, P (SysIoctl fd VIDIOC_QBUF a) = true) ->
  (forall n, P (SysUsleep n) = true) ->
  forall n i retry, only P (queue_retry n dev i retry).
Proof.
  intros HQ HU. induction n as [| n IH]; intros i retry; cbn [queue_retry].
  - apply only_pure.
  - apply only_bind; [apply only_call, HQ | intros r].
    destruct (rv r =? 0); [apply only_pure |].
    apply only_bind; [apply only_get_errno | intros e].
    apply only_bind.
    + destruct (e =? EINVAL); [apply only_pure |].
      destruct (e =? EIO); [apply only_pure |].
      destruct ((e =? ENOMEM) || (e =? EAGAIN)); [| apply only_pure].
      apply only_bind; [apply only_call, HU | intros _; apply only_pure].
    + intros result. destruct (negb (result =? NOERROR));
        [apply only_pure | apply IH].
Qed.

Lemma only_queue_buffers P (dev : video_dev_t) :
  (forall fd a, P (SysIoctl fd VIDIOC_QBUF a) = true) ->
  (forall n, P (SysUsleep n) = true) ->
  forall n i, only P (queue_buffers n dev i).
Proof.
  intros HQ HU. induction n as [| n IH]; intros i; cbn [queue_buffers].
  - apply only_pure.
  - apply only_bind; [apply only_queue_retry; assumption | intros [result retry]].
    destruct (negb (_ =? NOERROR)); [apply only_pure | apply IH].
Qed.

Lemma only_write_frame P :
  (forall fd p n, P (SysWrite fd p n) = true) ->
  forall fuel fd ptr size length wrote,
    only P (write_frame fuel fd ptr size length wrote).
Proof.
  intros HW. induction fuel as [| fuel IH]; intros fd ptr size length wrote;
    cbn [write_frame].
  - apply only_starve.
  - destruct (u32 wrote <? u32 length); [| apply only_pure].
    apply only_bind; [apply only_call, HW | intros r].
    cbv zeta. destruct (s32 (rv r) <? 0); [apply only_pure | apply IH].
Qed.

Ltac only_loops :=
  repeat first
    [ only_step
    | apply only_enum_formats; intros; reflexivity
    | apply only_close_retry; reflexivity
    | apply only_unmap_buffers; intros; reflexivity
    | apply only_release_buffers; intros; reflexivity
    | apply only_query_buffers; intros; reflexivity
    | apply only_queue_buffers; intros; reflexivity
    | apply only_write_frame; intros; reflexivity ].

Lemma only_open_video_device (args : app_args_t) (dev : video_dev_t) :
  only quiet (open_video_device args dev).
Proof. unfold open_video_device. only_loops. Qed.

Lemma only_close_video_device (dev : video_dev_t) :
  only quiet (close_video_device dev).
Proof. unfold close_video_device. only_loops. Qed.

Lemma only_start_capture (dev : video_dev_t) :
  only not_reqbufs (start_capture dev).
Proof. unfold start_capture. only_loops. Qed.

Lemma only_read_frame (args : app_args_t) (dev : video_dev_t) (index : Z) :
  only not_reqbufs (read_frame args dev index).
Proof. unfold read_frame. only_loops. Qed.

Lemma only_capture_turn (args : app_args_t) (dev : video_dev_t) (i result : Z) :
  only not_reqbufs (capture_turn args dev i result).
Proof.
  unfold capture_turn.
  apply only_bind; [apply only_call; reflexivity | intros s].
  destruct (rv s <? 0); [only_loops |].
  destruct (negb (rready s)); [only_loops |].
  apply only_bind; [apply only_read_frame | intros r]. only_loops.
Qed.

Lemma only_capture_loop (args : app_args_t) (dev : video_dev_t) (count : Z) :
  forall fuel i result, only not_reqbufs (capture_loop fuel args dev count i result).
Proof.
  induction fuel as [| fuel IH]; intros i result; cbn [capture_loop].
  - apply only_starve.
  - destruct (i <? count); [| apply only_pure].
    apply only_bind; [apply only_capture_turn | intros [i' r' | r']].
    + apply IH.
    + apply only_pure.
Qed.

Lemma only_do_capture (args : app_args_t) (dev : video_dev_t) :
  only not_reqbufs (do_capture args dev).
Proof.
  unfold do_capture.
  apply only_bind; [apply only_start_capture | intros result].
  destruct (negb (NOERROR =? result)); [apply only_pure |].
  apply only_bind.
  - apply only_with_fuel. intros fuel. apply only_capture_loop.
  - intros r. unfold stop_capture. only_loops.
Qed.

(** ** Where the buffer request is made *)

Lemma no_short_grant (P : syscall -> bool) (evs : list event) :
  (forall c, P c = true -> not_reqbufs c = true) ->
  forallb (fun ev => P (fst ev)) evs = true ->
  existsb short_grant evs = false.
Proof.
  intros HP. induction evs as [| ev evs IH]; [reflexivity |].
  cbn [forallb existsb]. intros [Hev Hall]%andb_true_iff.
  rewrite (IH Hall). unfold short_grant. rewrite (HP _ Hev). reflexivity.
Qed.

Lemma count_none (P : syscall -> bool) (p : event -> bool) (evs : list event) :
  (forall ev, P (fst ev) = true -> p ev = false) ->
  forallb (fun ev => P (fst ev)) evs = true ->
  count_events p evs = 0%nat.
Proof.
  intros HP. induction evs as [| ev evs IH]; [reflexivity |].
  cbn [forallb]. intros [Hev Hall]%andb_true_iff.
  unfold count_events in *. cbn [List.filter]. rewrite (HP _ Hev). apply IH, Hall.
Qed.

Lemma quiet_not_streamon (ev : event) :
  quiet (fst ev) = true -> is_ioctl VIDIOC_STREAMON ev = false.
Proof. destruct ev as [[| | fd [] a | | | | | | |] r]; cbn; congruence. Qed.

Lemma quiet_not_mmap (ev : event) :
  quiet (fst ev) = true -> is_mmap ev = false.
Proof. destruct ev as [[| | fd [] a | | | | | | |] r]; cbn; congruence. Qed.

Lemma quiet_not_reqbufs (c : syscall) : quiet c = true -> not_reqbufs c = true.
Proof. destruct c as [| | fd [] a | | | | | | |]; cbn; congruence. Qed.

Lemma pool_call_not_reqbufs (c : syscall) :
  pool_call c = true -> not_reqbufs c = true.
Proof. destruct c as [| | fd [] a | | | | | | |]; cbn; congruence. Qed.

(** [init_buffer] either meets a short grant as the reply to its first
    call, or makes no request that is answered with one. *)
Lemma init_buffer_shape (dev : video_dev_t) (w : world) :
  (exists evs,
     trace (world_of (init_buffer dev w)) = trace w ++ evs
     /\ existsb short_grant evs = false)
  \/ (exists g s, script w = g :: s /\ 0 <= rv g /\ granted g < 2).
Proof.
  destruct w as [[| g s] tr e].
  - left. exists []. cbn. rewrite app_nil_r. auto.
  - destruct (Z.leb_spec 0 (rv g)) as [Hg | Hg];
      [destruct (Z.ltb_spec (granted g) 2) as [Hc | Hc] |].
    + right. exists g, s. auto.
    + left. unfold init_buffer. unfold bind at 1. unfold ioctl, call at 1.
      cbn [script trace errno].
      lazymatch goal with
      | |- context [world_of (bind ?x ?y ?w1)] =>
          assert (Hrest : only pool_call (bind x y)) by only_loops;
          destruct (Hrest w1) as (evs & Htr & Hall & _)
      end.
      eexists. split.
      * rewrite Htr. cbn [trace]. rewrite <- app_assoc. reflexivity.
      * cbn [app existsb]. rewrite (no_short_grant pool_call evs
                                     pool_call_not_reqbufs Hall).
        unfold short_grant. cbn [fst snd].
        rewrite (ltb_false _ _ Hc), andb_false_r. reflexivity.
    + left. unfold init_buffer. unfold bind at 1. unfold ioctl, call at 1.
      cbn [script trace errno].
      lazymatch goal with
      | |- context [world_of (bind ?x ?y ?w1)] =>
          assert (Hrest : only pool_call (bind x y)) by only_loops;
          destruct (Hrest w1) as (evs & Htr & Hall & _)
      end.
      eexists. split.
      * rewrite Htr. cbn [trace]. rewrite <- app_assoc. reflexivity.
      * cbn [app existsb]. rewrite (no_short_grant pool_call evs
                                     pool_call_not_reqbufs Hall).
        unfold short_grant. cbn [fst snd].
        rewrite (proj2 (Z.leb_gt 0 (rv g)) Hg), andb_false_r. reflexivity.
Qed.

Lemma quiet_calm (evs : list event) :
  forallb (fun ev => quiet (fst ev)) evs = true ->
  forallb (fun ev => calm (fst ev)) evs = true.
Proof.
  rewrite !forallb_forall. intros H ev Hin. specialize (H ev Hin).
  destruct ev as [[| | fd [] a | | | | | | |] r]; cbn in *; congruence.
Qed.

Lemma existsb_short_grant_app (a b : list event) :
  existsb short_grant a = false -> existsb short_grant b = false ->
  existsb short_grant (a ++ b) = false.
Proof. intros Ha Hb. rewrite existsb_app, Ha, Hb. reflexivity. Qed.

Section Guarded.
Context {A B : Type}.

Lemma guarded_only (P : syscall -> bool) (ok : A -> Prop) (m : M A) :
  (forall c, P c = true -> not_reqbufs c = true) ->
  only P m -> guarded ok m.
Proof.
  intros HP Hm w. destruct (Hm w) as (evs & Htr & Hall & _).
  exists evs. split; [exact Htr |]. left.
  apply (no_short_grant P evs HP Hall).
Qed.

Lemma guarded_after_quiet (ok : B -> Prop) (m : M A) (k : A -> M B) :
  only quiet m -> (forall a, guarded ok (k a)) -> guarded ok (bind m k).
Proof.
  intros Hm Hk w. unfold bind.
  destruct (Hm w) as (evs & Htr & Hall & _).
  pose proof (no_short_grant quiet evs quiet_not_reqbufs Hall) as Hnone.
  destruct (m w) as [a w1 | w1 | w1]; cbn [world_of] in *.
  - destruct (Hk a w1) as (evs' & Htr' & Hcase).
    exists (evs ++ evs'). split.
    + rewrite Htr', Htr, app_assoc. reflexivity.
    + destruct Hcase as [Hnone' | [Hcalm Hok]].
      * left. apply existsb_short_grant_app; assumption.
      * right. split; [| exact Hok].
        rewrite forallb_app. apply andb_true_intro.
        split; [apply quiet_calm, Hall | exact Hcalm].
  - exists evs. split; [exact Htr |]. left. exact Hnone.
  - exists evs. split; [exact Htr |]. left. exact Hnone.
Qed.

Lemma guarded_then (ok1 : A -> Prop) (ok2 : B -> Prop)
    (m : M A) (k : A -> M B) :
  guarded ok1 m ->
  (forall a, only not_reqbufs (k a)) ->
  (forall a, ok1 a ->
     only quiet (k a) /\ forall w b, value_of (k a w) = Some b -> ok2 b) ->
  guarded ok2 (bind m k).
Proof.
  intros Hm Hk Hok w. unfold bind.
  destruct (Hm w) as (evs & Htr & Hcase).
  destruct (m w) as [a w1 | w1 | w1]; cbn [world_of value_of] in *.
  - destruct Hcase as [Hnone | [Hcalm Ha]].
    + destruct (Hk a w1) as (evs' & Htr' & Hall' & _).
      exists (evs ++ evs'). split.
      * rewrite Htr', Htr, app_assoc. reflexivity.
      * left. apply existsb_short_grant_app; [exact Hnone |].
        apply (no_short_grant not_reqbufs evs' (fun c H => H) Hall').
    + destruct (Hok a (Ha a eq_refl)) as [Hquiet Hval].
      destruct (Hquiet w1) as (evs' & Htr' & Hall' & _).
      exists (evs ++ evs'). split.
      * rewrite Htr', Htr, app_assoc. reflexivity.
      * right. split; [| apply Hval].
        rewrite forallb_app. apply andb_true_intro.
        split; [exact Hcalm | apply quiet_calm, Hall'].
  - exists evs. split; [exact Htr |].
    destruct Hcase as [Hnone | [Hcalm _]]; [left; exact Hnone |].
    right. split; [exact Hcalm | discriminate].
  - exists evs. split; [exact Htr |].
    destruct Hcase as [Hnone | [Hcalm _]]; [left; exact Hnone |].
    right. split; [exact Hcalm | discriminate].
Qed.
End Guarded.

Lemma guarded_init_buffer (dev : video_dev_t) :
  guarded (fun x => fst x = INSUFFICIENT_MEMORY) (init_buffer dev).
Proof.
  intros w. destruct (init_buffer_shape dev w)
    as [(evs & Htr & Hnone) | (g & s & Hs & Hg & Hc)].
  - exists evs. auto.
  - destruct w as [sc tr e]. cbn [script] in Hs. subst sc.
    rewrite (init_buffer_short_grant dev g s tr e Hg Hc).
    eexists. split; [reflexivity |]. right. split; [reflexivity |].
    intros a [= <-]. reflexivity.
Qed.

Lemma guarded_init_video_device (args : app_args_t) (dev : video_dev_t) :
  guarded (fun x => fst x = INSUFFICIENT_MEMORY) (init_video_device args dev).
Proof.
  unfold init_video_device.
  apply guarded_after_quiet; [only_loops | intros c].
  apply guarded_after_quiet; [only_loops | intros failed].
  destruct failed; [apply (guarded_only quiet); [apply quiet_not_reqbufs | only_loops] |].
  destruct (to_v4l2_pixel_format (pixel_format args)) as [code |];
    [| apply (guarded_only quiet); [apply quiet_not_reqbufs | only_loops]].
  apply guarded_after_quiet; [only_loops | intros f].
  apply guarded_after_quiet; [only_loops | intros refused].
  destruct refused as [code' |];
    [apply (guarded_only quiet); [apply quiet_not_reqbufs | only_loops] |].
  apply guarded_after_quiet; [only_loops | intros g].
  apply guarded_init_buffer.
Qed.

Lemma guarded_main (opts : list (ascii * string)) :
  guarded (fun code => code = INSUFFICIENT_MEMORY) (main opts).
Proof.
  unfold main. destruct (parse_args opts default_args) as [failed args].
  destruct (negb (failed =? 0));
    [apply (guarded_only quiet); [apply quiet_not_reqbufs | only_loops] |].
  apply guarded_after_quiet; [apply only_open_video_device | intros [code dev]].
  destruct (negb (NOERROR =? code));
    [apply (guarded_only quiet); [apply quiet_not_reqbufs | only_loops] |].
  apply (guarded_then (fun x => fst x = INSUFFICIENT_MEMORY)).
  - apply guarded_init_video_device.
  - intros [code' dev']. apply only_bind.
    + destruct (NOERROR =? code'); [apply only_do_capture | apply only_pure].
    + intros code''. apply only_bind; [| intros _; apply only_pure].
      apply (only_weaken quiet); [apply quiet_not_reqbufs |].
      apply only_close_video_device.
  - intros [code' dev'] Hcode. cbn [fst] in Hcode. subst code'.
    cbn [Z.eqb NOERROR INSUFFICIENT_MEMORY]. split.
    + apply only_bind; [apply only_pure | intros code''].
      apply only_bind; [apply only_close_video_device | intros _; apply only_pure].
    + intros w b. unfold bind, pure.
      destruct (close_video_device dev' w); cbn; congruence.
Qed.

(** C6.  When the kernel answers the buffer request without error and
    grants fewer than two buffers, [init_buffer] returns
    [INSUFFICIENT_MEMORY] right after that request: the session has no
    buffer table and the request is the only call made, so nothing is
    mapped.  For the whole program: a run of [main] in which the buffer
    request was answered with such a grant maps no buffer at all, never
    asks for streaming to start, and can only end with
    [INSUFFICIENT_MEMORY]. *)
Theorem short_grant_fails_setup :
  (forall dev g s tr e,
     0 <= rv g -> granted g < 2 ->
     init_buffer dev (mk_world (g :: s) tr e)
     = Done (INSUFFICIENT_MEMORY, set_buffers dev None 0)
         (mk_world s
            (tr ++ [(SysIoctl (fd dev) VIDIOC_REQBUFS (ArgReq buffer_request), g)])
            e))
  /\ (forall opts s,
        let run := main opts (boot s) in
        existsb short_grant (trace (world_of run)) = true ->
        count_events (is_ioctl VIDIOC_STREAMON) (trace (world_of run)) = 0%nat
        /\ count_events is_mmap (trace (world_of run)) = 0%nat
        /\ forall code, value_of run = Some code -> code = INSUFFICIENT_MEMORY).
Proof.
  split; [exact init_buffer_short_grant |].
  intros opts s run Hshort. subst run.
  destruct (guarded_main opts (boot s)) as (evs & Htr & Hcase).
  cbn [boot trace app] in Htr. rewrite Htr in *.
  destruct Hcase as [Hnone | [Hcalm Hok]]; [congruence |].
  split; [| split; [| exact Hok]].
  - apply (count_none calm); [| exact Hcalm].
    intros [[| | fd [] a | | | | | | |] r]; cbn; congruence.
  - apply (count_none calm); [| exact Hcalm].
    intros [[| | fd [] a | | | | | | |] r]; cbn; congruence.
Qed.

(** A device that opens, reports capture, accepts crop and format, and
    grants one buffer. *)
Lemma short_grant_fails_setup_witness :
  let one := ok_arg (ArgReq (mk_req 1 1 1)) in
  let s :=
    [ok 3; ok_arg (ArgCapability (mk_capability 0 1)); ok 0; fail EINVAL;
     ok 0; ok 0; ok 0; one; ok 0] in
  init_buffer (set_fd initial_dev 3) (boot [one])
  = Done (INSUFFICIENT_MEMORY, set_buffers (set_fd initial_dev 3) None 0)
      (mk_world []
         [(SysIoctl 3 VIDIOC_REQBUFS (ArgReq buffer_request), one)] 0)
  /\ value_of (main [] (boot s)) = Some INSUFFICIENT_MEMORY
  /\ script (world_of (main [] (boot s))) = []
  /\ count_events (is_ioctl VIDIOC_STREAMON) (trace (world_of (main [] (boot s))))
     = 0%nat
  /\ count_events is_mmap (trace (world_of (main [] (boot s)))) = 0%nat.
Proof.
  intros one s. split.
  - apply (proj1 short_grant_fails_setup (set_fd initial_dev 3) one [] [] 0).
    + simpl; lia.
    + vm_compute; reflexivity.
  - split; [vm_compute; reflexivity |]. split; [vm_compute; reflexivity |].
    destruct (proj2 short_grant_fails_setup [] s) as (Hon & Hmap & _).
    + vm_compute; reflexivity.
    + split; [exact Hon | exact Hmap].
Defined.

(** ** Acquiring a frame *)

Lemma write_frame_ends (ws : list reply) :
  forall (fuel : nat) (fd ptr size len wrote : Z)
         (rest : list reply) (tr : list event) (e : Z),
    writes_end len wrote ws = true ->
    (length ws < fuel)%nat ->
    exists evs e',
      write_frame fuel fd ptr size len wrote (mk_world (ws ++ rest) tr e)
        = Done tt (mk_world rest (tr ++ evs) e')
      /\ forallb (fun ev => is_write (fst ev)) evs = true.
Proof.
  induction ws as [| r ws IH]; intros fuel fd ptr size len wrote rest tr e Hend Hfuel;
    (destruct fuel as [| fuel]; [cbn in Hfuel; lia |]);
    cbn [writes_end] in Hend; cbn [write_frame app].
  - destruct (u32 wrote <? u32 len); [discriminate |].
    exists [], e. rewrite app_nil_r. split; reflexivity.
  - destruct (u32 wrote <? u32 len); [| discriminate]. run.
    destruct (s32 (rv r) <? 0).
    + destruct ws; [| discriminate]. cbn [app].
      eexists; eexists. split; reflexivity.
    + edestruct (IH fuel fd ptr size len) as (evs & e' & Hrun & Hall);
        [exact Hend | cbn in Hfuel; lia |].
      rewrite Hrun. eexists; eexists. split.
      * rewrite <- app_assoc. reflexivity.
      * cbn [forallb app fst is_write andb]. exact Hall.
Qed.

Lemma writes_no_queueing (q : ioctl_req) (evs : list event) :
  forallb (fun ev => is_write (fst ev)) evs = true ->
  count_events (is_ioctl q) evs = 0%nat.
Proof.
  apply (count_none is_write).
  intros [[| | fd r a | | | | | | |] rp]; cbn; congruence.
Qed.

(** C8.  Once a buffer has been dequeued (and its index passed the
    assertion), [read_frame] queues that same buffer again as its last call
    before it returns, whatever happened to the frame in between:
    - the file for the frame cannot be created: the buffer is queued again
      and the result is the file error, unless queueing fails;
    - the file is created and the writes come to an end, by a write that
      fails or by the frame being complete: the buffer is queued again and
      the result is [NOERROR], unless queueing fails.
    When queueing fails the result is [MEMORY_QUEUEING_FAILED].  In both
    cases exactly one buffer is dequeued and one queued. *)
Theorem read_frame_requeues
    (args : app_args_t) (dev : video_dev_t) (index : Z) (d o q : reply)
    (s : list reply) (tr : list event) (e : Z) :
  0 <= rv d ->
  let buf :=
    out_buffer d (mk_buffer 0 V4L2_BUF_TYPE_VIDEO_CAPTURE V4L2_MEMORY_MMAP 0 0) in
  u32 (buf_index buf) < u32 (buffer_count dev) ->
  let requeue := (SysIoctl (fd dev) VIDIOC_QBUF (ArgBuffer buf), q) in
  (rv o < 0 ->
   exists w',
     read_frame args dev index (mk_world (d :: o :: q :: s) tr e)
       = Done (if rv q <? 0 then MEMORY_QUEUEING_FAILED
               else if re o =? EPERM then NOT_PERMITTED
                    else IO_FILE_NOT_CREATED) w'
     /\ script w' = s
     /\ last (trace w') = Some requeue
     /\ count_events (is_ioctl VIDIOC_DQBUF) (trace w')
        = S (count_events (is_ioctl VIDIOC_DQBUF) tr)
     /\ count_events (is_ioctl VIDIOC_QBUF) (trace w')
        = S (count_events (is_ioctl VIDIOC_QBUF) tr))
  /\ (0 <= rv o ->
      forall tbl b ws c,
        buffers dev = Some tbl ->
        array_get tbl (u32 (buf_index buf)) = Some (Some b) ->
        writes_end (buf_length buf) 0 ws = true ->
        exists w',
          read_frame args dev index
            (mk_world (d :: o :: ws ++ c :: q :: s) tr e)
            = Done (if rv q <? 0 then MEMORY_QUEUEING_FAILED else NOERROR) w'
          /\ script w' = s
          /\ last (trace w') = Some requeue
          /\ count_events (is_ioctl VIDIOC_DQBUF) (trace w')
             = S (count_events (is_ioctl VIDIOC_DQBUF) tr)
          /\ count_events (is_ioctl VIDIOC_QBUF) (trace w')
             = S (count_events (is_ioctl VIDIOC_QBUF) tr)).
Proof.
  intros Hd buf Hidx requeue. split.
  - intros Ho. unfold read_frame. run. rewrite (ltb_false _ _ Hd).
    fold buf. rewrite (ltb_true _ _ Hidx). cbn [negb]. run.
    rewrite (ltb_true _ _ Ho).
    exists (mk_world s
              (tr ++ [(SysIoctl (fd dev) VIDIOC_DQBUF
                         (ArgBuffer (mk_buffer 0 V4L2_BUF_TYPE_VIDEO_CAPTURE
                                       V4L2_MEMORY_MMAP 0 0)), d)]
                  ++ [(SysOpen (frame_path (cap_prefix args) index)
                         (Z.lor O_WRONLY O_CREAT), o)]
                  ++ [requeue])
              (if rv q <? 0 then re q else re o)).
    split; [| split; [| split; [| split]]].
    + destruct (re o =? EPERM); run; destruct (rv q <? 0);
        rewrite <- ?app_assoc; reflexivity.
    + reflexivity.
    + cbn [trace]. rewrite !app_assoc. apply last_snoc.
    + cbn [trace]. rewrite !count_events_app. cbn. lia.
    + cbn [trace]. rewrite !count_events_app. cbn. lia.
  - intros Ho tbl b ws c Htbl Hcell Hend. unfold read_frame. run.
    rewrite (ltb_false _ _ Hd). fold buf. rewrite (ltb_true _ _ Hidx).
    cbn [negb]. run. rewrite (ltb_false _ _ Ho), Htbl, Hcell.
    unfold with_fuel. cbn [script].
    edestruct (write_frame_ends ws (S (length (ws ++ c :: q :: s))))
      as (evs & e' & Hrun & Hall); [exact Hend | rewrite length_app; lia |].
    rewrite Hrun. run.
    pose proof (writes_no_queueing VIDIOC_DQBUF evs Hall) as Hdq.
    pose proof (writes_no_queueing VIDIOC_QBUF evs Hall) as Hq.
    destruct (rv q <? 0);
      (eexists; split; [reflexivity |]; split; [reflexivity |]; cbn [trace];
       split; [apply last_snoc |];
       rewrite !count_events_app, Hdq, Hq; cbn; split; lia).
Qed.

(** Buffer 1 of a session of two is dequeued with a frame of 100 bytes:
    the file cannot be created; the file takes the frame in two writes; the
    second write fails and queueing fails too. *)
Lemma read_frame_requeues_witness :
  let tbl := [Some (mk_video_buf 8192 100); Some (mk_video_buf 12288 100)] in
  let dev := set_buffers (set_fd initial_dev 3) (Some tbl) 2 in
  let filled := mk_buffer 1 V4L2_BUF_TYPE_VIDEO_CAPTURE V4L2_MEMORY_MMAP 100 0 in
  let d := ok_arg (ArgBuffer filled) in
  (exists w',
     read_frame default_args dev 0 (boot [d; fail EPERM; ok 0])
       = Done NOT_PERMITTED w'
     /\ script w' = []
     /\ last (trace w')
        = Some (SysIoctl 3 VIDIOC_QBUF (ArgBuffer filled), ok 0))
  /\ (exists w',
        read_frame default_args dev 0
          (boot (d :: ok 7 :: [ok 60; ok 40] ++ ok 0 :: ok 0 :: []))
          = Done NOERROR w'
        /\ script w' = []
        /\ last (trace w')
           = Some (SysIoctl 3 VIDIOC_QBUF (ArgBuffer filled), ok 0))
  /\ (exists w',
        read_frame default_args dev 0
          (boot (d :: ok 7 :: [ok 60; fail EIO] ++ ok 0 :: fail EIO :: []))
          = Done MEMORY_QUEUEING_FAILED w'
        /\ script w' = []
        /\ last (trace w')
           = Some (SysIoctl 3 VIDIOC_QBUF (ArgBuffer filled), fail EIO)).
Proof.
  intros tbl dev filled d.
  assert (Hd : 0 <= rv d) by (simpl; lia).
  assert (Hidx : u32 (buf_index (out_buffer d
                        (mk_buffer 0 V4L2_BUF_TYPE_VIDEO_CAPTURE
                           V4L2_MEMORY_MMAP 0 0)))
                 < u32 (buffer_count dev)) by (vm_compute; reflexivity).
  split; [| split].
  - destruct (proj1 (read_frame_requeues default_args dev 0 d (fail EPERM)
                       (ok 0) [] [] 0 Hd Hidx))
      as (w' & Hrun & Hs & Hlast & _); [simpl; lia |].
    exists w'. split; [exact Hrun |]. split; [exact Hs | exact Hlast].
  - destruct (proj2 (read_frame_requeues default_args dev 0 d (ok 7)
                       (ok 0) [] [] 0 Hd Hidx)
                ltac:(simpl; lia) tbl (mk_video_buf 12288 100)
                [ok 60; ok 40] (ok 0))
      as (w' & Hrun & Hs & Hlast & _); [reflexivity .. |].
    exists w'. split; [exact Hrun |]. split; [exact Hs | exact Hlast].
  - destruct (proj2 (read_frame_requeues default_args dev 0 d (ok 7)
                       (fail EIO) [] [] 0 Hd Hidx)
                ltac:(simpl; lia) tbl (mk_video_buf 12288 100)
                [ok 60; fail EIO] (ok 0))
      as (w' & Hrun & Hs & Hlast & _); [reflexivity .. |].
    exists w'. split; [exact Hrun |]. split; [exact Hs | exact Hlast].
Defined.

(** ** The capture loop *)

(** A frame read without error starts with a buffer dequeued without
    error. *)
Lemma read_frame_dequeued (args : app_args_t) (dev : video_dev_t) (index : Z)
    (w w' : world) :
  read_frame args dev index w = Done NOERROR w' ->
  exists a d evs,
    trace w' = trace w ++ (SysIoctl (fd dev) VIDIOC_DQBUF a, d) :: evs
    /\ 0 <= rv d.
Proof.
  destruct w as [[| d s] tr e]; unfold read_frame; unfold bind at 1;
    unfold ioctl, call at 1; cbn [script trace errno]; [discriminate |].
  destruct (Z.ltb_spec (rv d) 0) as [Hd | Hd]; [discriminate |].
  destruct (negb _); [discriminate |].
  lazymatch goal with
  | |- bind ?x ?y ?w1 = _ -> _ =>
      assert (Hrest : only not_reqbufs (bind x y)) by only_loops;
      destruct (Hrest w1) as (evs & Htr & _)
  end.
  intros Hrun. rewrite Hrun in Htr. cbn [world_of trace] in Htr.
  eexists; exists d, evs. split; [| exact Hd].
  rewrite Htr, <- app_assoc. reflexivity.
Qed.

Lemma capture_turn_timed_out
    (args : app_args_t) (dev : video_dev_t) (i result : Z) (r : reply)
    (s : list reply) (tr : list event) (e : Z) :
  timed_out r ->
  capture_turn args dev i result (mk_world (r :: s) tr e)
  = Done (Continue i result)
      (mk_world s (tr ++ [(SysSelect (fd dev + 1) 40000, r)])
         (if rv r <? 0 then re r else e)).
Proof.
  intros [[Hr He] | [Hr Hready]]; unfold capture_turn; run.
  - rewrite (ltb_true _ _ Hr), He. reflexivity.
  - rewrite (ltb_false _ _ Hr), Hready. reflexivity.
Qed.

Lemma capture_loop_turn (fuel : nat) (args : app_args_t) (dev : video_dev_t)
    (count i result : Z) :
  capture_loop (S fuel) args dev count i result
  = if i <? count then
      let* t := capture_turn args dev i result in
      match t with
      | Continue i result => capture_loop fuel args dev count i result
      | Break result => pure result
      end
    else pure result.
Proof. reflexivity. Qed.

(** C7.  In the capture loop:
    - a wait that times out ends the turn with the frame counter [i] and
      the result as they were, having made no call but [select];
    - a turn that goes on with another counter has added exactly one to it,
      and has dequeued a buffer without error;
    - any number of waits that time out in a row leaves the loop where it
      was: it runs on as it would have run without them, with the same
      counter, having dequeued nothing meanwhile. *)
Theorem capture_loop_timeouts (args : app_args_t) (dev : video_dev_t) :
  (forall i result r s tr e,
     timed_out r ->
     capture_turn args dev i result (mk_world (r :: s) tr e)
     = Done (Continue i result)
         (mk_world s (tr ++ [(SysSelect (fd dev + 1) 40000, r)])
            (if rv r <? 0 then re r else e)))
  /\ (forall i result w i' result' w',
        capture_turn args dev i result w = Done (Continue i' result') w' ->
        (i' = i /\ result' = result
         /\ exists r, trace w' = trace w ++ [(SysSelect (fd dev + 1) 40000, r)])
        \/ (i' = i + 1 /\ result' = NOERROR
            /\ exists r a d evs,
                trace w'
                = trace w ++ (SysSelect (fd dev + 1) 40000, r)
                    :: (SysIoctl (fd dev) VIDIOC_DQBUF a, d) :: evs
                /\ 0 <= rv d))
  /\ (forall ts count i result rest tr e,
        Forall timed_out ts -> i < count ->
        exists evs e',
          with_fuel (fun fuel => capture_loop fuel args dev count i result)
            (mk_world (ts ++ rest) tr e)
          = with_fuel (fun fuel => capture_loop fuel args dev count i result)
              (mk_world rest (tr ++ evs) e')
          /\ length evs = length ts
          /\ count_events (is_ioctl VIDIOC_DQBUF) evs = 0%nat).
Proof.
  split; [| split].
  - intros. apply capture_turn_timed_out. assumption.
  - intros i result [[| r s] tr e] i' result' w'; unfold capture_turn;
      unfold bind at 1; unfold call at 1; cbn [script trace errno];
      [discriminate |].
    destruct (rv r <? 0).
    + run. destruct (ETIMEDOUT =? re r); [| discriminate].
      intros [= <- <- <-]. left. repeat split. exists r. reflexivity.
    + destruct (negb (rready r)).
      * run. intros [= <- <- <-]. left. repeat split. exists r. reflexivity.
      * unfold bind.
        destruct (read_frame args dev i _) as [res w1 | |] eqn:Hread;
          [| discriminate ..].
        destruct (Z.eqb_spec NOERROR res) as [<- | Hne]; cbn [negb];
          [| discriminate].
        unfold pure. intros [= <- <- <-]. right. repeat split.
        destruct (read_frame_dequeued _ _ _ _ _ Hread) as (a & d & evs & Htr & Hd).
        exists r, a, d, evs. split; [| exact Hd].
        rewrite Htr. cbn [trace]. rewrite <- app_assoc. reflexivity.
  - induction ts as [| r ts IH]; intros count i result rest tr e Hall Hi.
    + exists [], e. rewrite app_nil_r. repeat split; reflexivity.
    + inversion Hall as [| ? ? Hr Hall']; subst.
      unfold with_fuel at 1. cbn [script app length].
      rewrite capture_loop_turn, (ltb_true _ _ Hi). unfold bind at 1.
      rewrite (capture_turn_timed_out args dev i result r _ tr e Hr).
      destruct (IH count i result rest
                  (tr ++ [(SysSelect (fd dev + 1) 40000, r)])
                  (if rv r <? 0 then re r else e) Hall' Hi)
        as (evs & e' & Hrun & Hlen & Hdq).
      unfold with_fuel at 1 in Hrun. cbn [script] in Hrun. cbv beta in Hrun.
      rewrite Hrun.
      eexists; eexists. split; [| split].
      * rewrite <- app_assoc. reflexivity.
      * cbn [length app]. rewrite Hlen. reflexivity.
      * cbn [app]. unfold count_events in *. cbn. exact Hdq.
Qed.

(** Forty waits that time out, of both kinds, before the only frame
    asked for. *)
Lemma capture_loop_timeouts_witness :
  let tbl := [Some (mk_video_buf 8192 100); Some (mk_video_buf 12288 100)] in
  let dev := set_buffers (set_fd initial_dev 3) (Some tbl) 2 in
  let waits := List.repeat (fail ETIMEDOUT) 20 ++ List.repeat timeout 20 in
  let frame :=
    [ready;
     ok_arg (ArgBuffer (mk_buffer 0 V4L2_BUF_TYPE_VIDEO_CAPTURE
                          V4L2_MEMORY_MMAP 100 0));
     ok 7; ok 100; ok 0; ok 0] in
  capture_turn default_args dev 0 NOERROR (boot (timeout :: frame))
  = Done (Continue 0 NOERROR)
      (mk_world frame [(SysSelect 4 40000, timeout)] 0)
  /\ (exists evs e',
        with_fuel (fun fuel => capture_loop fuel default_args dev 1 0 NOERROR)
          (boot (waits ++ frame))
        = with_fuel (fun fuel => capture_loop fuel default_args dev 1 0 NOERROR)
            (mk_world frame ([] ++ evs) e')
        /\ length evs = 40%nat
        /\ count_events (is_ioctl VIDIOC_DQBUF) evs = 0%nat)
  /\ value_of
       (with_fuel (fun fuel => capture_loop fuel default_args dev 1 0 NOERROR)
          (boot (waits ++ frame)))
     = Some NOERROR.
Proof.
  intros tbl dev waits frame. split; [| split].
  - apply (proj1 (capture_loop_timeouts default_args dev)).
    right. split; [simpl; lia | reflexivity].
  - apply (proj2 (proj2 (capture_loop_timeouts default_args dev))
             waits 1 0 NOERROR frame [] 0).
    + apply Forall_app. split; apply List.Forall_forall; intros r Hr;
        apply repeat_spec in Hr; subst r.
      * left. split; [simpl; lia | reflexivity].
      * right. split; [simpl; lia | reflexivity].
    + lia.
  - vm_compute. reflexivity.
Defined.

(** ** The bound on the turns of a loop is never reached

    The loops that [with_fuel] bounds are given one turn more than the
    script has replies.  As each turn takes a reply, a run stops short only
    when the script is empty. *)

Section Exhausts.
Context {A B : Type}.

Lemma exhausts_pure (a : A) : exhausts (pure a).
Proof. intros w. exact I. Qed.

Lemma exhausts_crash : exhausts (@crash A).
Proof. intros w. exact I. Qed.

Lemma exhausts_get_errno : exhausts get_errno.
Proof. intros w. exact I. Qed.

Lemma exhausts_bind (m : M A) (k : A -> M B) :
  exhausts m -> (forall a, exhausts (k a)) -> exhausts (bind m k).
Proof.
  intros Hm Hk w. unfold bind. specialize (Hm w).
  destruct (m w) as [a w1 | w1 | w1]; [apply Hk | exact Hm | exact I].
Qed.
End Exhausts.

Lemma exhausts_call (c : syscall) : exhausts (call c).
Proof.
  intros w. unfold call. destruct (script w) eqn:Hs; [exact Hs | exact I].
Qed.

Lemma exhausts_emit (c : syscall) : exhausts (emit c).
Proof. intros w. exact I. Qed.

(** A call leaves a script that is shorter by one. *)
Lemma call_consumes (c : syscall) (w : world) (r : reply) (w' : world) :
  call c w = Done r w' -> S (length (script w')) = length (script w).
Proof.
  unfold call. destruct (script w) as [| r' s]; [discriminate |].
  intros [= <- <-]. reflexivity.
Qed.

Lemma enum_formats_exhausts (dev : video_dev_t) :
  forall fuel i w,
    (length (script w) < fuel)%nat ->
    match enum_formats fuel dev i w with
    | Starved w' => script w' = []
    | _ => True
    end.
Proof.
  induction fuel as [| fuel IH]; intros i w Hfuel; [lia |].
  cbn [enum_formats]. unfold bind at 1, ioctl.
  pose proof (exhausts_call (SysIoctl (fd dev) VIDIOC_ENUM_FMT
                (ArgFmtdesc (mk_fmtdesc i V4L2_BUF_TYPE_VIDEO_CAPTURE 0 0))) w)
    as Hcall.
  destruct (call _ w) as [r w1 | w1 | w1] eqn:Hc; [| exact Hcall | exact I].
  apply call_consumes in Hc.
  destruct (rv r <? 0).
  - unfold bind, get_errno, pure. destruct (_ =? EINVAL); exact I.
  - apply IH. lia.
Qed.

Lemma close_retry_exhausts (fd : Z) :
  forall fuel w,
    (length (script w) < fuel)%nat ->
    match close_retry fuel fd w with
    | Starved w' => script w' = []
    | _ => True
    end.
Proof.
  induction fuel as [| fuel IH]; intros w Hfuel; [lia |].
  cbn [close_retry]. unfold bind at 1.
  pose proof (exhausts_call (SysClose fd) w) as Hcall.
  destruct (call _ w) as [r w1 | w1 | w1] eqn:Hc; [| exact Hcall | exact I].
  apply call_consumes in Hc.
  destruct (rv r <? 0); [apply IH; lia | exact I].
Qed.

Lemma write_frame_exhausts :
  forall fuel fd ptr size len wrote w,
    (length (script w) < fuel)%nat ->
    match write_frame fuel fd ptr size len wrote w with
    | Starved w' => script w' = []
    | _ => True
    end.
Proof.
  induction fuel as [| fuel IH]; intros fd ptr size len wrote w Hfuel; [lia |].
  cbn [write_frame]. destruct (u32 wrote <? u32 len); [| exact I].
  unfold bind at 1.
  pose proof (exhausts_call (SysWrite fd (ptr + wrote) (u32 (size - wrote))) w)
    as Hcall.
  destruct (call _ w) as [r w1 | w1 | w1] eqn:Hc; [| exact Hcall | exact I].
  apply call_consumes in Hc. cbv zeta.
  destruct (s32 (rv r) <? 0); [exact I | apply IH; lia].
Qed.

Lemma exhausts_unmap_buffers (tbl : cells) :
  forall n i, exhausts (unmap_buffers n tbl i).
Proof.
  induction n as [| n IH]; intros i; cbn [unmap_buffers].
  - apply exhausts_pure.
  - destruct (array_get tbl i) as [[b |] |]; [| apply exhausts_crash ..].
    destruct (addr b =? MAP_FAILED); [apply exhausts_pure |].
    apply exhausts_bind; [apply exhausts_call | intros _; apply IH].
Qed.

Lemma exhausts_release_buffers :
  forall n tbl i, exhausts (release_buffers n tbl i).
Proof.
  induction n as [| n IH]; intros tbl i; cbn [release_buffers].
  - apply exhausts_pure.
  - destruct (array_get tbl i) as [[b |] |]; [| apply exhausts_crash ..].
    destruct (addr b =? MAP_FAILED); [apply exhausts_pure |].
    apply exhausts_bind; [apply exhausts_call | intros _; apply IH].
Qed.

Ltac exhausts_step :=
  lazymatch goal with
  | |- exhausts (bind _ _) => apply exhausts_bind; [| intros ?]
  | |- exhausts (pure _) => apply exhausts_pure
  | |- exhausts crash => apply exhausts_crash
  | |- exhausts get_errno => apply exhausts_get_errno
  | |- exhausts (call _) => apply exhausts_call
  | |- exhausts (ioctl _ _ _) => apply exhausts_call
  | |- exhausts (emit _) => apply exhausts_emit
  | |- exhausts (unmap_buffers _ _ _) => apply exhausts_unmap_buffers
  | |- exhausts (release_buffers _ _ _) => apply exhausts_release_buffers
  | |- exhausts (with_fuel (fun fuel => enum_formats fuel _ _)) =>
      intros ?; apply enum_formats_exhausts; lia
  | |- exhausts (with_fuel (fun fuel => close_retry fuel _)) =>
      intros ?; apply close_retry_exhausts; lia
  | |- exhausts (with_fuel (fun fuel => write_frame fuel _ _ _ _ _)) =>
      intros ?; apply write_frame_exhausts; lia
  | |- exhausts (if ?b then _ else _) => destruct b
  | |- exhausts (match ?x with _ => _ end) => destruct x
  | |- exhausts (let _ := _ in _) => cbv zeta
  end.

Lemma exhausts_query_buffers (dev : video_dev_t) :
  forall n tbl i, exhausts (query_buffers n dev tbl i).
Proof.
  induction n as [| n IH]; intros tbl i; cbn [query_buffers].
  - apply exhausts_pure.
  - apply exhausts_bind; [apply exhausts_call | intros r].
    destruct (rv r <? 0); [repeat exhausts_step |].
    apply exhausts_bind; [apply exhausts_call | intros m].
    destruct (rv m =? MAP_FAILED); [apply exhausts_pure | apply IH].
Qed.

Lemma exhausts_queue_retry (dev : video_dev_t) :
  forall n i retry, exhausts (queue_retry n dev i retry).
Proof.
  induction n as [| n IH]; intros i retry; cbn [queue_retry].
  - apply exhausts_pure.
  - apply exhausts_bind; [apply exhausts_call | intros r].
    destruct (rv r =? 0); [apply exhausts_pure |].
    apply exhausts_bind; [apply exhausts_get_errno | intros e].
    apply exhausts_bind; [repeat exhausts_step | intros result].
    destruct (negb (result =? NOERROR)); [apply exhausts_pure | apply IH].
Qed.

Lemma exhausts_queue_buffers (dev : video_dev_t) :
  forall n i, exhausts (queue_buffers n dev i).
Proof.
  induction n as [| n IH]; intros i; cbn [queue_buffers].
  - apply exhausts_pure.
  - apply exhausts_bind; [apply exhausts_queue_retry | intros [result retry]].
    destruct (negb (_ =? NOERROR)); [apply exhausts_pure | apply IH].
Qed.

Lemma exhausts_read_frame (args : app_args_t) (dev : video_dev_t) (index : Z) :
  exhausts (read_frame args dev index).
Proof. unfold read_frame. repeat exhausts_step. Qed.

Lemma exhausts_capture_turn (args : app_args_t) (dev : video_dev_t)
    (i result : Z) :
  exhausts (capture_turn args dev i result).
Proof.
  unfold capture_turn.
  apply exhausts_bind; [apply exhausts_call | intros s].
  destruct (rv s <? 0); [repeat exhausts_step |].
  destruct (negb (rready s)); [repeat exhausts_step |].
  apply exhausts_bind; [apply exhausts_read_frame | intros r].
  repeat exhausts_step.
Qed.

(** A turn of the capture loop that comes to its end has taken at least
    the reply to [select]. *)
Lemma capture_turn_consumes (args : app_args_t) (dev : video_dev_t)
    (i result : Z) (w : world) (t : turn) (w' : world) :
  capture_turn args dev i result w = Done t w' ->
  (length (script w') < length (script w))%nat.
Proof.
  intros Hrun.
  assert (Hsplit : exists r w1,
            call (SysSelect (fd dev + 1) 40000) w = Done r w1
            /\ (length (script w') <= length (script w1))%nat).
  { revert Hrun. unfold capture_turn. unfold bind at 1.
    destruct (call _ w) as [r w1 | |]; [| discriminate ..].
    intros Hrun. exists r, w1. split; [reflexivity |].
    lazymatch type of Hrun with
    | ?m w1 = _ =>
        assert (Hrest : only not_reqbufs m)
    end.
    { destruct (rv r <? 0); [only_loops |].
      destruct (negb (rready r)); [only_loops |].
      apply only_bind; [apply only_read_frame | intros]. only_loops. }
    destruct (Hrest w1) as (evs & _ & _ & Hlen).
    rewrite Hrun in Hlen. exact Hlen. }
  destruct Hsplit as (r & w1 & Hc & Hlen).
  apply call_consumes in Hc. lia.
Qed.

Lemma capture_loop_exhausts (args : app_args_t) (dev : video_dev_t) (count : Z) :
  forall fuel i result w,
    (length (script w) < fuel)%nat ->
    match capture_loop fuel args dev count i result w with
    | Starved w' => script w' = []
    | _ => True
    end.
Proof.
  induction fuel as [| fuel IH]; intros i result w Hfuel; [lia |].
  rewrite capture_loop_turn. destruct (i <? count); [| exact I].
  unfold bind.
  pose proof (exhausts_capture_turn args dev i result w) as Hturn.
  destruct (capture_turn args dev i result w) as [t w1 | w1 | w1] eqn:Ht;
    [| exact Hturn | exact I].
  apply capture_turn_consumes in Ht.
  destruct t as [i' result' | result']; [apply IH; lia | exact I].
Qed.

Lemma exhausts_main (opts : list (ascii * string)) : exhausts (main opts).
Proof.
  unfold main. destruct (parse_args opts default_args) as [failed args].
  destruct (negb (failed =? 0)); [apply exhausts_pure |].
  apply exhausts_bind.
  { unfold open_video_device. repeat exhausts_step. }
  intros [code dev]. destruct (negb (NOERROR =? code)); [apply exhausts_pure |].
  apply exhausts_bind.
  { unfold init_video_device, init_buffer. repeat exhausts_step.
    all: try apply exhausts_query_buffers. all: repeat exhausts_step. }
  intros [code' dev']. apply exhausts_bind.
  { destruct (NOERROR =? code'); [| apply exhausts_pure].
    unfold do_capture, start_capture, stop_capture.
    apply exhausts_bind.
    - apply exhausts_bind; [apply exhausts_queue_buffers | intros].
      repeat exhausts_step.
    - intros result. destruct (negb (NOERROR =? result)); [apply exhausts_pure |].
      apply exhausts_bind; [| intros; repeat exhausts_step].
      intros w. apply capture_loop_exhausts. lia. }
  intros code''. unfold close_video_device. repeat exhausts_step.
Qed.

(** * Further properties *)

(** ** Opening the device: the ways it fails *)

Lemma close_video_device_negative (dev : video_dev_t) (w : world) :
  fd dev < 0 -> close_video_device dev w = Done tt w.
Proof.
  intros Hfd. unfold close_video_device.
  destruct (Z.gtb_spec 0 (fd dev)); [reflexivity | lia].
Qed.

(** X1.  When the device cannot be opened, [open_video_device] makes no
    other call: it returns [VIDEO_DEVICE_BUSY] for EBUSY, [NOT_PERMITTED]
    for EPERM and [VIDEO_DEVICE_OPEN_FAILED] for any other error, and leaves
    a session on which [close_video_device] does nothing. *)
Theorem open_video_device_open_failed
    (args : app_args_t) (dev : video_dev_t) (o : reply)
    (s : list reply) (tr : list event) (e : Z) :
  rv o < 0 ->
  open_video_device args dev (mk_world (o :: s) tr e)
  = Done (if re o =? EBUSY then VIDEO_DEVICE_BUSY
          else if re o =? EPERM then NOT_PERMITTED
               else VIDEO_DEVICE_OPEN_FAILED,
          set_fd dev (rv o))
      (mk_world s (tr ++ [(SysOpen (device args) O_RDONLY, o)]) (re o))
  /\ forall w, close_video_device (set_fd dev (rv o)) w = Done tt w.
Proof.
  intros Ho. split.
  - unfold open_video_device. run. cbn [fd set_fd].
    rewrite (ltb_true _ _ Ho).
    destruct (re o =? EBUSY); [reflexivity |].
    destruct (re o =? EPERM); reflexivity.
  - intros w. apply close_video_device_negative. exact Ho.
Qed.

Lemma open_video_device_open_failed_witness :
  open_video_device default_args initial_dev (boot [fail EPERM; ok 0])
  = Done (NOT_PERMITTED, set_fd initial_dev (-1))
      (mk_world [ok 0] [(SysOpen "/dev/video0" O_RDONLY, fail EPERM)] EPERM)
  /\ open_video_device default_args initial_dev (boot [fail EIO])
     = Done (VIDEO_DEVICE_OPEN_FAILED, set_fd initial_dev (-1))
         (mk_world [] [(SysOpen "/dev/video0" O_RDONLY, fail EIO)] EIO).
Proof.
  split.
  - apply (proj1 (open_video_device_open_failed default_args initial_dev
                    (fail EPERM) [ok 0] [] 0 ltac:(simpl; lia))).
  - apply (proj1 (open_video_device_open_failed default_args initial_dev
                    (fail EIO) [] [] 0 ltac:(simpl; lia))).
Defined.

(** X2.  When the device opens but the capability query fails, or
    succeeds without the capture capability, [open_video_device] closes the
    descriptor with one call, whatever that call returns, and marks the
    session closed: the descriptor of the session is -1 and a later
    [close_video_device] does nothing, so the descriptor is released once. *)
Theorem open_video_device_unusable_device
    (args : app_args_t) (dev : video_dev_t) (o q c : reply)
    (s : list reply) (tr : list event) (e : Z) :
  0 <= rv o ->
  rv q < 0
  \/ Z.land (capabilities (out_capability q (caps dev))) V4L2_CAP_VIDEO_CAPTURE = 0 ->
  exists dev' w',
    open_video_device args dev (mk_world (o :: q :: c :: s) tr e)
      = Done (if rv q <? 0 then VIDEO_DEVICE_NOCAPS
              else VIDEO_DEVICE_CAPTURE_NOT_SUPPORTED, dev') w'
    /\ fd dev' = -1
    /\ script w' = s
    /\ trace w'
       = tr ++ [(SysOpen (device args) O_RDONLY, o);
                (SysIoctl (rv o) VIDIOC_QUERYCAP (ArgCapability (caps dev)), q);
                (SysClose (rv o), c)]
    /\ forall w, close_video_device dev' w = Done tt w.
Proof.
  intros Ho Hq. unfold open_video_device. run. cbn [fd set_fd set_caps caps].
  rewrite (ltb_false _ _ Ho). run.
  destruct (Z.ltb_spec (rv q) 0) as [Hlt | Hge].
  - run. eexists; eexists. split; [reflexivity |]. cbn [fd script trace].
    split; [reflexivity |]. split; [reflexivity |].
    split; [rewrite <- !app_assoc; reflexivity |].
    intros w. apply close_video_device_negative. cbn. lia.
  - destruct Hq as [Hq | Hq]; [lia |]. rewrite Hq. run.
    eexists; eexists. split; [reflexivity |]. cbn [fd script trace].
    split; [reflexivity |]. split; [reflexivity |].
    split; [rewrite <- !app_assoc; reflexivity |].
    intros w. apply close_video_device_negative. cbn. lia.
Qed.

Lemma open_video_device_unusable_device_witness :
  exists dev' w',
    open_video_device default_args initial_dev
      (boot [ok 3; ok_arg (ArgCapability (mk_capability 0 2)); fail EIO])
      = Done (VIDEO_DEVICE_CAPTURE_NOT_SUPPORTED, dev') w'
    /\ fd dev' = -1
    /\ script w' = []
    /\ trace w'
       = [] ++ [(SysOpen "/dev/video0" O_RDONLY, ok 3);
                (SysIoctl 3 VIDIOC_QUERYCAP (ArgCapability zero_capability),
                 ok_arg (ArgCapability (mk_capability 0 2)));
                (SysClose 3, fail EIO)]
    /\ forall w, close_video_device dev' w = Done tt w.
Proof.
  apply (open_video_device_unusable_device default_args initial_dev
           (ok 3) (ok_arg (ArgCapability (mk_capability 0 2))) (fail EIO)
           [] [] 0).
  - simpl; lia.
  - right. reflexivity.
Defined.

(** ** Enumerating the pixel formats *)

Lemma enum_events_cons (fd i : Z) (r : reply) (rs : list reply) :
  enum_events fd i (r :: rs)
  = (SysIoctl fd VIDIOC_ENUM_FMT
       (ArgFmtdesc (mk_fmtdesc i V4L2_BUF_TYPE_VIDEO_CAPTURE 0 0)), r)
      :: enum_events fd (i + 1) rs.
Proof.
  unfold enum_events. rewrite imap_cons. cbn [Z.of_nat]. rewrite Z.add_0_r.
  f_equal. apply imap_ext. intros j x _. unfold compose.
  replace (i + Z.of_nat (S j)) with (i + 1 + Z.of_nat j) by lia.
  reflexivity.
Qed.

Lemma enum_formats_run (oks : list reply) :
  forall (fuel : nat) (dev : video_dev_t) (i : Z) (f : reply)
         (s : list reply) (tr : list event) (e : Z),
    Forall (fun r => 0 <= rv r) oks ->
    rv f < 0 ->
    (length oks < fuel)%nat ->
    0 <= i -> i + Z.of_nat (length oks) < 2 ^ 32 ->
    enum_formats fuel dev i (mk_world (oks ++ f :: s) tr e)
    = Done (if re f =? EINVAL then NOERROR else VIDEO_DEVICE_ENUM_FORMAT_FAILED)
        (mk_world s (tr ++ enum_events (fd dev) i (oks ++ [f])) (re f)).
Proof.
  induction oks as [| r oks IH]; intros fuel dev i f s tr e Hall Hf Hfuel Hi Hmax;
    (destruct fuel as [| fuel]; [cbn in Hfuel; lia |]);
    cbn [app enum_formats]; rewrite enum_events_cons; run.
  - rewrite (ltb_true _ _ Hf). destruct (re f =? EINVAL); reflexivity.
  - inversion Hall as [| ? ? Hr Hall']; subst.
    rewrite (ltb_false _ _ Hr). cbn [length] in Hfuel, Hmax.
    replace (u32 (i + 1)) with (i + 1)
      by (unfold u32; rewrite Z.mod_small; lia).
    rewrite (IH fuel dev (i + 1) f s _ _ Hall' Hf) by lia.
    rewrite <- app_assoc. reflexivity.
Qed.

(** X3.  On a capture device whose cropping capabilities can be read,
    [open_video_device] asks for the pixel formats at the indices 0, 1, 2
    and so on, in this order, as long as the answers are not errors.  The
    first error ends the enumeration: EINVAL ends it normally with
    [NOERROR], any other error with [VIDEO_DEVICE_ENUM_FORMAT_FAILED].  In
    both cases the session keeps the descriptor that was opened, and
    nothing has been closed. *)
Theorem open_video_device_enumerates
    (args : app_args_t) (dev : video_dev_t) (o q c f : reply)
    (oks s : list reply) (tr : list event) (e : Z) :
  0 <= rv o -> 0 <= rv q ->
  Z.land (capabilities (out_capability q (caps dev))) V4L2_CAP_VIDEO_CAPTURE <> 0 ->
  0 <= rv c ->
  Forall (fun r => 0 <= rv r) oks ->
  Z.of_nat (length oks) < 2 ^ 32 ->
  rv f < 0 ->
  exists dev',
    open_video_device args dev (mk_world (o :: q :: c :: oks ++ f :: s) tr e)
    = Done (if re f =? EINVAL then NOERROR else VIDEO_DEVICE_ENUM_FORMAT_FAILED,
            dev')
        (mk_world s
           (tr ++ [(SysOpen (device args) O_RDONLY, o);
                   (SysIoctl (rv o) VIDIOC_QUERYCAP (ArgCapability (caps dev)), q);
                   (SysIoctl (rv o) VIDIOC_CROPCAP
                      (ArgCropcap (mk_cropcap V4L2_BUF_TYPE_VIDEO_CAPTURE
                                     zero_rect zero_rect)), c)]
               ++ enum_events (rv o) 0 (oks ++ [f]))
           (re f))
    /\ fd dev' = rv o
    /\ cropcaps dev'
       = out_cropcap c (mk_cropcap V4L2_BUF_TYPE_VIDEO_CAPTURE zero_rect zero_rect).
Proof.
  intros Ho Hq Hcap Hc Hall Hlen Hf.
  unfold open_video_device. run. cbn [fd set_fd set_caps caps].
  rewrite (ltb_false _ _ Ho). run.
  rewrite (ltb_false _ _ Hq), (eqb_false _ _ Hcap). run.
  rewrite (ltb_false _ _ Hc). unfold with_fuel. cbn [script].
  rewrite (enum_formats_run oks) by (try assumption; rewrite ?length_app; cbn; lia).
  eexists. split.
  { cbn [fd set_cropcaps set_caps set_fd]. rewrite <- !app_assoc. reflexivity. }
  split; reflexivity.
Qed.

Lemma open_video_device_enumerates_witness :
  exists dev',
    open_video_device default_args initial_dev
      (boot (ok 3 :: ok_arg (ArgCapability (mk_capability 0 1)) :: ok 0
               :: [ok_arg (ArgFmtdesc (mk_fmtdesc 0 1 0 V4L2_PIX_FMT_YUYV));
                   ok_arg (ArgFmtdesc (mk_fmtdesc 1 1 0 V4L2_PIX_FMT_RGB565))]
               ++ fail EINVAL :: []))
    = Done (NOERROR, dev')
        (mk_world []
           ([] ++ [(SysOpen "/dev/video0" O_RDONLY, ok 3);
                   (SysIoctl 3 VIDIOC_QUERYCAP (ArgCapability zero_capability),
                    ok_arg (ArgCapability (mk_capability 0 1)));
                   (SysIoctl 3 VIDIOC_CROPCAP
                      (ArgCropcap (mk_cropcap V4L2_BUF_TYPE_VIDEO_CAPTURE
                                     zero_rect zero_rect)), ok 0)]
               ++ enum_events 3 0
                    ([ok_arg (ArgFmtdesc (mk_fmtdesc 0 1 0 V4L2_PIX_FMT_YUYV));
                      ok_arg (ArgFmtdesc (mk_fmtdesc 1 1 0 V4L2_PIX_FMT_RGB565))]
                       ++ [fail EINVAL]))
           EINVAL)
    /\ fd dev' = 3
    /\ cropcaps dev'
       = mk_cropcap V4L2_BUF_TYPE_VIDEO_CAPTURE zero_rect zero_rect.
Proof.
  apply (open_video_device_enumerates default_args initial_dev
           (ok 3) (ok_arg (ArgCapability (mk_capability 0 1))) (ok 0)
           (fail EINVAL)
           [ok_arg (ArgFmtdesc (mk_fmtdesc 0 1 0 V4L2_PIX_FMT_YUYV));
            ok_arg (ArgFmtdesc (mk_fmtdesc 1 1 0 V4L2_PIX_FMT_RGB565))]
           [] [] 0); simpl; try lia; try discriminate.
  repeat constructor; simpl; lia.
Defined.

(** ** What [main] does when the device cannot be set up *)

(** X4.  When [open_video_device] fails after the capability check, that
    is on the cropping-capabilities query or on an enumeration that ends
    with an error other than EINVAL, [main] returns the error at once: the
    descriptor it opened is never closed, neither by [open_video_device],
    which closes it only on the two earlier failures, nor by
    [close_video_device], which [main] does not reach. *)
Theorem main_returns_without_closing
    (opts : list (ascii * string)) (args : app_args_t) (o q c : reply)
    (s : list reply) :
  parse_args opts default_args = (0, args) ->
  0 <= rv o -> 0 <= rv q ->
  Z.land (capabilities (out_capability q zero_capability)) V4L2_CAP_VIDEO_CAPTURE
    <> 0 ->
  (rv c < 0 ->
   exists w',
     main opts (boot (o :: q :: c :: s)) = Done VIDEO_DEVICE_NOCROPCAPS w'
     /\ script w' = s
     /\ count_events is_close (trace w') = 0%nat)
  /\ (0 <= rv c ->
      forall oks f s',
        s = oks ++ f :: s' ->
        Forall (fun r => 0 <= rv r) oks ->
        Z.of_nat (length oks) < 2 ^ 32 ->
        rv f < 0 -> re f <> EINVAL ->
        exists w',
          main opts (boot (o :: q :: c :: s))
            = Done VIDEO_DEVICE_ENUM_FORMAT_FAILED w'
          /\ script w' = s'
          /\ count_events is_close (trace w') = 0%nat).
Proof.
  intros Hparse Ho Hq Hcap. split.
  - intros Hc. unfold main. rewrite Hparse. cbn [Z.eqb negb]. unfold bind, boot.
    rewrite (open_video_device_cropcap_failed args initial_dev o q c s [] 0
               Ho Hq Hcap Hc).
    cbn [negb Z.eqb NOERROR VIDEO_DEVICE_NOCROPCAPS]. unfold pure.
    eexists. split; [reflexivity |]. split; reflexivity.
  - intros Hc oks f s' -> Hall Hlen Hf He.
    unfold main. rewrite Hparse. cbn [Z.eqb negb]. unfold bind at 1. unfold boot.
    unfold open_video_device. run. cbn [fd set_fd set_caps caps initial_dev].
    rewrite (ltb_false _ _ Ho). run.
    rewrite (ltb_false _ _ Hq), (eqb_false _ _ Hcap). run.
    rewrite (ltb_false _ _ Hc). unfold with_fuel. cbn [script].
    rewrite (enum_formats_run oks) by (try assumption; rewrite ?length_app; cbn; lia).
    rewrite (eqb_false _ _ He).
    cbn [negb Z.eqb NOERROR VIDEO_DEVICE_ENUM_FORMAT_FAILED].
    eexists. split; [reflexivity |]. split; [reflexivity |].
    cbn [trace]. rewrite !count_events_app.
    assert (Henum : forall rs i,
               count_events is_close (enum_events (rv o) i rs) = 0%nat).
    { induction rs as [| r rs IH]; intros i; [reflexivity |].
      rewrite enum_events_cons. unfold count_events in *. cbn. apply IH. }
    rewrite Henum. reflexivity.
Qed.

Lemma main_returns_without_closing_witness :
  (exists w',
     main [] (boot [ok 3; ok_arg (ArgCapability (mk_capability 0 1)); fail EINVAL])
       = Done VIDEO_DEVICE_NOCROPCAPS w'
     /\ script w' = []
     /\ count_events is_close (trace w') = 0%nat)
  /\ (exists w',
        main [] (boot (ok 3 :: ok_arg (ArgCapability (mk_capability 0 1))
                         :: ok 0 :: [ok 0] ++ fail EIO :: []))
          = Done VIDEO_DEVICE_ENUM_FORMAT_FAILED w'
        /\ script w' = []
        /\ count_events is_close (trace w') = 0%nat).
Proof.
  split.
  - apply (proj1 (main_returns_without_closing [] default_args (ok 3)
                    (ok_arg (ArgCapability (mk_capability 0 1))) (fail EINVAL) []
                    eq_refl ltac:(simpl; lia) ltac:(simpl; lia)
                    ltac:(simpl; discriminate))).
    simpl; lia.
  - apply (proj2 (main_returns_without_closing [] default_args (ok 3)
                    (ok_arg (ArgCapability (mk_capability 0 1))) (ok 0)
                    ([ok 0] ++ fail EIO :: [])
                    eq_refl ltac:(simpl; lia) ltac:(simpl; lia)
                    ltac:(simpl; discriminate))
             ltac:(simpl; lia) [ok 0] (fail EIO) []).
    + reflexivity.
    + repeat constructor; simpl; lia.
    + simpl; lia.
    + simpl; lia.
    + discriminate.
Defined.

(** ** Requests the device refuses during setup *)

(** X5.  [init_video_device] stops at the first request that is refused.
    A crop request that fails with an error other than EINVAL gives
    [VIDEO_DEVICE_CROPPING_FAILED] and is the only call made; the pixel
    format index is not even looked at.  A format request that fails with
    EBUSY gives [VIDEO_DEVICE_BUSY], with EINVAL
    [INVALID_FORMAT_ARGUMENTS], and is the second and last call: the
    current format is not queried and no buffer is requested. *)
Theorem init_video_device_refused
    (args : app_args_t) (dev : video_dev_t) (c : reply)
    (s : list reply) (tr : list event) (e : Z) :
  let cropped :=
    mk_crop V4L2_BUF_TYPE_VIDEO_CAPTURE (cropcap_defrect (cropcaps dev)) in
  let crop_event := (SysIoctl (fd dev) VIDIOC_S_CROP (ArgCrop cropped), c) in
  (rv c < 0 -> re c <> EINVAL ->
   init_video_device args dev (mk_world (c :: s) tr e)
   = Done (VIDEO_DEVICE_CROPPING_FAILED, set_crop dev (out_crop c cropped))
       (mk_world s (tr ++ [crop_event]) (re c)))
  /\ ((rv c < 0 -> re c = EINVAL) ->
      forall code f s',
        to_v4l2_pixel_format (pixel_format args) = Some code ->
        s = f :: s' ->
        rv f < 0 -> re f = EBUSY \/ re f = EINVAL ->
        init_video_device args dev (mk_world (c :: s) tr e)
        = Done (if re f =? EBUSY then VIDEO_DEVICE_BUSY
                else INVALID_FORMAT_ARGUMENTS,
                set_format (set_crop dev (out_crop c cropped))
                  (out_format f (format_request args code)))
            (mk_world s'
               (tr ++ [crop_event;
                       (SysIoctl (fd dev) VIDIOC_S_FMT
                          (ArgFormat (format_request args code)), f)])
               (re f))).
Proof.
  intros cropped crop_event. split.
  - intros Hc He. unfold init_video_device. run. fold cropped.
    rewrite (ltb_true _ _ Hc), (eqb_false _ _ He). reflexivity.
  - intros Hc code f s' Hcode -> Hf He. unfold init_video_device. run.
    fold cropped.
    assert (Hok : (if rv c <? 0
                   then negb ((if rv c <? 0 then re c else e) =? EINVAL)
                   else false) = false).
    { destruct (Z.ltb_spec (rv c) 0) as [Hlt |]; [| reflexivity].
      rewrite (Hc Hlt). reflexivity. }
    destruct (rv c <? 0) eqn:Hlt.
    + rewrite Hok. rewrite Hcode. run. fold (format_request args code).
      cbn [fd set_crop]. rewrite (ltb_true _ _ Hf).
      destruct He as [He | He]; rewrite He; cbn [Z.eqb EBUSY EINVAL Pos.eqb];
        rewrite <- app_assoc; reflexivity.
    + rewrite Hcode. run. fold (format_request args code).
      cbn [fd set_crop]. rewrite (ltb_true _ _ Hf).
      destruct He as [He | He]; rewrite He; cbn [Z.eqb EBUSY EINVAL Pos.eqb];
        rewrite <- app_assoc; reflexivity.
Qed.

Lemma init_video_device_refused_witness :
  let dev := set_fd initial_dev 3 in
  let cropped := mk_crop V4L2_BUF_TYPE_VIDEO_CAPTURE zero_rect in
  init_video_device default_args dev (boot [fail EIO; ok 0])
  = Done (VIDEO_DEVICE_CROPPING_FAILED, set_crop dev cropped)
      (mk_world [ok 0] ([] ++ [(SysIoctl 3 VIDIOC_S_CROP (ArgCrop cropped), fail EIO)])
         EIO)
  /\ init_video_device default_args dev (boot [fail EINVAL; fail EBUSY])
     = Done (VIDEO_DEVICE_BUSY,
             set_format (set_crop dev cropped)
               (format_request default_args V4L2_PIX_FMT_YUYV))
         (mk_world []
            ([] ++ [(SysIoctl 3 VIDIOC_S_CROP (ArgCrop cropped), fail EINVAL);
                    (SysIoctl 3 VIDIOC_S_FMT
                       (ArgFormat (format_request default_args V4L2_PIX_FMT_YUYV)),
                     fail EBUSY)])
            EBUSY).
Proof.
  intros dev cropped. split.
  - apply (proj1 (init_video_device_refused default_args dev (fail EIO)
                    [ok 0] [] 0)); [simpl; lia | discriminate].
  - apply (proj2 (init_video_device_refused default_args dev (fail EINVAL)
                    [fail EBUSY] [] 0) ltac:(reflexivity)
             V4L2_PIX_FMT_YUYV (fail EBUSY) []);
      [reflexivity | reflexivity | simpl; lia | left; reflexivity].
Defined.

(** X6.  [init_buffer] starts by clearing the pool of the session and
    asks for two buffers.  A request refused with EBUSY gives
    [VIDEO_DEVICE_BUSY], refused with EINVAL [IO_METHOD_NOT_SUPPORTED], and
    nothing else is called.  A request that fails with any other error is
    not taken as a failure: the count left in the request is used as if it
    had been granted.  When the table for the granted buffers cannot be
    allocated the result is [INSUFFICIENT_MEMORY], before any buffer is
    queried.  In all these cases the session is left without a pool. *)
Theorem init_buffer_refused
    (dev : video_dev_t) (g : reply) (s : list reply) (tr : list event) (e : Z) :
  let request :=
    (SysIoctl (fd dev) VIDIOC_REQBUFS (ArgReq buffer_request), g) in
  (rv g < 0 -> re g = EBUSY \/ re g = EINVAL ->
   init_buffer dev (mk_world (g :: s) tr e)
   = Done (if re g =? EBUSY then VIDEO_DEVICE_BUSY else IO_METHOD_NOT_SUPPORTED,
           set_buffers dev None 0)
       (mk_world s (tr ++ [request]) (re g)))
  /\ ((rv g < 0 -> re g <> EBUSY /\ re g <> EINVAL) ->
      2 <= granted g ->
      forall p s', s = p :: s' -> rv p = NULL ->
        init_buffer dev (mk_world (g :: s) tr e)
        = Done (INSUFFICIENT_MEMORY, set_buffers dev None 0)
            (mk_world s' (tr ++ [request; (LibMalloc (granted g), p)])
               (if rv g <? 0 then re g else e))).
Proof.
  intros request. split.
  - intros Hg He. unfold init_buffer. run. rewrite (ltb_true _ _ Hg).
    fold buffer_request. cbn [fd set_buffers].
    destruct He as [He | He]; rewrite He; reflexivity.
  - intros Hg Hcount p s' -> Hp. unfold init_buffer. run.
    fold buffer_request. fold (granted g). cbn [fd set_buffers].
    destruct (Z.ltb_spec (rv g) 0) as [Hlt | Hge].
    + destruct (Hg Hlt) as [Hb Hi].
      rewrite (eqb_false _ _ Hb), (eqb_false _ _ Hi).
      rewrite (ltb_false _ _ Hcount). run. rewrite Hp. cbn [Z.eqb NULL Z.ltb Z.compare].
      rewrite <- app_assoc. reflexivity.
    + rewrite (ltb_false _ _ Hcount). run. rewrite Hp. cbn [Z.eqb NULL Z.ltb Z.compare].
      rewrite <- app_assoc. reflexivity.
Qed.

Lemma init_buffer_refused_witness :
  let dev := set_fd initial_dev 3 in
  init_buffer dev (boot [fail EINVAL])
  = Done (IO_METHOD_NOT_SUPPORTED, set_buffers dev None 0)
      (mk_world []
         ([] ++ [(SysIoctl 3 VIDIOC_REQBUFS (ArgReq buffer_request), fail EINVAL)])
         EINVAL)
  /\ init_buffer dev (boot [fail EIO; ok 0])
     = Done (INSUFFICIENT_MEMORY, set_buffers dev None 0)
         (mk_world []
            ([] ++ [(SysIoctl 3 VIDIOC_REQBUFS (ArgReq buffer_request), fail EIO);
                    (LibMalloc 2, ok 0)])
            EIO).
Proof.
  intros dev. split.
  - apply (proj1 (init_buffer_refused dev (fail EINVAL) [] [] 0));
      [simpl; lia | right; reflexivity].
  - apply (proj2 (init_buffer_refused dev (fail EIO) [ok 0] [] 0)
             ltac:(intros _; split; discriminate)
             ltac:(vm_compute; discriminate) (ok 0) []); reflexivity.
Defined.

(** ** The pool of buffers: what is mapped and what is unmapped *)

Lemma insert_after {A} (pre : list A) (x y : A) (rest : list A) (i : Z) :
  0 <= i -> length pre = Z.to_nat i ->
  <[Z.to_nat i := x]> (pre ++ y :: rest) = pre ++ x :: rest.
Proof.
  intros Hi Hlen. rewrite insert_app_r_alt by lia.
  rewrite Hlen, Nat.sub_diag. reflexivity.
Qed.

Lemma array_get_after {A} (pre : list A) (x : A) (rest : list A) (i : Z) :
  0 <= i -> length pre = Z.to_nat i ->
  array_get (pre ++ x :: rest) i = Some x.
Proof.
  intros Hi Hlen. rewrite array_get_inside by assumption.
  rewrite lookup_app_r by lia. rewrite Hlen, Nat.sub_diag. reflexivity.
Qed.

Lemma pool_cells_cons (i : Z) (qm : reply * reply) (pairs : list (reply * reply)) :
  pool_cells i (qm :: pairs) = pool_cell i qm :: pool_cells (i + 1) pairs.
Proof.
  unfold pool_cells. rewrite imap_cons. cbn [Z.of_nat]. rewrite Z.add_0_r.
  f_equal. apply imap_ext. intros j x _. unfold compose.
  replace (i + Z.of_nat (S j)) with (i + 1 + Z.of_nat j) by lia. reflexivity.
Qed.

Lemma query_events_cons (fd i : Z) (qm : reply * reply)
    (pairs : list (reply * reply)) :
  query_events fd i (qm :: pairs)
  = [(SysIoctl fd VIDIOC_QUERYBUF
        (ArgBuffer (mk_buffer i V4L2_MEMORY_MMAP 0 0 0)), fst qm);
     (SysMmap
        (buf_length (out_buffer (fst qm) (mk_buffer i V4L2_MEMORY_MMAP 0 0 0)))
        fd
        (buf_offset (out_buffer (fst qm) (mk_buffer i V4L2_MEMORY_MMAP 0 0 0))),
      snd qm)]
    ++ query_events fd (i + 1) pairs.
Proof.
  unfold query_events. rewrite imap_cons. cbn [concat Z.of_nat].
  rewrite Z.add_0_r. f_equal. f_equal. apply imap_ext. intros j x _.
  unfold compose.
  replace (i + Z.of_nat (S j)) with (i + 1 + Z.of_nat j) by lia. reflexivity.
Qed.

Lemma pool_cells_length (i : Z) (pairs : list (reply * reply)) :
  length (pool_cells i pairs) = length pairs.
Proof. unfold pool_cells. apply length_imap. Qed.

(** Buffers that map well fill the cells of the table in order. *)
Lemma query_buffers_maps (pairs : list (reply * reply)) :
  forall (n : nat) (dev : video_dev_t) (pre : cells) (i : Z)
         (rest : list reply) (tr : list event) (e : Z),
    0 <= i -> length pre = Z.to_nat i ->
    Forall maps_well pairs ->
    exists e',
      query_buffers (length pairs + n) dev
        (pre ++ replicate (length pairs + n) None) i
        (mk_world (mapped_replies pairs ++ rest) tr e)
      = query_buffers n dev
          ((pre ++ map Some (pool_cells i pairs)) ++ replicate n None)
          (i + Z.of_nat (length pairs))
          (mk_world rest (tr ++ query_events (fd dev) i pairs) e').
Proof.
  induction pairs as [| [q m] pairs IH]; intros n dev pre i rest tr e Hi Hpre Hall.
  - exists e. cbn. rewrite Z.add_0_r, !app_nil_r. reflexivity.
  - inversion Hall as [| ? ? [Hq Hm] Hall']; subst. cbn [fst snd] in Hq, Hm.
    cbn [length Nat.add replicate mapped_replies flat_map app fst snd
         query_buffers].
    rewrite (insert_after pre _ None _ i Hi Hpre).
    run. rewrite (ltb_false _ _ Hq). run.
    rewrite (insert_after pre _ _ _ i Hi Hpre), (eqb_false _ _ Hm).
    fold (mapped_replies pairs).
    change (pre ++ ?x :: ?r) with (pre ++ [x] ++ r). rewrite app_assoc.
    edestruct (IH n dev (pre ++ [Some (mk_video_buf (rv m)
                 (buf_length (out_buffer q (mk_buffer i V4L2_MEMORY_MMAP 0 0 0))))])
                 (i + 1)) as (e' & Hrun);
      [lia | rewrite length_app; cbn [length]; lia | exact Hall' |].
    rewrite Hrun. exists e'.
    rewrite pool_cells_cons, query_events_cons. cbn [map fst snd].
    unfold pool_cell. cbn [fst snd].
    rewrite <- !app_assoc. cbn [app].
    replace (i + Z.of_nat (S (length pairs)))
      with (i + 1 + Z.of_nat (length pairs)) by lia.
    reflexivity.
Qed.

(** The loop of [init_buffer] that takes the mappings back: the mapped
    cells are unmapped in order, up to the cell marked [MAP_FAILED]. *)
Lemma release_buffers_run (bs : list video_buf_t) :
  forall (n : nat) (pre : cells) (i : Z) (sz : Z) (after : cells)
         (us rest : list reply) (tr : list event) (e : Z),
    0 <= i -> length pre = Z.to_nat i ->
    Forall (fun b => addr b <> MAP_FAILED) bs ->
    length us = length bs ->
    (length bs < n)%nat ->
    exists tbl' e',
      release_buffers n
        (pre ++ map Some bs ++ Some (mk_video_buf MAP_FAILED sz) :: after) i
        (mk_world (us ++ rest) tr e)
      = Done tbl' (mk_world rest (tr ++ unmap_events bs us) e').
Proof.
  induction bs as [| b bs IH];
    intros n pre i sz after us rest tr e Hi Hpre Hall Hus Hn;
    (destruct n as [| n]; [cbn in Hn; lia |]).
  - destruct us; [| discriminate]. cbn [map app release_buffers].
    rewrite (array_get_after pre _ _ i Hi Hpre). cbn [addr Z.eqb MAP_FAILED Pos.eqb].
    eexists; exists e. unfold pure, unmap_events. cbn. rewrite app_nil_r.
    reflexivity.
  - destruct us as [| u us]; [discriminate |].
    inversion Hall as [| ? ? Hb Hall']; subst.
    cbn [map app release_buffers].
    rewrite (array_get_after pre _ _ i Hi Hpre), (eqb_false _ _ Hb). run.
    rewrite (insert_after pre _ _ _ i Hi Hpre).
    change (pre ++ ?x :: ?r) with (pre ++ [x] ++ r). rewrite app_assoc.
    edestruct (IH n (pre ++ [Some (mk_video_buf NULL 0)]) (i + 1) sz after us rest)
      as (tbl' & e' & Hrun);
      [lia | rewrite length_app; cbn [length]; lia | exact Hall'
      | cbn in Hus; lia | cbn in Hn; lia |].
    rewrite Hrun. exists tbl', e'. unfold unmap_events. cbn [zip zip_with map fst snd].
    rewrite <- app_assoc. reflexivity.
Qed.

(** The loop of [close_video_device]: the buffers counted in the session
    are unmapped in order. *)
Lemma unmap_buffers_run (bs : list video_buf_t) :
  forall (pre after : cells) (i : Z)
         (us rest : list reply) (tr : list event) (e : Z),
    0 <= i -> length pre = Z.to_nat i ->
    Forall (fun b => addr b <> MAP_FAILED) bs ->
    length us = length bs ->
    exists e',
      unmap_buffers (length bs) (pre ++ map Some bs ++ after) i
        (mk_world (us ++ rest) tr e)
      = Done tt (mk_world rest (tr ++ unmap_events bs us) e').
Proof.
  induction bs as [| b bs IH]; intros pre after i us rest tr e Hi Hpre Hall Hus.
  - destruct us; [| discriminate]. exists e. cbn. rewrite app_nil_r. reflexivity.
  - destruct us as [| u us]; [discriminate |].
    inversion Hall as [| ? ? Hb Hall']; subst.
    cbn [length map app unmap_buffers].
    rewrite (array_get_after pre _ _ i Hi Hpre), (eqb_false _ _ Hb). run.
    change (pre ++ ?x :: ?r) with (pre ++ [x] ++ r). rewrite app_assoc.
    edestruct (IH (pre ++ [Some b]) after (i + 1) us rest) as (e' & Hrun);
      [lia | rewrite length_app; cbn [length]; lia | exact Hall'
      | cbn in Hus; lia |].
    rewrite Hrun. exists e'. unfold unmap_events. cbn [zip zip_with map fst snd].
    rewrite <- app_assoc. reflexivity.
Qed.

(** The loop that closes the descriptor goes on until a close succeeds. *)
Lemma close_retry_run (fails : list reply) :
  forall (fuel : nat) (fd : Z) (c : reply)
         (rest : list reply) (tr : list event) (e : Z),
    Forall (fun r => rv r < 0) fails ->
    0 <= rv c ->
    (length fails < fuel)%nat ->
    exists e',
      close_retry fuel fd (mk_world (fails ++ c :: rest) tr e)
      = Done tt (mk_world rest (tr ++ close_events fd (fails ++ [c])) e').
Proof.
  induction fails as [| r fails IH]; intros fuel fd c rest tr e Hall Hc Hfuel;
    (destruct fuel as [| fuel]; [cbn in Hfuel; lia |]);
    cbn [app close_retry]; run.
  - rewrite (ltb_false _ _ Hc). eexists. reflexivity.
  - inversion Hall as [| ? ? Hr Hall']; subst. rewrite (ltb_true _ _ Hr).
    edestruct (IH fuel fd c rest) as (e' & Hrun);
      [exact Hall' | exact Hc | cbn in Hfuel; lia |].
    rewrite Hrun. exists e'. cbn [close_events map app].
    rewrite <- app_assoc. reflexivity.
Qed.

Lemma pool_cells_mapped (pairs : list (reply * reply)) :
  forall i, Forall maps_well pairs ->
            Forall (fun b => addr b <> MAP_FAILED) (pool_cells i pairs).
Proof.
  induction pairs as [| qm pairs IH]; intros i Hall; [constructor |].
  inversion Hall as [| ? ? [_ Hm] Hall']; subst.
  rewrite pool_cells_cons. constructor; [exact Hm | apply IH, Hall'].
Qed.

Lemma mapped_regions_app (a b : list event) :
  mapped_regions (a ++ b) = mapped_regions a ++ mapped_regions b.
Proof. apply flat_map_app. Qed.

Lemma unmapped_regions_app (a b : list event) :
  unmapped_regions (a ++ b) = unmapped_regions a ++ unmapped_regions b.
Proof. apply flat_map_app. Qed.

Lemma query_events_regions (fd : Z) (pairs : list (reply * reply)) :
  forall i, Forall maps_well pairs ->
    mapped_regions (query_events fd i pairs) = map region (pool_cells i pairs)
    /\ unmapped_regions (query_events fd i pairs) = [].
Proof.
  induction pairs as [| qm pairs IH]; intros i Hall; [split; reflexivity |].
  inversion Hall as [| ? ? [_ Hm] Hall']; subst.
  destruct (IH (i + 1) Hall') as [Hmap Hun].
  rewrite query_events_cons, pool_cells_cons, mapped_regions_app,
    unmapped_regions_app, Hmap, Hun.
  cbn. rewrite (eqb_false _ _ Hm). split; reflexivity.
Qed.

Lemma unmap_events_regions (bs : list video_buf_t) :
  forall us, length us = length bs ->
    unmapped_regions (unmap_events bs us) = map region bs
    /\ mapped_regions (unmap_events bs us) = [].
Proof.
  induction bs as [| b bs IH]; intros [| u us] Hlen; try discriminate;
    [split; reflexivity |].
  destruct (IH us ltac:(cbn in Hlen; lia)) as [Hun Hmap].
  change (unmap_events (b :: bs) (u :: us))
    with ([(SysMunmap (addr b) (size b), u)] ++ unmap_events bs us).
  rewrite unmapped_regions_app, mapped_regions_app, Hun, Hmap.
  split; reflexivity.
Qed.

Lemma pool_cells_lookup (pairs : list (reply * reply)) (i : Z) (j : nat)
    (qm : reply * reply) :
  pairs !! j = Some qm ->
  pool_cells i pairs !! j = Some (pool_cell (i + Z.of_nat j) qm).
Proof.
  intros Hj. unfold pool_cells. rewrite list_lookup_imap, Hj. reflexivity.
Qed.

(** How [init_buffer] runs when every granted buffer maps well. *)
Lemma init_buffer_full_run
    (dev : video_dev_t) (g p : reply) (pairs : list (reply * reply))
    (s : list reply) (tr : list event) (e : Z) :
  0 <= rv g -> granted g = Z.of_nat (length pairs) -> 2 <= granted g ->
  rv p <> NULL ->
  Forall maps_well pairs ->
  exists e',
    init_buffer dev (mk_world (g :: p :: mapped_replies pairs ++ s) tr e)
    = Done (NOERROR,
            set_buffers dev (Some (map Some (pool_cells 0 pairs)))
              (s32 (granted g)))
        (mk_world s
           (tr ++ [(SysIoctl (fd dev) VIDIOC_REQBUFS (ArgReq buffer_request), g);
                   (LibMalloc (granted g), p)]
               ++ query_events (fd dev) 0 pairs)
           e').
Proof.
  intros Hg Hcount Hmin Hp Hall. unfold init_buffer. run.
  rewrite (ltb_false _ _ Hg). fold buffer_request. fold (granted g).
  rewrite (ltb_false _ _ Hmin). run. rewrite (eqb_false _ _ Hp).
  rewrite Hcount, Nat2Z.id. cbn [fd set_buffers].
  destruct (query_buffers_maps pairs 0 (set_buffers dev None 0) [] 0 s
              ((tr ++ [(SysIoctl (fd dev) VIDIOC_REQBUFS (ArgReq buffer_request), g)])
                 ++ [(LibMalloc (Z.of_nat (length pairs)), p)])
              (if rv p <? 0 then re p else e) ltac:(lia) eq_refl Hall)
    as (e' & Hrun).
  rewrite Nat.add_0_r in Hrun. cbn [app] in Hrun. rewrite Hrun.
  cbn [query_buffers replicate]. run. cbn [negb Z.eqb NOERROR].
  rewrite app_nil_r, Z.add_0_l. exists e'.
  cbn [fd set_buffers]. rewrite <- !app_assoc. reflexivity.
Qed.

(** X7.  When the kernel grants [n] buffers, two or more, and each of
    them is queried and mapped without error, [init_buffer] returns
    [NOERROR] with a pool of exactly [n] buffers: cell [j] of the table
    holds the address [mmap] returned for buffer [j] and the length the
    kernel reported for it.  Each buffer is mapped once, in index order, and
    nothing is unmapped. *)
Theorem init_buffer_full_pool
    (dev : video_dev_t) (g p : reply) (pairs : list (reply * reply))
    (s : list reply) (tr : list event) (e : Z) :
  0 <= rv g -> granted g = Z.of_nat (length pairs) ->
  2 <= granted g < 2 ^ 31 ->
  rv p <> NULL ->
  Forall maps_well pairs ->
  exists tbl w',
    init_buffer dev (mk_world (g :: p :: mapped_replies pairs ++ s) tr e)
      = Done (NOERROR, set_buffers dev (Some tbl) (granted g)) w'
    /\ script w' = s
    /\ length tbl = length pairs
    /\ (forall j qm,
          pairs !! j = Some qm ->
          array_get tbl (Z.of_nat j) = Some (Some (pool_cell (Z.of_nat j) qm)))
    /\ mapped_regions (trace w')
       = mapped_regions tr ++ map region (pool_cells 0 pairs)
    /\ unmapped_regions (trace w') = unmapped_regions tr.
Proof.
  intros Hg Hcount [Hmin Hmax] Hp Hall.
  destruct (init_buffer_full_run dev g p pairs s tr e Hg Hcount Hmin Hp Hall)
    as (e' & Hrun).
  destruct (query_events_regions (fd dev) pairs 0 Hall) as [Hmap Hun].
  exists (map Some (pool_cells 0 pairs)). eexists. split.
  { rewrite Hrun. f_equal. f_equal. f_equal.
    unfold s32. rewrite Z.mod_small by lia.
    destruct (Z.ltb_spec (granted g) (2 ^ 31)); [reflexivity | lia]. }
  cbn [script trace]. split; [reflexivity |].
  split; [rewrite length_map; apply pool_cells_length |]. split; [| split].
  - intros j qm Hj. rewrite array_get_inside by lia.
    rewrite Nat2Z.id, list_lookup_fmap.
    rewrite (pool_cells_lookup pairs 0 j qm Hj). reflexivity.
  - rewrite !mapped_regions_app, Hmap. reflexivity.
  - rewrite !unmapped_regions_app, Hun. cbn. rewrite !app_nil_r. reflexivity.
Qed.

Lemma init_buffer_full_pool_witness :
  let q0 := ok_arg (ArgBuffer (mk_buffer 0 1 0 614400 0)) in
  let q1 := ok_arg (ArgBuffer (mk_buffer 1 1 0 614400 614400)) in
  let q2 := ok_arg (ArgBuffer (mk_buffer 2 1 0 614400 1228800)) in
  let pairs := [(q0, ok 8192); (q1, ok 626688); (q2, ok 1245184)] in
  exists tbl w',
    init_buffer (set_fd initial_dev 3)
      (boot (ok_arg (ArgReq (mk_req 3 1 1)) :: ok 4096
               :: mapped_replies pairs ++ []))
      = Done (NOERROR, set_buffers (set_fd initial_dev 3) (Some tbl) 3) w'
    /\ script w' = []
    /\ length tbl = 3%nat
    /\ array_get tbl 1 = Some (Some (mk_video_buf 626688 614400))
    /\ mapped_regions (trace w')
       = [(8192, 614400); (626688, 614400); (1245184, 614400)]
    /\ unmapped_regions (trace w') = [].
Proof.
  intros q0 q1 q2 pairs.
  destruct (init_buffer_full_pool (set_fd initial_dev 3)
              (ok_arg (ArgReq (mk_req 3 1 1))) (ok 4096) pairs [] [] 0)
    as (tbl & w' & Hrun & Hs & Hlen & Hcell & Hmap & Hun).
  - simpl; lia.
  - vm_compute; reflexivity.
  - vm_compute. split; [discriminate | reflexivity].
  - discriminate.
  - repeat constructor; simpl; try lia; discriminate.
  - exists tbl, w'. split; [exact Hrun |]. split; [exact Hs |].
    split; [exact Hlen |]. split; [apply (Hcell 1%nat (q1, ok 626688) eq_refl) |].
    split; [exact Hmap | exact Hun].
Defined.

(** The loop of [init_buffer] up to the buffer after [pairs], when there
    is one: the turn for it is entered with the cells of [pairs] filled. *)
Lemma query_buffers_partial
    (dev : video_dev_t) (count : Z) (pairs : list (reply * reply))
    (rest : list reply) (tr : list event) (e : Z) :
  Z.of_nat (length pairs) < count ->
  Forall maps_well pairs ->
  exists n e',
    Z.to_nat count = (length pairs + S n)%nat
    /\ query_buffers (Z.to_nat count) dev (replicate (Z.to_nat count) None) 0
         (mk_world (mapped_replies pairs ++ rest) tr e)
       = query_buffers (S n) dev
           (map Some (pool_cells 0 pairs) ++ replicate (S n) None)
           (Z.of_nat (length pairs))
           (mk_world rest (tr ++ query_events (fd dev) 0 pairs) e').
Proof.
  intros Hk Hall.
  exists (Z.to_nat count - length pairs - 1)%nat.
  assert (Hn : Z.to_nat count
               = (length pairs + S (Z.to_nat count - length pairs - 1))%nat)
    by lia.
  destruct (query_buffers_maps pairs (S (Z.to_nat count - length pairs - 1))
              dev [] 0 rest tr e ltac:(lia) eq_refl Hall)
    as (e' & Hrun).
  exists e'. split; [exact Hn |].
  rewrite <- Hn in Hrun. cbn [app] in Hrun.
  rewrite Hrun, Z.add_0_l. reflexivity.
Qed.

(** X8.  When [init_buffer] fails after some buffers were mapped, because
    a query fails with an error other than EINVAL or because a mapping
    fails, it unmaps every buffer it had mapped, each one once and with the
    address and length it was mapped with, frees the table and leaves the
    session without a pool: no mapping is left behind.  The result is
    [VIDEO_DEVICE_QUERY_BUFFER_FAILED] in the first case and
    [MEMORY_MAPPING_FAILED] in the second. *)
Theorem init_buffer_failure_releases
    (dev : video_dev_t) (g p : reply) (pairs : list (reply * reply))
    (bad us s : list reply) (tr : list event) (e : Z) :
  0 <= rv g -> 2 <= granted g -> Z.of_nat (length pairs) < granted g ->
  rv p <> NULL ->
  Forall maps_well pairs ->
  length us = length pairs ->
  (exists f, bad = [f] /\ rv f < 0 /\ re f <> EINVAL)
  \/ (exists q m, bad = [q; m] /\ 0 <= rv q /\ rv m = MAP_FAILED) ->
  exists w',
    init_buffer dev
      (mk_world (g :: p :: mapped_replies pairs ++ bad ++ us ++ s) tr e)
      = Done (match bad with
              | [_] => VIDEO_DEVICE_QUERY_BUFFER_FAILED
              | _ => MEMORY_MAPPING_FAILED
              end, set_buffers dev None 0) w'
    /\ script w' = s
    /\ mapped_regions (trace w')
       = mapped_regions tr ++ map region (pool_cells 0 pairs)
    /\ unmapped_regions (trace w')
       = unmapped_regions tr ++ map region (pool_cells 0 pairs)
    /\ last (trace w') = Some (LibFree, void_reply).
Proof.
  intros Hg Hmin Hk Hp Hall Hus Hbad.
  destruct (query_events_regions (fd dev) pairs 0 Hall) as [Hmap Hun].
  destruct (unmap_events_regions (pool_cells 0 pairs) us
              ltac:(rewrite pool_cells_length; exact Hus)) as [Hun' Hmap'].
  pose proof (pool_cells_mapped pairs 0 Hall) as Hcells.
  unfold init_buffer. run. rewrite (ltb_false _ _ Hg).
  fold buffer_request. fold (granted g).
  rewrite (ltb_false _ _ Hmin). run. rewrite (eqb_false _ _ Hp).
  rewrite <- app_assoc. cbn [app].
  edestruct (query_buffers_partial (set_buffers dev None 0) (granted g) pairs)
    as (n & e' & Hn & Hrun); [exact Hk | exact Hall |].
  rewrite Hrun. cbn [query_buffers replicate].
  rewrite (insert_after (map Some (pool_cells 0 pairs)) _ None _
             (Z.of_nat (length pairs)))
    by (try lia; rewrite length_map, pool_cells_length; lia).
  cbn [fd set_buffers].
  destruct Hbad as [(f & -> & Hf & He) | (q & m & -> & Hq & Hm)].
  - cbn [app]. run. rewrite (ltb_true _ _ Hf), (eqb_false _ _ He).
    cbn [negb Z.eqb VIDEO_DEVICE_QUERY_BUFFER_FAILED NOERROR].
    edestruct (release_buffers_run (pool_cells 0 pairs) (Z.to_nat (granted g))
                 [] 0 0 (replicate n None) us s)
      as (tbl' & e'' & Hrel);
      [lia | reflexivity | exact Hcells | rewrite pool_cells_length; exact Hus
      | rewrite pool_cells_length; lia |].
    cbn [app] in Hrel. rewrite Hrel.
    eexists. split; [reflexivity |]. cbv beta iota.
    split; [reflexivity |]. split; [| split].
    + rewrite !mapped_regions_app, Hmap, Hmap'. cbn. rewrite !app_nil_r.
      reflexivity.
    + rewrite !unmapped_regions_app, Hun, Hun'. cbn. rewrite !app_nil_r.
      reflexivity.
    + apply last_snoc.
  - cbn [app]. run. rewrite (ltb_false _ _ Hq). run.
    rewrite (insert_after (map Some (pool_cells 0 pairs)) _ _ _
               (Z.of_nat (length pairs)))
      by (try lia; rewrite length_map, pool_cells_length; lia).
    rewrite Hm. cbn [Z.eqb MAP_FAILED Pos.eqb].
    cbn [negb Z.eqb MEMORY_MAPPING_FAILED NOERROR].
    edestruct (release_buffers_run (pool_cells 0 pairs) (Z.to_nat (granted g))
                 [] 0
                 (buf_length (out_buffer q
                    (mk_buffer (Z.of_nat (length pairs)) V4L2_MEMORY_MMAP 0 0 0)))
                 (replicate n None) us s)
      as (tbl' & e'' & Hrel);
      [lia | reflexivity | exact Hcells | rewrite pool_cells_length; exact Hus
      | rewrite pool_cells_length; lia |].
    cbn [app] in Hrel. rewrite Hrel.
    eexists. split; [reflexivity |]. cbv beta iota.
    split; [reflexivity |]. split; [| split].
    + rewrite !mapped_regions_app, Hmap, Hmap'. cbn. rewrite Hm. cbn.
      rewrite !app_nil_r. reflexivity.
    + rewrite !unmapped_regions_app, Hun, Hun'. cbn. rewrite !app_nil_r.
      reflexivity.
    + apply last_snoc.
Qed.

(** Three buffers granted; the third cannot be mapped after the first
    two were. *)
Lemma init_buffer_failure_releases_witness :
  let q0 := ok_arg (ArgBuffer (mk_buffer 0 1 0 614400 0)) in
  let q1 := ok_arg (ArgBuffer (mk_buffer 1 1 0 614400 614400)) in
  let q2 := ok_arg (ArgBuffer (mk_buffer 2 1 0 614400 1228800)) in
  let pairs := [(q0, ok 8192); (q1, ok 626688)] in
  exists w',
    init_buffer (set_fd initial_dev 3)
      (boot (ok_arg (ArgReq (mk_req 3 1 1)) :: ok 4096
               :: mapped_replies pairs ++ [q2; fail ENOMEM] ++ [ok 0; ok 0] ++ []))
      = Done (MEMORY_MAPPING_FAILED, set_buffers (set_fd initial_dev 3) None 0) w'
    /\ script w' = []
    /\ mapped_regions (trace w') = [(8192, 614400); (626688, 614400)]
    /\ unmapped_regions (trace w') = [(8192, 614400); (626688, 614400)]
    /\ last (trace w') = Some (LibFree, void_reply).
Proof.
  intros q0 q1 q2 pairs.
  apply (init_buffer_failure_releases (set_fd initial_dev 3)
           (ok_arg (ArgReq (mk_req 3 1 1))) (ok 4096) pairs
           [q2; fail ENOMEM] [ok 0; ok 0] [] [] 0).
  - simpl; lia.
  - vm_compute; discriminate.
  - vm_compute; reflexivity.
  - discriminate.
  - repeat constructor; simpl; try lia; discriminate.
  - reflexivity.
  - right. exists q2, (fail ENOMEM). split; [reflexivity |].
    split; [simpl; lia | reflexivity].
Defined.

(** ** Closing a session that has a pool *)

(** How [close_video_device] runs on a session whose pool holds the
    buffers [bs]. *)
Lemma close_video_device_run
    (dev : video_dev_t) (bs : list video_buf_t) (after : cells)
    (us fails : list reply) (c : reply) (s : list reply)
    (tr : list event) (e : Z) :
  0 <= fd dev ->
  buffers dev = Some (map Some bs ++ after) ->
  u32 (buffer_count dev) = Z.of_nat (length bs) ->
  Forall (fun b => addr b <> MAP_FAILED) bs ->
  length us = length bs ->
  Forall (fun r => rv r < 0) fails ->
  0 <= rv c ->
  exists e',
    close_video_device dev (mk_world (us ++ fails ++ c :: s) tr e)
    = Done tt
        (mk_world s
           (tr ++ unmap_events bs us ++ [(LibFree, void_reply)]
               ++ close_events (fd dev) (fails ++ [c]))
           e').
Proof.
  intros Hfd Hbuf Hcount Hall Hus Hfails Hc. unfold close_video_device.
  destruct (Z.gtb_spec 0 (fd dev)); [lia |].
  rewrite Hbuf, Hcount, Nat2Z.id. unfold bind at 1. unfold bind at 1.
  destruct (unmap_buffers_run bs [] after 0 us (fails ++ c :: s) tr e
              ltac:(lia) eq_refl Hall Hus) as (e1 & Hrun).
  cbn [app] in Hrun. rewrite Hrun. unfold emit, with_fuel. cbn [script trace errno].
  destruct (close_retry_run fails (S (length (fails ++ c :: s))) (fd dev) c s
              ((tr ++ unmap_events bs us) ++ [(LibFree, void_reply)]) e1
              Hfails Hc ltac:(rewrite length_app; lia)) as (e' & Hclose).
  rewrite Hclose. exists e'. rewrite <- !app_assoc. reflexivity.
Qed.

Lemma close_events_counts (fd : Z) (rs : list reply) :
  count_events is_close (close_events fd rs) = length rs
  /\ mapped_regions (close_events fd rs) = []
  /\ unmapped_regions (close_events fd rs) = [].
Proof.
  induction rs as [| r rs (IH1 & IH2 & IH3)]; [repeat split; reflexivity |].
  change (close_events fd (r :: rs)) with ([(SysClose fd, r)] ++ close_events fd rs).
  rewrite count_events_app, mapped_regions_app, unmapped_regions_app, IH1, IH2, IH3.
  repeat split; reflexivity.
Qed.

(** X9.  On an open session whose pool holds [n] mapped buffers,
    [close_video_device] makes these calls and no other, in this order: it
    unmaps the [n] buffers in index order, each once and with its own
    address and length, whatever [munmap] returns; it then frees the table,
    once; it then closes the descriptor, calling [close] again after each
    failure until one call succeeds.  A successful close is the last call it
    makes. *)
Theorem close_video_device_teardown
    (dev : video_dev_t) (bs : list video_buf_t) (after : cells)
    (us fails : list reply) (c : reply) (s : list reply)
    (tr : list event) (e : Z) :
  0 <= fd dev ->
  buffers dev = Some (map Some bs ++ after) ->
  u32 (buffer_count dev) = Z.of_nat (length bs) ->
  Forall (fun b => addr b <> MAP_FAILED) bs ->
  length us = length bs ->
  Forall (fun r => rv r < 0) fails ->
  0 <= rv c ->
  exists w',
    close_video_device dev (mk_world (us ++ fails ++ c :: s) tr e) = Done tt w'
    /\ script w' = s
    /\ trace w'
       = tr ++ unmap_events bs us ++ [(LibFree, void_reply)]
            ++ close_events (fd dev) (fails ++ [c])
    /\ unmapped_regions (trace w') = unmapped_regions tr ++ map region bs
    /\ mapped_regions (trace w') = mapped_regions tr
    /\ count_events is_close (trace w')
       = (count_events is_close tr + S (length fails))%nat
    /\ last (trace w') = Some (SysClose (fd dev), c).
Proof.
  intros Hfd Hbuf Hcount Hall Hus Hfails Hc.
  destruct (close_video_device_run dev bs after us fails c s tr e
              Hfd Hbuf Hcount Hall Hus Hfails Hc) as (e' & Hrun).
  destruct (unmap_events_regions bs us Hus) as [Hun Hmap].
  destruct (close_events_counts (fd dev) (fails ++ [c])) as (Hn & Hcm & Hcu).
  eexists. split; [exact Hrun |]. cbn [script trace].
  split; [reflexivity |]. split; [reflexivity |]. split; [| split; [| split]].
  - rewrite !unmapped_regions_app, Hun, Hcu. cbn. rewrite !app_nil_r. reflexivity.
  - rewrite !mapped_regions_app, Hmap, Hcm. cbn. rewrite !app_nil_r. reflexivity.
  - rewrite !count_events_app, Hn, length_app.
    assert (Hz : count_events is_close (unmap_events bs us) = 0%nat).
    { clear. revert us. induction bs as [| b bs IH]; intros [| u us];
        try reflexivity. unfold unmap_events, count_events in *. cbn. apply IH. }
    rewrite Hz. cbn. lia.
  - unfold close_events. rewrite map_app. cbn [map].
    rewrite !app_assoc. apply last_snoc.
Qed.

Lemma close_video_device_teardown_witness :
  let bs := [mk_video_buf 8192 614400; mk_video_buf 626688 614400] in
  let dev := set_buffers (set_fd initial_dev 3) (Some (map Some bs ++ [])) 2 in
  exists w',
    close_video_device dev
      (boot ([ok 0; fail EINVAL] ++ [fail 4; fail 4] ++ ok 0 :: []))
      = Done tt w'
    /\ script w' = []
    /\ trace w'
       = [(SysMunmap 8192 614400, ok 0); (SysMunmap 626688 614400, fail EINVAL);
          (LibFree, void_reply);
          (SysClose 3, fail 4); (SysClose 3, fail 4); (SysClose 3, ok 0)]
    /\ unmapped_regions (trace w') = [(8192, 614400); (626688, 614400)]
    /\ mapped_regions (trace w') = []
    /\ count_events is_close (trace w') = 3%nat
    /\ last (trace w') = Some (SysClose 3, ok 0).
Proof.
  intros bs dev.
  apply (close_video_device_teardown dev bs [] [ok 0; fail EINVAL]
           [fail 4; fail 4] (ok 0) [] [] 0).
  - simpl; lia.
  - reflexivity.
  - vm_compute; reflexivity.
  - repeat constructor; simpl; discriminate.
  - reflexivity.
  - repeat constructor; simpl; lia.
  - simpl; lia.
Defined.

(** ** Closing the session: every close releases the descriptor *)






(** ** From [init_buffer] to [close_video_device] *)

Lemma u32_s32 (x : Z) : u32 (s32 x) = u32 x.
Proof.
  unfold u32, s32. cbv zeta.
  destruct (x mod 2 ^ 32 <? 2 ^ 31).
  - apply Z.mod_mod. lia.
  - rewrite Zminus_mod_idemp_l.
    replace (x - 2 ^ 32) with (x + (-1) * 2 ^ 32) by lia.
    apply Z_mod_plus_full.
Qed.

Lemma granted_range (g : reply) : 0 <= granted g < 2 ^ 32.
Proof. unfold granted, u32. apply Z.mod_pos_bound. lia. Qed.

(** How [init_buffer] runs when the query after [pairs] is answered with
    EINVAL. *)
Lemma init_buffer_stopped_run
    (dev : video_dev_t) (g p f : reply) (pairs : list (reply * reply))
    (s : list reply) (tr : list event) (e : Z) :
  0 <= rv g -> 2 <= granted g -> Z.of_nat (length pairs) < granted g ->
  rv p <> NULL ->
  Forall maps_well pairs ->
  rv f < 0 -> re f = EINVAL ->
  exists n,
    init_buffer dev (mk_world (g :: p :: mapped_replies pairs ++ f :: s) tr e)
    = Done (NOERROR,
            set_buffers dev
              (Some (map Some (pool_cells 0 pairs)
                       ++ Some (mk_video_buf MAP_FAILED 0) :: replicate n None))
              (s32 (Z.of_nat (length pairs))))
        (mk_world s
           (tr ++ [(SysIoctl (fd dev) VIDIOC_REQBUFS (ArgReq buffer_request), g);
                   (LibMalloc (granted g), p)]
               ++ query_events (fd dev) 0 pairs
               ++ [(SysIoctl (fd dev) VIDIOC_QUERYBUF
                      (ArgBuffer (mk_buffer (Z.of_nat (length pairs))
                                    V4L2_MEMORY_MMAP 0 0 0)), f)])
           EINVAL).
Proof.
  intros Hg Hmin Hk Hp Hall Hf He.
  unfold init_buffer. run. rewrite (ltb_false _ _ Hg).
  fold buffer_request. fold (granted g).
  rewrite (ltb_false _ _ Hmin). run. rewrite (eqb_false _ _ Hp).
  rewrite <- app_assoc. cbn [app].
  edestruct (query_buffers_partial (set_buffers dev None 0) (granted g) pairs)
    as (n & e' & Hn & Hrun); [exact Hk | exact Hall |].
  rewrite Hrun. cbn [query_buffers replicate].
  rewrite (insert_after (map Some (pool_cells 0 pairs)) _ None _
             (Z.of_nat (length pairs)))
    by (try lia; rewrite length_map, pool_cells_length; lia).
  cbn [fd set_buffers]. run. rewrite (ltb_true _ _ Hf), He.
  cbn [negb Z.eqb EINVAL NOERROR Pos.eqb].
  exists n. rewrite <- !app_assoc. reflexivity.
Qed.

(** X10.  Whatever pool [init_buffer] leaves in the session, the whole
    grant or the buffers mapped before a query answered with EINVAL, a
    [close_video_device] of that session unmaps exactly what was mapped:
    the regions unmapped are the regions mapped, in the same order, each
    once. *)
Theorem init_buffer_then_close
    (dev : video_dev_t) (g p : reply) (pairs : list (reply * reply))
    (stop us fails : list reply) (c : reply) (s : list reply)
    (tr : list event) (e : Z) :
  0 <= fd dev ->
  0 <= rv g -> 2 <= granted g -> rv p <> NULL ->
  Forall maps_well pairs ->
  (stop = [] /\ granted g = Z.of_nat (length pairs))
  \/ (exists f, stop = [f] /\ rv f < 0 /\ re f = EINVAL
                /\ Z.of_nat (length pairs) < granted g) ->
  length us = length pairs ->
  Forall (fun r => rv r < 0) fails ->
  0 <= rv c ->
  exists dev1 w1 w2,
    init_buffer dev
      (mk_world (g :: p :: mapped_replies pairs ++ stop
                   ++ us ++ fails ++ c :: s) tr e)
      = Done (NOERROR, dev1) w1
    /\ u32 (buffer_count dev1) = Z.of_nat (length pairs)
    /\ close_video_device dev1 w1 = Done tt w2
    /\ script w2 = s
    /\ mapped_regions (trace w2)
       = mapped_regions tr ++ map region (pool_cells 0 pairs)
    /\ unmapped_regions (trace w2)
       = unmapped_regions tr ++ map region (pool_cells 0 pairs).
Proof.
  intros Hfd Hg Hmin Hp Hall Hstop Hus Hfails Hc.
  pose proof (granted_range g) as Hrange.
  destruct (query_events_regions (fd dev) pairs 0 Hall) as [Hmap Hun].
  destruct (unmap_events_regions (pool_cells 0 pairs) us
              ltac:(rewrite pool_cells_length; exact Hus)) as [Hun' Hmap'].
  destruct (close_events_counts (fd dev) (fails ++ [c])) as (_ & Hcm & Hcu).
  pose proof (pool_cells_mapped pairs 0 Hall) as Hcells.
  assert (Hcount : u32 (s32 (Z.of_nat (length pairs))) = Z.of_nat (length pairs)).
  { rewrite u32_s32. unfold u32. apply Z.mod_small.
    destruct Hstop as [[_ Heq] | (f & _ & _ & _ & Hlt)]; lia. }
  destruct Hstop as [[-> Hcount'] | (f & -> & Hf & He & Hk)].
  - destruct (init_buffer_full_run dev g p pairs (us ++ fails ++ c :: s) tr e
                Hg Hcount' Hmin Hp Hall) as (e1 & Hinit).
    cbn [app]. rewrite Hinit.
    edestruct (close_video_device_run
                 (set_buffers dev (Some (map Some (pool_cells 0 pairs)))
                    (s32 (granted g)))
                 (pool_cells 0 pairs) [] us fails c s) as (e2 & Hclose);
      [exact Hfd | cbn [buffers set_buffers]; rewrite app_nil_r; reflexivity
      | cbn [buffer_count set_buffers]; rewrite Hcount', pool_cells_length;
        exact Hcount
      | exact Hcells | rewrite pool_cells_length; exact Hus
      | exact Hfails | exact Hc |].
    eexists; eexists; eexists. split; [reflexivity |].
    split; [cbn [buffer_count set_buffers]; rewrite Hcount'; exact Hcount |].
    split; [exact Hclose |]. cbn [script trace fd set_buffers].
    split; [reflexivity |]. split.
    + rewrite !mapped_regions_app, Hmap, Hmap', Hcm. cbn.
      rewrite !app_nil_r. reflexivity.
    + rewrite !unmapped_regions_app, Hun, Hun', Hcu. cbn.
      rewrite !app_nil_r. reflexivity.
  - destruct (init_buffer_stopped_run dev g p f pairs (us ++ fails ++ c :: s)
                tr e Hg Hmin Hk Hp Hall Hf He) as (n & Hinit).
    cbn [app]. rewrite Hinit.
    edestruct (close_video_device_run
                 (set_buffers dev
                    (Some (map Some (pool_cells 0 pairs)
                             ++ Some (mk_video_buf MAP_FAILED 0)
                                  :: replicate n None))
                    (s32 (Z.of_nat (length pairs))))
                 (pool_cells 0 pairs)
                 (Some (mk_video_buf MAP_FAILED 0) :: replicate n None)
                 us fails c s) as (e2 & Hclose);
      [exact Hfd | reflexivity
      | cbn [buffer_count set_buffers]; rewrite pool_cells_length; exact Hcount
      | exact Hcells | rewrite pool_cells_length; exact Hus
      | exact Hfails | exact Hc |].
    eexists; eexists; eexists. split; [reflexivity |].
    split; [exact Hcount |].
    split; [exact Hclose |]. cbn [script trace fd set_buffers].
    split; [reflexivity |]. split.
    + rewrite !mapped_regions_app, Hmap, Hmap', Hcm. cbn.
      rewrite !app_nil_r. reflexivity.
    + rewrite !unmapped_regions_app, Hun, Hun', Hcu. cbn.
      rewrite !app_nil_r. reflexivity.
Qed.

Lemma init_buffer_then_close_witness :
  let q0 := ok_arg (ArgBuffer (mk_buffer 0 1 0 614400 0)) in
  let q1 := ok_arg (ArgBuffer (mk_buffer 1 1 0 614400 614400)) in
  let pairs := [(q0, ok 8192); (q1, ok 626688)] in
  exists dev1 w1 w2,
    init_buffer (set_fd initial_dev 3)
      (boot (ok_arg (ArgReq (mk_req 4 1 1)) :: ok 4096
               :: mapped_replies pairs ++ [fail EINVAL]
               ++ [ok 0; ok 0] ++ [fail 4] ++ ok 0 :: []))
      = Done (NOERROR, dev1) w1
    /\ u32 (buffer_count dev1) = 2
    /\ close_video_device dev1 w1 = Done tt w2
    /\ script w2 = []
    /\ mapped_regions (trace w2) = [(8192, 614400); (626688, 614400)]
    /\ unmapped_regions (trace w2) = [(8192, 614400); (626688, 614400)].
Proof.
  intros q0 q1 pairs.
  apply (init_buffer_then_close (set_fd initial_dev 3)
           (ok_arg (ArgReq (mk_req 4 1 1))) (ok 4096) pairs
           [fail EINVAL] [ok 0; ok 0] [fail 4] (ok 0) [] [] 0).
  - simpl; lia.
  - simpl; lia.
  - vm_compute; discriminate.
  - discriminate.
  - repeat constructor; simpl; try lia; discriminate.
  - right. exists (fail EINVAL). split; [reflexivity |].
    split; [simpl; lia |]. split; [reflexivity | vm_compute; reflexivity].
  - reflexivity.
  - repeat constructor; simpl; lia.
  - simpl; lia.
Defined.

(** ** Capturing frames *)

Lemma created_files_app (a b : list event) :
  created_files (a ++ b) = created_files a ++ created_files b.
Proof. apply flat_map_app. Qed.

Lemma writes_create_nothing (evs : list event) :
  forallb (fun ev => is_write (fst ev)) evs = true ->
  created_files evs = []
  /\ count_events is_select evs = 0%nat
  /\ count_events (is_ioctl VIDIOC_STREAMOFF) evs = 0%nat.
Proof.
  induction evs as [| ev evs IH]; [repeat split; reflexivity |].
  cbn [forallb]. intros [Hev Hall]%andb_true_iff.
  destruct (IH Hall) as (H1 & H2 & H3).
  change (ev :: evs) with ([ev] ++ evs).
  rewrite created_files_app, !count_events_app, H1, H2, H3.
  destruct ev as [[| | fd r a | | | | | | |] rp]; try discriminate.
  repeat split; reflexivity.
Qed.

Lemma frame_files_cons (prefix : string) (i : Z) (fr : frame) (frs : list frame) :
  frame_files prefix i (fr :: frs)
  = frame_path prefix i :: frame_files prefix (i + 1) frs.
Proof.
  unfold frame_files. rewrite imap_cons. cbn [Z.of_nat]. rewrite Z.add_0_r.
  f_equal. apply imap_ext. intros j x _. unfold compose.
  replace (i + Z.of_nat (S j)) with (i + 1 + Z.of_nat j) by lia. reflexivity.
Qed.



Lemma turns_cons (fr : frame) (frs : list frame) :
  turns (fr :: frs) = (length (f_waits fr) + S (turns frs))%nat.
Proof. unfold turns. cbn [map concat length]. rewrite length_app. lia. Qed.

Lemma turns_replies (frs : list frame) :
  (turns frs <= length (all_frames frs))%nat.
Proof.
  induction frs as [| fr frs IH]; [cbn; lia |].
  rewrite turns_cons. unfold all_frames in *. cbn [map concat].
  rewrite length_app.
  assert (Hfr : (length (f_waits fr) + 1 <= length (frame_replies fr))%nat)
    by (unfold frame_replies; rewrite !length_app; cbn [length]; lia).
  lia.
Qed.


(** The writes of a frame, call by call. *)
Lemma write_frame_writes (ws : list reply) :
  forall (fuel : nat) (fd ptr size len wrote : Z)
         (rest : list reply) (tr : list event) (e : Z),
    writes_end len wrote ws = true ->
    (length ws < fuel)%nat ->
    exists e',
      write_frame fuel fd ptr size len wrote (mk_world (ws ++ rest) tr e)
      = Done tt (mk_world rest (tr ++ frame_writes fd ptr size wrote ws) e').
Proof.
  induction ws as [| r ws IH]; intros fuel fd ptr size len wrote rest tr e Hend Hfuel;
    (destruct fuel as [| fuel]; [cbn in Hfuel; lia |]);
    cbn [writes_end] in Hend; cbn [write_frame app frame_writes].
  - destruct (u32 wrote <? u32 len); [discriminate |].
    exists e. rewrite app_nil_r. reflexivity.
  - destruct (u32 wrote <? u32 len); [| discriminate]. run.
    destruct (s32 (rv r) <? 0).
    + destruct ws; [| discriminate]. cbn [app frame_writes].
      eexists. reflexivity.
    + edestruct (IH fuel fd ptr size len) as (e' & Hrun);
        [exact Hend | cbn in Hfuel; lia |].
      rewrite Hrun. exists e'. rewrite <- app_assoc. reflexivity.
Qed.

(** Waits that time out, call by call. *)
Lemma capture_loop_waits_events (args : app_args_t) (dev : video_dev_t)
    (count : Z) (waits : list reply) :
  forall (fuel : nat) (i result : Z) (rest : list reply) (tr : list event) (e : Z),
    Forall timed_out waits -> i < count ->
    exists e',
      capture_loop (length waits + fuel) args dev count i result
        (mk_world (waits ++ rest) tr e)
      = capture_loop fuel args dev count i result
          (mk_world rest
             (tr ++ map (fun r => (SysSelect (fd dev + 1) 40000, r)) waits) e').
Proof.
  induction waits as [| r waits IH]; intros fuel i result rest tr e Hall Hi.
  - exists e. cbn. rewrite app_nil_r. reflexivity.
  - inversion Hall as [| ? ? Hr Hall']; subst.
    cbn [length Nat.add app map]. rewrite capture_loop_turn, (ltb_true _ _ Hi).
    unfold bind at 1.
    rewrite (capture_turn_timed_out args dev i result r _ tr e Hr).
    destruct (IH fuel i result rest (tr ++ [(SysSelect (fd dev + 1) 40000, r)])
                (if rv r <? 0 then re r else e) Hall' Hi) as (e' & Hrun).
    rewrite Hrun. exists e'. rewrite <- app_assoc. reflexivity.
Qed.

(** The turn of the capture loop that captures a frame, call by call. *)
Lemma capture_turn_frame_events (args : app_args_t) (dev : video_dev_t)
    (i result : Z) (fr : frame) (rest : list reply) (tr : list event) (e : Z) :
  frame_good dev fr -> f_waits fr = [] ->
  exists e',
    capture_turn args dev i result (mk_world (frame_replies fr ++ rest) tr e)
    = Done (Continue (i + 1) NOERROR)
        (mk_world rest (tr ++ frame_events args dev i fr) e').
Proof.
  intros (_ & Hsel & Hready & Hd & Hidx & (tbl & b & Htbl & Hcell) & Ho & Hend & Hq)
    Hwaits.
  unfold frame_replies, frame_events, frame_buffer.
  rewrite Hwaits, Htbl, Hcell. cbn [app map]. rewrite <- !app_assoc.
  cbn [app]. unfold capture_turn. run.
  rewrite (ltb_false _ _ Hsel), Hready. cbn [negb].
  unfold read_frame. run. rewrite (ltb_false _ _ Hd).
  fold (dequeued fr). rewrite (ltb_true _ _ Hidx). cbn [negb]. run.
  rewrite (ltb_false _ _ Ho), Htbl, Hcell.
  unfold with_fuel. cbn [script].
  edestruct (write_frame_writes (f_writes fr)
               (S (length (f_writes fr ++ f_close fr :: f_queue fr :: rest))))
    as (e1 & Hrun); [exact Hend | rewrite length_app; lia |].
  rewrite Hrun. run. rewrite (ltb_false _ _ Hq). cbn [Z.eqb NOERROR negb].
  eexists. rewrite <- !app_assoc. reflexivity.
Qed.

(** Frames captured without error, call by call. *)
Lemma capture_loop_frames_events (args : app_args_t) (dev : video_dev_t)
    (count : Z) (frs : list frame) :
  forall (fuel : nat) (i : Z) (rest : list reply) (tr : list event) (e : Z),
    Forall (frame_good dev) frs ->
    i + Z.of_nat (length frs) <= count ->
    exists e',
      capture_loop (turns frs + fuel) args dev count i NOERROR
        (mk_world (all_frames frs ++ rest) tr e)
      = capture_loop fuel args dev count (i + Z.of_nat (length frs)) NOERROR
          (mk_world rest (tr ++ frames_events args dev i frs) e').
Proof.
  induction frs as [| fr frs IH]; intros fuel i rest tr e Hall Hi.
  - exists e. cbn. rewrite Z.add_0_r, app_nil_r. reflexivity.
  - inversion Hall as [| ? ? Hfr Hall']; subst. cbn [length] in Hi.
    pose (fr0 := mk_frame [] (f_select fr) (f_dequeue fr) (f_open fr)
                   (f_writes fr) (f_close fr) (f_queue fr)).
    assert (Hfr0 : frame_good dev fr0).
    { destruct Hfr as (_ & H). split; [constructor | exact H]. }
    assert (Hsplit : all_frames (fr :: frs) ++ rest
                     = f_waits fr ++ frame_replies fr0 ++ all_frames frs ++ rest).
    { change (all_frames (fr :: frs)) with (frame_replies fr ++ all_frames frs).
      change (frame_replies fr) with (f_waits fr ++ frame_replies fr0).
      rewrite <- !app_assoc. reflexivity. }
    assert (Hevents : frame_events args dev i fr
                      = map (fun r => (SysSelect (fd dev + 1) 40000, r)) (f_waits fr)
                          ++ frame_events args dev i fr0)
      by reflexivity.
    rewrite Hsplit, turns_cons, <- Nat.add_assoc.
    destruct (capture_loop_waits_events args dev count (f_waits fr)
                (S (turns frs) + fuel) i NOERROR
                (frame_replies fr0 ++ all_frames frs ++ rest) tr e
                ltac:(apply Hfr) ltac:(lia)) as (e1 & Hrun1).
    rewrite Hrun1. cbn [Nat.add]. rewrite capture_loop_turn.
    rewrite (ltb_true i count) by lia. unfold bind at 1.
    pose (tr1 := tr ++ map (fun r => (SysSelect (fd dev + 1) 40000, r)) (f_waits fr)).
    destruct (capture_turn_frame_events args dev i NOERROR fr0
                (all_frames frs ++ rest) tr1 e1 Hfr0 eq_refl) as (e2 & Hrun2).
    fold tr1. rewrite Hrun2.
    destruct (IH fuel (i + 1) rest (tr1 ++ frame_events args dev i fr0) e2
                Hall' ltac:(lia)) as (e3 & Hrun3).
    rewrite Hrun3. exists e3.
    replace (i + Z.of_nat (length (fr :: frs)))
      with (i + 1 + Z.of_nat (length frs)) by (cbn [length]; lia).
    cbn [frames_events]. rewrite Hevents. unfold tr1.
    rewrite <- !app_assoc. reflexivity.
Qed.

Lemma frame_writes_are_writes (fd ptr size : Z) (ws : list reply) :
  forall wrote,
    forallb (fun ev => is_write (fst ev)) (frame_writes fd ptr size wrote ws) = true.
Proof. induction ws as [| r ws IH]; intros wrote; [reflexivity | apply IH]. Qed.

(** What the calls of captured frames amount to: one file and one
    dequeue for each frame. *)
Lemma frames_events_counts (args : app_args_t) (dev : video_dev_t)
    (frs : list frame) :
  forall i,
    created_files (frames_events args dev i frs)
    = frame_files (cap_prefix args) i frs
    /\ count_events (is_ioctl VIDIOC_DQBUF) (frames_events args dev i frs)
       = length frs.
Proof.
  induction frs as [| fr frs IH]; intros i; [split; reflexivity |].
  destruct (IH (i + 1)) as [Hfiles Hdq].
  assert (Hwaits : forall waits,
             created_files (map (fun r => (SysSelect (fd dev + 1) 40000, r)) waits)
             = []
             /\ count_events (is_ioctl VIDIOC_DQBUF)
                  (map (fun r => (SysSelect (fd dev + 1) 40000, r)) waits) = 0%nat).
  { induction waits as [| r waits [IH1 IH2]]; [split; reflexivity |].
    split; [exact IH1 | exact IH2]. }
  assert (Hwrites : created_files
                      match frame_buffer dev fr with
                      | Some b =>
                          frame_writes (rv (f_open fr)) (addr b) (size b) 0 (f_writes fr)
                      | None => []
                      end = []
                    /\ count_events (is_ioctl VIDIOC_DQBUF)
                         match frame_buffer dev fr with
                         | Some b =>
                             frame_writes (rv (f_open fr)) (addr b) (size b) 0
                               (f_writes fr)
                         | None => []
                         end = 0%nat).
  { destruct (frame_buffer dev fr) as [b |]; [| split; reflexivity].
    pose proof (frame_writes_are_writes (rv (f_open fr)) (addr b) (size b)
                  (f_writes fr) 0) as Hall.
    split; [apply (writes_create_nothing _ Hall) |].
    apply (writes_no_queueing VIDIOC_DQBUF _ Hall). }
  destruct (Hwaits (f_waits fr)) as [Hw1 Hw2]. destruct Hwrites as [Hr1 Hr2].
  cbn [frames_events]. unfold frame_events.
  rewrite frame_files_cons, !created_files_app, !count_events_app.
  rewrite Hfiles, Hdq, Hw1, Hw2, Hr1, Hr2.
  cbn [created_files flat_map fst app]. rewrite Z.eqb_refl.
  split; reflexivity.
Qed.

(** X11.  Once streaming has started, [do_capture] captures as many
    frames as were asked for, none when the count is zero or negative,
    however many waits time out before each frame, and makes the calls of
    these frames and no other.  For frame [j], counted from 0: a buffer is
    dequeued; the file named by the prefix and [j] is created; the memory of
    the buffer dequeued is written to the descriptor of that file, each
    write starting where the one before it stopped, until the length of the
    frame is reached or a write fails; a write that fails ends the writing
    of its frame and is not reported, the frame counts as captured; the file
    is closed and the buffer queued again.  After the last frame
    [do_capture] asks for streaming to stop, as its last call, and returns
    [NOERROR] whatever the answer to that request. *)
Theorem do_capture_all_frames
    (args : app_args_t) (dev : video_dev_t) (w w1 : world)
    (frs : list frame) (off : reply) (s : list reply) :
  start_capture dev w = Done NOERROR w1 ->
  script w1 = all_frames frs ++ off :: s ->
  Forall (frame_good dev) frs ->
  Z.max 0 (cap_count args) = Z.of_nat (length frs) ->
  exists w',
    do_capture args dev w = Done NOERROR w'
    /\ script w' = s
    /\ trace w'
       = trace w1 ++ frames_events args dev 0 frs
           ++ [(SysIoctl (fd dev) VIDIOC_STREAMOFF
                  (ArgType V4L2_BUF_TYPE_VIDEO_CAPTURE), off)]
    /\ created_files (trace w')
       = created_files (trace w1) ++ frame_files (cap_prefix args) 0 frs
    /\ count_events (is_ioctl VIDIOC_DQBUF) (trace w')
       = (count_events (is_ioctl VIDIOC_DQBUF) (trace w1) + length frs)%nat
    /\ last (trace w')
       = Some (SysIoctl (fd dev) VIDIOC_STREAMOFF
                 (ArgType V4L2_BUF_TYPE_VIDEO_CAPTURE), off).
Proof.
  intros Hstart Hscript Hall Hcount.
  unfold do_capture. unfold bind at 1. rewrite Hstart.
  cbn [negb Z.eqb NOERROR]. unfold bind at 1.
  destruct w1 as [sc1 tr1 e1]. cbn [script trace] in *. subst sc1.
  unfold with_fuel. cbn [script].
  pose proof (turns_replies frs) as Hturns.
  replace (S (length (all_frames frs ++ off :: s)))
    with (turns frs + S (length (all_frames frs ++ off :: s) - turns frs))%nat
    by (rewrite length_app; lia).
  destruct (frames_events_counts args dev frs 0) as [Hfiles Hdq].
  destruct frs as [| fr frs].
  - cbn [turns map concat length Nat.add all_frames app frames_events].
    rewrite capture_loop_turn.
    rewrite (ltb_false 0 (cap_count args)) by (cbn [length] in Hcount; lia).
    unfold stop_capture. run.
    eexists. split; [reflexivity |]. split; [reflexivity |].
    split; [reflexivity |].
    rewrite created_files_app, count_events_app. cbn.
    rewrite app_nil_r, Nat.add_0_r. split; [reflexivity |].
    split; [reflexivity | apply last_snoc].
  - assert (Hc : cap_count args = Z.of_nat (length (fr :: frs)))
      by (cbn [length] in *; lia).
    destruct (capture_loop_frames_events args dev (cap_count args) (fr :: frs)
                (S (length (all_frames (fr :: frs) ++ off :: s) - turns (fr :: frs)))
                0 (off :: s) tr1 e1 Hall ltac:(lia)) as (e' & Hrun).
    rewrite Hrun, capture_loop_turn.
    rewrite (ltb_false (0 + Z.of_nat (length (fr :: frs))) (cap_count args)) by lia.
    unfold stop_capture. run.
    eexists. split; [reflexivity |]. split; [reflexivity |].
    split; [rewrite <- app_assoc; reflexivity |].
    rewrite !created_files_app, !count_events_app, Hfiles, Hdq. cbn.
    rewrite app_nil_r. split; [reflexivity |].
    split; [lia | apply last_snoc].
Qed.

(** Three frames on a session of two buffers; the second one comes after
    two waits that time out and is written in two pieces from the second
    buffer; the only write of the third one fails. *)
Lemma do_capture_all_frames_witness :
  let tbl := [Some (mk_video_buf 8192 100); Some (mk_video_buf 12288 100)] in
  let dev := set_buffers (set_fd initial_dev 3) (Some tbl) 2 in
  let args := mk_args "/dev/video0" 640 480 3 "shot" 3 in
  let dq i := ok_arg (ArgBuffer (mk_buffer i 1 1 100 0)) in
  let frs :=
    [mk_frame [] ready (dq 0) (ok 7) [ok 100] (ok 0) (ok 0);
     mk_frame [timeout; fail ETIMEDOUT] ready (dq 1) (ok 7) [ok 60; ok 40]
       (ok 0) (ok 0);
     mk_frame [] ready (dq 0) (ok 7) [fail EIO] (ok 0) (ok 0)] in
  let started :=
    [(SysIoctl 3 VIDIOC_QBUF (ArgBuffer (mk_buffer 0 1 1 0 0)), ok 0);
     (SysIoctl 3 VIDIOC_QBUF (ArgBuffer (mk_buffer 1 1 1 0 0)), ok 0);
     (SysIoctl 3 VIDIOC_STREAMON (ArgType 1), ok 0)] in
  exists w',
    do_capture args dev (boot ([ok 0; ok 0; ok 0] ++ all_frames frs ++ [fail EIO]))
      = Done NOERROR w'
    /\ script w' = []
    /\ trace w'
       = started ++ frames_events args dev 0 frs
           ++ [(SysIoctl 3 VIDIOC_STREAMOFF
                  (ArgType V4L2_BUF_TYPE_VIDEO_CAPTURE), fail EIO)]
    /\ List.filter (fun ev => is_write (fst ev)) (trace w')
       = [(SysWrite 7 8192 100, ok 100);
          (SysWrite 7 12288 100, ok 60); (SysWrite 7 12348 40, ok 40);
          (SysWrite 7 8192 100, fail EIO)]
    /\ created_files (trace w') = ["shot.0"; "shot.1"; "shot.2"]%string
    /\ count_events (is_ioctl VIDIOC_DQBUF) (trace w') = 3%nat
    /\ last (trace w')
       = Some (SysIoctl 3 VIDIOC_STREAMOFF
                 (ArgType V4L2_BUF_TYPE_VIDEO_CAPTURE), fail EIO).
Proof.
  intros tbl dev args dq frs started.
  assert (Hgood : forall waits i ws,
             Forall timed_out waits -> (i = 0 \/ i = 1) ->
             writes_end 100 0 ws = true ->
             frame_good dev (mk_frame waits ready (dq i) (ok 7) ws (ok 0) (ok 0))).
  { intros waits i ws Hw Hi Hws. unfold frame_good, dequeued. cbn.
    split; [exact Hw |]. split; [lia |]. split; [reflexivity |]. split; [lia |].
    destruct Hi as [-> | ->]; (split; [vm_compute; reflexivity |]);
      (split; [eexists; eexists; split; reflexivity |]);
      (split; [lia |]); (split; [exact Hws | lia]). }
  destruct (do_capture_all_frames args dev
              (boot ([ok 0; ok 0; ok 0] ++ all_frames frs ++ [fail EIO]))
              (mk_world (all_frames frs ++ [fail EIO]) started 0)
              frs (fail EIO) [])
    as (w' & Hrun & Hs & Htrace & Hfiles & Hdq & Hlast).
  - reflexivity.
  - reflexivity.
  - constructor; [| constructor; [| constructor; [| constructor]]].
    + apply Hgood; [constructor | left; reflexivity | reflexivity].
    + apply Hgood; [| right; reflexivity | reflexivity].
      constructor; [right; split; [simpl; lia | reflexivity] |].
      constructor; [left; split; [simpl; lia | reflexivity] | constructor].
    + apply Hgood; [constructor | left; reflexivity | reflexivity].
  - reflexivity.
  - exists w'. split; [exact Hrun |]. split; [exact Hs |].
    split; [exact Htrace |].
    split; [rewrite Htrace; vm_compute; reflexivity |].
    split; [exact Hfiles |]. split; [exact Hdq | exact Hlast].
Defined.



(** ** Reading a frame: the buffer and the writes *)

(** X13.  When no buffer can be dequeued, [read_frame] returns
    [MEMORY_DEQUEUEING_FAILED] and the dequeue is the only call it makes:
    no file is created and nothing is queued.  When the kernel hands back a
    buffer whose index is not below the number of buffers of the session,
    the assertion stops the program right after the dequeue, before the
    table of buffers is read. *)
Theorem read_frame_without_buffer
    (args : app_args_t) (dev : video_dev_t) (index : Z) (d : reply)
    (s : list reply) (tr : list event) (e : Z) :
  let dequeue :=
    (SysIoctl (fd dev) VIDIOC_DQBUF
       (ArgBuffer (mk_buffer 0 V4L2_BUF_TYPE_VIDEO_CAPTURE V4L2_MEMORY_MMAP 0 0)),
     d) in
  (rv d < 0 ->
   read_frame args dev index (mk_world (d :: s) tr e)
   = Done MEMORY_DEQUEUEING_FAILED (mk_world s (tr ++ [dequeue]) (re d)))
  /\ (0 <= rv d ->
      u32 (buffer_count dev)
      <= u32 (buf_index
                (out_buffer d
                   (mk_buffer 0 V4L2_BUF_TYPE_VIDEO_CAPTURE V4L2_MEMORY_MMAP 0 0))) ->
      read_frame args dev index (mk_world (d :: s) tr e)
      = Crashed (mk_world s (tr ++ [dequeue]) e)).
Proof.
  intros dequeue. split.
  - intros Hd. unfold read_frame. run. rewrite (ltb_true _ _ Hd). reflexivity.
  - intros Hd Hidx. unfold read_frame. run.
    rewrite (ltb_false _ _ Hd), (ltb_false _ _ Hidx). reflexivity.
Qed.

Lemma read_frame_without_buffer_witness :
  let tbl := [Some (mk_video_buf 8192 100); Some (mk_video_buf 12288 100)] in
  let dev := set_buffers (set_fd initial_dev 3) (Some tbl) 2 in
  let sent := mk_buffer 0 V4L2_BUF_TYPE_VIDEO_CAPTURE V4L2_MEMORY_MMAP 0 0 in
  let stray := ok_arg (ArgBuffer (mk_buffer 2 1 1 100 0)) in
  read_frame default_args dev 0 (boot [fail EIO; ok 7])
  = Done MEMORY_DEQUEUEING_FAILED
      (mk_world [ok 7]
         ([] ++ [(SysIoctl 3 VIDIOC_DQBUF (ArgBuffer sent), fail EIO)]) EIO)
  /\ read_frame default_args dev 0 (boot [stray; ok 7])
     = Crashed
         (mk_world [ok 7] ([] ++ [(SysIoctl 3 VIDIOC_DQBUF (ArgBuffer sent), stray)]) 0).
Proof.
  intros tbl dev sent stray. split.
  - apply (proj1 (read_frame_without_buffer default_args dev 0 (fail EIO)
                    [ok 7] [] 0)). simpl; lia.
  - apply (proj2 (read_frame_without_buffer default_args dev 0 stray
                    [ok 7] [] 0)); [simpl; lia | vm_compute; discriminate].
Defined.

Lemma u32_small (x : Z) : 0 <= x < 2 ^ 32 -> u32 x = x.
Proof. intros H. unfold u32. apply Z.mod_small. exact H. Qed.

Lemma s32_small (x : Z) : 0 <= x < 2 ^ 31 -> s32 x = x.
Proof.
  intros H. unfold s32. cbv zeta. rewrite Z.mod_small by lia.
  destruct (Z.ltb_spec x (2 ^ 31)); [reflexivity | lia].
Qed.

(** X14.  The loop of [read_frame] that writes the frame out resumes a
    short write where it stopped: when each write succeeds, the call that
    follows [wrote] bytes written starts at the address of the buffer plus
    [wrote] and asks for the size of the buffer minus [wrote]; the loop
    ends with the write that brings the bytes written to the length of the
    frame, and [errno] is left as it was. *)
Theorem write_frame_resumes (ws : list reply) :
  forall (fuel : nat) (fd ptr size len wrote : Z)
         (rest : list reply) (tr : list event) (e : Z),
    0 <= len < 2 ^ 32 -> 0 <= wrote < 2 ^ 31 ->
    writes_fill len wrote ws ->
    (length ws < fuel)%nat ->
    write_frame fuel fd ptr size len wrote (mk_world (ws ++ rest) tr e)
    = Done tt (mk_world rest (tr ++ write_events fd ptr size wrote ws) e).
Proof.
  induction ws as [| r ws IH];
    intros fuel fd ptr size len wrote rest tr e Hlen Hwrote Hfill Hfuel;
    (destruct fuel as [| fuel]; [cbn in Hfuel; lia |]);
    cbn [writes_fill] in Hfill; cbn [write_frame app write_events].
  - rewrite (u32_small wrote), (u32_small len) by lia.
    rewrite (ltb_false _ _ Hfill). rewrite app_nil_r. reflexivity.
  - destruct Hfill as (Hlt & Hr & Hsum & Hfill).
    rewrite (u32_small wrote), (u32_small len) by lia.
    rewrite (ltb_true _ _ Hlt). run.
    rewrite (s32_small (rv r)) by lia.
    rewrite (ltb_false _ _ Hr), (s32_small (wrote + rv r)) by lia.
    rewrite (IH fuel fd ptr size len (wrote + rv r) rest)
      by (try assumption; cbn in Hfuel; lia).
    rewrite <- app_assoc. reflexivity.
Qed.

(** A frame of 100 bytes written in pieces of 60, 0 and 40 bytes. *)
Lemma write_frame_resumes_witness :
  write_frame 4 7 8192 100 100 0 (boot ([ok 60; ok 0; ok 40] ++ [ok 0]))
  = Done tt
      (mk_world [ok 0]
         ([] ++ [(SysWrite 7 8192 100, ok 60); (SysWrite 7 8252 40, ok 0);
                 (SysWrite 7 8252 40, ok 40)])
         0).
Proof.
  apply (write_frame_resumes [ok 60; ok 0; ok 40] 4 7 8192 100 100 0 [ok 0] [] 0).
  - lia.
  - lia.
  - cbn. lia.
  - cbn. lia.
Defined.

(** ** Parsing the arguments *)

Lemma parse_args_code (opts : list (ascii * string)) :
  forall args, fst (parse_args opts args) = 0 \/ fst (parse_args opts args) = -1.
Proof.
  induction opts as [| [opt optarg] opts IH]; intros args; cbn [parse_args].
  - left. reflexivity.
  - repeat match goal with
           | |- context [if ?b then _ else _] => destruct b
           end; try apply IH; right; reflexivity.
Qed.

Lemma parse_args_split (a b : list (ascii * string)) (args : app_args_t) :
  parse_args (a ++ b) args
  = if fst (parse_args a args) =? 0
    then parse_args b (snd (parse_args a args))
    else parse_args a args.
Proof.
  revert args. induction a as [| [opt optarg] a IH]; intros args.
  - reflexivity.
  - cbn [app parse_args].
    repeat match goal with
           | |- context [if Ascii.eqb ?x ?y then _ else _] =>
               destruct (Ascii.eqb x y)
           | |- context [if String.eqb ?x ?y then _ else _] =>
               destruct (String.eqb x y)
           | |- context [if ?x >=? ?y then _ else _] => destruct (x >=? y)
           end; try apply IH; reflexivity.
Qed.

(** X15.  Options are taken from left to right and parsing stops at the
    first one that is refused: the options that follow it are not looked
    at, the result is -1 and the arguments are as that option left them.
    When no option of a first part is refused, parsing goes on with what
    follows from the arguments the first part gave. *)
Theorem parse_args_stops_at_refusal
    (a b : list (ascii * string)) (args : app_args_t) :
  (fst (parse_args a args) <> 0 ->
   parse_args (a ++ b) args = parse_args a args
   /\ fst (parse_args (a ++ b) args) = -1)
  /\ (fst (parse_args a args) = 0 ->
      parse_args (a ++ b) args = parse_args b (snd (parse_args a args))).
Proof.
  rewrite parse_args_split. split.
  - intros Hne. rewrite (eqb_false _ _ Hne). split; [reflexivity |].
    destruct (parse_args_code a args) as [H0 | H1]; [contradiction | exact H1].
  - intros H0. rewrite H0. reflexivity.
Qed.

Lemma parse_args_stops_at_refusal_witness :
  let a := [("w"%char, "320"%string); ("f"%char, "9"%string)] in
  let b := [("w"%char, "800"%string)] in
  parse_args (a ++ b) default_args
  = (-1, mk_args "/dev/video0" 320 480 9 "video.cap" 1)
  /\ parse_args ([("w"%char, "320"%string)] ++ b) default_args
     = (0, mk_args "/dev/video0" 800 480 3 "video.cap" 1).
Proof.
  intros a b. split.
  - destruct (proj1 (parse_args_stops_at_refusal a b default_args)) as [Heq _].
    + vm_compute. discriminate.
    + rewrite Heq. vm_compute. reflexivity.
  - rewrite (proj2 (parse_args_stops_at_refusal [("w"%char, "320"%string)] b
                      default_args)).
    + vm_compute. reflexivity.
    + vm_compute. reflexivity.
Defined.

(** X16.  Successful parsing keeps the pixel format index below the
    number of supported formats: when the index is below it before, as the
    default is, and no option is refused, it is below it after.  For
    arguments that come out of [parse_args] the fallback of
    [to_v4l2_pixel_format] is therefore never taken: the format is read from
    the table at the index given, and a value is found there exactly when
    the index is not negative. *)
Theorem parse_args_format_bound (opts : list (ascii * string)) :
  forall args,
    pixel_format args < NUMBER_OF_SUPPORTED_PIXEL_FORMATS ->
    fst (parse_args opts args) = 0 ->
    let format := pixel_format (snd (parse_args opts args)) in
    format < NUMBER_OF_SUPPORTED_PIXEL_FORMATS
    /\ to_v4l2_pixel_format format = array_get PIXEL_FORMATS format
    /\ (is_Some (to_v4l2_pixel_format format) <-> 0 <= format).
Proof.
  assert (Hbound : forall args,
             pixel_format args < NUMBER_OF_SUPPORTED_PIXEL_FORMATS ->
             fst (parse_args opts args) = 0 ->
             pixel_format (snd (parse_args opts args))
             < NUMBER_OF_SUPPORTED_PIXEL_FORMATS).
  { induction opts as [| [opt optarg] opts IH]; intros args Hlt; cbn [parse_args].
    - intros _. exact Hlt.
    - destruct (Ascii.eqb opt "d").
      { destruct (String.eqb optarg ""); [discriminate | apply IH; exact Hlt]. }
      destruct (Ascii.eqb opt "w"); [apply IH; exact Hlt |].
      destruct (Ascii.eqb opt "h"); [apply IH; exact Hlt |].
      destruct (Ascii.eqb opt "f").
      { cbv zeta. cbn [pixel_format set_pixel_format].
        destruct (Z.geb_spec (atoi optarg) NUMBER_OF_SUPPORTED_PIXEL_FORMATS);
          [discriminate | apply IH; cbn; lia]. }
      destruct (Ascii.eqb opt "p"); [apply IH; exact Hlt |].
      destruct (Ascii.eqb opt "n"); apply IH; exact Hlt. }
  intros args Hlt Hok format. specialize (Hbound args Hlt Hok). fold format in Hbound.
  split; [exact Hbound |].
  unfold to_v4l2_pixel_format.
  destruct (Z.geb_spec format NUMBER_OF_SUPPORTED_PIXEL_FORMATS); [lia |].
  split; [reflexivity |]. split.
  - intros [code Hcode]. destruct (Z.ltb_spec format 0) as [Hneg |]; [| lia].
    rewrite (array_get_negative _ _ Hneg) in Hcode. discriminate.
  - intros Hpos. rewrite array_get_inside by exact Hpos.
    apply lookup_lt_is_Some. unfold NUMBER_OF_SUPPORTED_PIXEL_FORMATS in *.
    cbn [length PIXEL_FORMATS]. lia.
Qed.

Lemma parse_args_format_bound_witness :
  let opts := [("w"%char, "320"%string); ("f"%char, "5"%string);
               ("x"%char, ""%string); ("f"%char, "1"%string)] in
  parse_args opts default_args
  = (0, mk_args "/dev/video0" 320 480 1 "video.cap" 1)
  /\ to_v4l2_pixel_format 1 = array_get PIXEL_FORMATS 1
  /\ (is_Some (to_v4l2_pixel_format 1) <-> 0 <= 1).
Proof.
  intros opts. split; [vm_compute; reflexivity |].
  destruct (parse_args_format_bound opts default_args) as (_ & H1 & H2).
  - vm_compute. reflexivity.
  - vm_compute. reflexivity.
  - split; [exact H1 | exact H2].
Defined.

(** X17.  An option [-f] whose value is at or above the number of
    supported formats, or an option [-d] whose argument is empty, wherever
    it stands among the options, makes [main] return [INVALID_ARGUMENTS]
    without a single call: the device is not opened. *)
Theorem main_rejects_arguments
    (before after : list (ascii * string)) (opt : ascii) (optarg : string)
    (w : world) :
  (opt = "f"%char /\ NUMBER_OF_SUPPORTED_PIXEL_FORMATS <= atoi optarg)
  \/ (opt = "d"%char /\ optarg = ""%string) ->
  main (before ++ (opt, optarg) :: after) w = Done INVALID_ARGUMENTS w.
Proof.
  intros Hbad.
  assert (Hfail : fst (parse_args (before ++ (opt, optarg) :: after) default_args)
                  = -1).
  { rewrite parse_args_split.
    destruct (parse_args_code before default_args) as [H0 | H1].
    - rewrite H0. cbn [Z.eqb].
      destruct Hbad as [[-> Hf] | [-> ->]]; cbn [parse_args Ascii.eqb Bool.eqb].
      + cbv zeta. cbn [pixel_format set_pixel_format].
        rewrite (geb_true _ _ Hf). reflexivity.
      + reflexivity.
    - rewrite H1. cbn [Z.eqb]. exact H1. }
  unfold main.
  destruct (parse_args (before ++ (opt, optarg) :: after) default_args)
    as [failed args].
  cbn [fst] in Hfail. subst failed. reflexivity.
Qed.

Lemma main_rejects_arguments_witness :
  main ([("w"%char, "320"%string)] ++ ("f"%char, "8"%string) :: [])
    (boot [ok 3])
  = Done INVALID_ARGUMENTS (boot [ok 3])
  /\ main ([] ++ ("d"%char, ""%string) :: [("n"%char, "5"%string)]) (boot [ok 3])
     = Done INVALID_ARGUMENTS (boot [ok 3]).
Proof.
  split.
  - apply main_rejects_arguments. left. split; [reflexivity |].
    vm_compute. discriminate.
  - apply main_rejects_arguments. right. split; reflexivity.
Defined.

(** ** What a function may return *)

Section Returns.
Context {A B : Type}.

Lemma returns_pure (P : A -> Prop) (a : A) : P a -> returns P (pure a).
Proof. intros Ha w a' w' [= <- <-]. exact Ha. Qed.

Lemma returns_crash (P : A -> Prop) : returns P crash.
Proof. intros w a w' H. discriminate H. Qed.

Lemma returns_starve (P : A -> Prop) : returns P starve.
Proof. intros w a w' H. discriminate H. Qed.

Lemma returns_bind (P : B -> Prop) (m : M A) (k : A -> M B) :
  (forall a, returns P (k a)) -> returns P (bind m k).
Proof.
  intros Hk w b w'. unfold bind.
  destruct (m w) as [a w1 | |]; [apply Hk | discriminate ..].
Qed.

Lemma returns_bind_from (Q : A -> Prop) (P : B -> Prop) (m : M A) (k : A -> M B) :
  returns Q m -> (forall a, Q a -> returns P (k a)) -> returns P (bind m k).
Proof.
  intros Hm Hk w b w'. unfold bind.
  destruct (m w) as [a w1 | |] eqn:Hrun; [| discriminate ..].
  apply Hk. apply (Hm w a w1 Hrun).
Qed.

Lemma returns_with_fuel (P : A -> Prop) (f : nat -> M A) :
  (forall fuel, returns P (f fuel)) -> returns P (with_fuel f).
Proof. intros Hf w. unfold with_fuel. apply Hf. Qed.
End Returns.

Ltac returns_step :=
  lazymatch goal with
  | |- returns _ (bind _ _) => apply returns_bind; intros ?
  | |- returns _ (pure _) => apply returns_pure
  | |- returns _ crash => apply returns_crash
  | |- returns _ starve => apply returns_starve
  | |- returns _ (with_fuel _) => apply returns_with_fuel; intros ?
  | |- returns _ (if ?b then _ else _) => destruct b
  | |- returns _ (match ?x with _ => _ end) => destruct x
  | |- returns _ (let _ := _ in _) => cbv zeta
  end.

Lemma error_code_constant (code : Z) :
  code = NOERROR \/
  In code [INVALID_ARGUMENTS; INVALID_FORMAT_ARGUMENTS; VIDEO_DEVICE_BUSY;
           VIDEO_DEVICE_OPEN_FAILED; VIDEO_DEVICE_NOCAPS; VIDEO_DEVICE_NOCROPCAPS;
           VIDEO_DEVICE_CAPTURE_NOT_SUPPORTED; VIDEO_DEVICE_CROPPING_FAILED;
           VIDEO_DEVICE_ENUM_FORMAT_FAILED; VIDEO_DEVICE_QUERY_BUFFER_FAILED;
           VIDEO_DEVICE_STREAMING_FAILED; IO_METHOD_NOT_SUPPORTED; IO_ERROR;
           IO_FILE_NOT_CREATED; MEMORY_MAPPING_FAILED; MEMORY_QUEUEING_FAILED;
           MEMORY_DEQUEUEING_FAILED; INSUFFICIENT_MEMORY; NOT_PERMITTED] ->
  is_error_code code.
Proof.
  intros [-> | Hin]; [left; reflexivity |]. right.
  cbn [In] in Hin.
  repeat (destruct Hin as [<- | Hin]; [vm_compute; split; discriminate |]).
  contradiction.
Qed.

Ltac error_code :=
  apply error_code_constant; cbn [In]; tauto.

Lemma returns_enum_formats (dev : video_dev_t) :
  forall fuel i, returns is_error_code (enum_formats fuel dev i).
Proof.
  induction fuel as [| fuel IH]; intros i; cbn [enum_formats].
  - apply returns_starve.
  - apply returns_bind. intros r. destruct (rv r <? 0); [| apply IH].
    repeat returns_step; error_code.
Qed.

Lemma returns_query_buffers (dev : video_dev_t) :
  forall n tbl i,
    returns (fun x => is_error_code (fst (fst x))) (query_buffers n dev tbl i).
Proof.
  induction n as [| n IH]; intros tbl i; cbn [query_buffers].
  - apply returns_pure. cbn. error_code.
  - apply returns_bind. intros r. destruct (rv r <? 0).
    + repeat returns_step; cbn; error_code.
    + apply returns_bind. intros m.
      destruct (rv m =? MAP_FAILED); [apply returns_pure; cbn; error_code | apply IH].
Qed.

Lemma returns_queue_retry (dev : video_dev_t) :
  forall n i retry,
    returns (fun x => is_error_code (fst x)) (queue_retry n dev i retry).
Proof.
  induction n as [| n IH]; intros i retry; cbn [queue_retry].
  - apply returns_pure. cbn. error_code.
  - apply returns_bind. intros r.
    destruct (rv r =? 0); [apply returns_pure; cbn; error_code |].
    apply returns_bind. intros e.
    apply (returns_bind_from is_error_code).
    + repeat returns_step; error_code.
    + intros result Hres.
      destruct (negb (result =? NOERROR)); [apply returns_pure; exact Hres | apply IH].
Qed.

Lemma returns_queue_buffers (dev : video_dev_t) :
  forall n i, returns is_error_code (queue_buffers n dev i).
Proof.
  induction n as [| n IH]; intros i; cbn [queue_buffers].
  - apply returns_pure. error_code.
  - apply (returns_bind_from (fun x => is_error_code (fst x)));
      [apply returns_queue_retry |].
    intros [result retry] Hres. cbn [fst] in Hres. cbv zeta.
    destruct (retry >=? 5).
    + cbn [negb Z.eqb MEMORY_QUEUEING_FAILED NOERROR]. apply returns_pure. error_code.
    + destruct (negb (result =? NOERROR)); [apply returns_pure; exact Hres | apply IH].
Qed.

Lemma returns_read_frame (args : app_args_t) (dev : video_dev_t) (index : Z) :
  returns is_error_code (read_frame args dev index).
Proof.
  unfold read_frame. apply returns_bind. intros r.
  destruct (rv r <? 0); [apply returns_pure; error_code |]. cbv zeta.
  destruct (negb _); [apply returns_crash |].
  apply returns_bind. intros o.
  apply (returns_bind_from is_error_code).
  - repeat returns_step; error_code.
  - intros result Hres. apply returns_bind. intros q.
    destruct (rv q <? 0); apply returns_pure; [error_code | exact Hres].
Qed.

Lemma returns_capture_loop (args : app_args_t) (dev : video_dev_t) (count : Z) :
  forall fuel i result,
    is_error_code result ->
    returns is_error_code (capture_loop fuel args dev count i result).
Proof.
  induction fuel as [| fuel IH]; intros i result Hres; cbn [capture_loop].
  - apply returns_starve.
  - destruct (i <? count); [| apply returns_pure; exact Hres].
    apply (returns_bind_from
             (fun t => match t with
                       | Continue _ r | Break r => is_error_code r
                       end)).
    + unfold capture_turn. apply returns_bind. intros s.
      destruct (rv s <? 0).
      { repeat returns_step; exact Hres. }
      destruct (negb (rready s)); [apply returns_pure; exact Hres |].
      apply (returns_bind_from is_error_code); [apply returns_read_frame |].
      intros r Hr. destruct (negb (NOERROR =? r)); apply returns_pure; exact Hr.
    + intros [i' r | r] Hr; [apply IH; exact Hr | apply returns_pure; exact Hr].
Qed.

Lemma returns_do_capture (args : app_args_t) (dev : video_dev_t) :
  returns is_error_code (do_capture args dev).
Proof.
  unfold do_capture. apply (returns_bind_from is_error_code).
  - unfold start_capture.
    apply (returns_bind_from is_error_code); [apply returns_queue_buffers |].
    intros result Hres.
    destruct (negb (result =? NOERROR)); [apply returns_pure; exact Hres |].
    apply returns_bind. intros r.
    destruct (rv r <? 0); apply returns_pure; [error_code | exact Hres].
  - intros result Hres.
    destruct (negb (NOERROR =? result)); [apply returns_pure; exact Hres |].
    apply (returns_bind_from is_error_code).
    + apply returns_with_fuel. intros fuel. apply returns_capture_loop. exact Hres.
    + intros r Hr. apply returns_bind. intros _. apply returns_pure. exact Hr.
Qed.

Lemma returns_release_buffers :
  forall n tbl i, returns (fun _ : cells => True) (release_buffers n tbl i).
Proof. intros n tbl i w a w' _. exact I. Qed.

Lemma returns_init_buffer (dev : video_dev_t) :
  returns (fun x => is_error_code (fst x) /\ fd (snd x) = fd dev) (init_buffer dev).
Proof.
  unfold init_buffer. apply returns_bind. intros g.
  apply (returns_bind_from refusal).
  { repeat returns_step; cbn [refusal]; try exact I; error_code. }
  intros [code |] Hcode; cbn [refusal] in Hcode.
  - apply returns_pure. split; [exact Hcode | reflexivity].
  - cbv zeta. destruct (_ <? 2); [apply returns_pure; split; [error_code | reflexivity] |].
    apply returns_bind. intros p.
    destruct (rv p =? NULL); [apply returns_pure; split; [error_code | reflexivity] |].
    apply (returns_bind_from (fun x => is_error_code (fst (fst x))));
      [apply returns_query_buffers |].
    intros [[result tbl] i] Hres. cbn [fst] in Hres.
    destruct (negb (result =? NOERROR)).
    + repeat returns_step. split; [exact Hres | reflexivity].
    + apply returns_pure. split; [exact Hres | reflexivity].
Qed.

Lemma returns_init_video_device (args : app_args_t) (dev : video_dev_t) :
  returns (fun x => is_error_code (fst x) /\ fd (snd x) = fd dev)
    (init_video_device args dev).
Proof.
  unfold init_video_device. apply returns_bind. intros c. apply returns_bind.
  intros [|]; [apply returns_pure; split; [error_code | reflexivity] |].
  destruct (to_v4l2_pixel_format _) as [code |]; [| apply returns_crash].
  cbv zeta. apply returns_bind. intros f.
  apply (returns_bind_from refusal).
  { repeat returns_step; cbn [refusal]; try exact I; error_code. }
  intros [refused |] Hcode; cbn [refusal] in Hcode.
  - apply returns_pure. split; [exact Hcode | reflexivity].
  - apply returns_bind. intros _.
    intros w a w' Hrun. apply returns_init_buffer in Hrun. exact Hrun.
Qed.

Lemma returns_open_video_device (args : app_args_t) (dev : video_dev_t) :
  returns (fun x => is_error_code (fst x) /\ (fst x = NOERROR -> 0 <= fd (snd x)))
    (open_video_device args dev).
Proof.
  unfold open_video_device. apply returns_bind. intros o. cbv zeta.
  destruct (fd (set_fd dev (rv o)) <? 0) eqn:Hfd.
  - repeat returns_step; (split; [error_code | discriminate]).
  - apply Z.ltb_ge in Hfd. apply returns_bind. intros r.
    destruct (rv r <? 0).
    { repeat returns_step. split; [error_code | discriminate]. }
    destruct (Z.land _ _ =? 0).
    { repeat returns_step. split; [error_code | discriminate]. }
    apply returns_bind. intros cc.
    destruct (rv cc <? 0); [apply returns_pure; split; [error_code | discriminate] |].
    apply (returns_bind_from is_error_code).
    + apply returns_with_fuel. intros fuel. apply returns_enum_formats.
    + intros code Hcode. apply returns_pure. split; [exact Hcode |].
      intros _. exact Hfd.
Qed.

(** X18.  Whatever the options and whatever the kernel answers, the value
    [main] returns is a member of [enum ERRORS]: [NOERROR] or a code from
    [INVALID_ARGUMENTS] (100) to [NOT_PERMITTED] (118).  No return value of
    a system call and no [errno] reaches the exit status. *)
Theorem main_exit_codes
    (opts : list (ascii * string)) (w : world) (code : Z) (w' : world) :
  main opts w = Done code w' ->
  code = NOERROR \/ (INVALID_ARGUMENTS <= code <= NOT_PERMITTED).
Proof.
  revert w code w'. change (returns is_error_code (main opts)).
  unfold main. destruct (parse_args opts default_args) as [failed args].
  destruct (negb (failed =? 0)); [apply returns_pure; error_code |].
  apply (returns_bind_from (fun x => is_error_code (fst x))).
  { intros w a w' Hrun. apply returns_open_video_device in Hrun. apply Hrun. }
  intros [code dev] Hcode. cbn [fst] in Hcode.
  destruct (negb (NOERROR =? code)); [apply returns_pure; exact Hcode |].
  apply (returns_bind_from (fun x => is_error_code (fst x))).
  { intros w a w' Hrun. apply returns_init_video_device in Hrun. apply Hrun. }
  intros [code' dev'] Hcode'. cbn [fst] in Hcode'.
  apply (returns_bind_from is_error_code).
  - destruct (NOERROR =? code'); [apply returns_do_capture | apply returns_pure; exact Hcode'].
  - intros c Hc. apply returns_bind. intros _. apply returns_pure. exact Hc.
Qed.

(** A run where the device is busy when the buffers are requested. *)
Lemma main_exit_codes_witness :
  let s := [ok 3; ok_arg (ArgCapability (mk_capability 0 1));
            ok 0; fail EINVAL; ok 0; ok 0; ok 0; fail EBUSY; ok 0] in
  main [] (boot s) = Done VIDEO_DEVICE_BUSY (world_of (main [] (boot s)))
  /\ (VIDEO_DEVICE_BUSY = NOERROR
      \/ INVALID_ARGUMENTS <= VIDEO_DEVICE_BUSY <= NOT_PERMITTED).
Proof.
  intros s. split; [reflexivity |].
  apply (main_exit_codes [] (boot s) VIDEO_DEVICE_BUSY (world_of (main [] (boot s)))).
  reflexivity.
Defined.

(** ** The descriptor of the device is closed *)

Lemma close_retry_done (fd : Z) :
  forall fuel w w',
    close_retry fuel fd w = Done tt w' ->
    exists r, last (trace w') = Some (SysClose fd, r) /\ 0 <= rv r.
Proof.
  induction fuel as [| fuel IH]; intros w w' Hrun; cbn [close_retry] in Hrun.
  - discriminate Hrun.
  - unfold bind, call in Hrun. destruct (script w) as [| r s]; [discriminate |].
    destruct (rv r <? 0) eqn:Hr.
    + apply (IH _ _ Hrun).
    + injection Hrun as <-. exists r. cbn [trace].
      split; [apply last_snoc | apply Z.ltb_ge, Hr].
Qed.

Lemma close_video_device_done (dev : video_dev_t) (w w' : world) :
  0 <= fd dev ->
  close_video_device dev w = Done tt w' ->
  exists r, last (trace w') = Some (SysClose (fd dev), r) /\ 0 <= rv r.
Proof.
  intros Hfd Hrun. unfold close_video_device in Hrun.
  destruct (0 >? fd dev) eqn:Hneg; [apply Z.gtb_lt in Hneg; lia |].
  unfold bind at 1 in Hrun.
  match type of Hrun with
  | match ?m with _ => _ end = _ => destruct m as [[] w1 | |]; [| discriminate ..]
  end.
  unfold with_fuel in Hrun. apply (close_retry_done _ _ _ _ Hrun).
Qed.

Lemma open_video_device_descriptor
    (args : app_args_t) (dev0 dev : video_dev_t) (w w1 : world) :
  open_video_device args dev0 w = Done (NOERROR, dev) w1 ->
  exists o s, script w = o :: s /\ fd dev = rv o /\ 0 <= rv o.
Proof.
  unfold open_video_device. unfold bind at 1. unfold call at 1.
  destruct (script w) as [| o s]; [discriminate |].
  cbv zeta. cbn [fd set_fd set_caps set_cropcaps].
  destruct (rv o <? 0) eqn:Ho.
  - unfold bind, get_errno. repeat (destruct (_ =? _)); discriminate.
  - apply Z.ltb_ge in Ho. unfold bind at 1.
    destruct (ioctl _ _ _ _) as [r w2 | |]; [| discriminate ..].
    destruct (rv r <? 0).
    { unfold bind. destruct (call _ _); discriminate. }
    destruct (Z.land _ _ =? 0).
    { unfold bind. destruct (call _ _); discriminate. }
    unfold bind at 1. destruct (ioctl _ _ _ _) as [cc w3 | |]; [| discriminate ..].
    destruct (rv cc <? 0); [discriminate |].
    unfold bind. destruct (with_fuel _ _) as [code w4 | |]; [| discriminate ..].
    intros [= -> <- <-]. exists o, s. cbn [fd set_fd set_caps set_cropcaps].
    auto.
Qed.

(** X19.  Once [open_video_device] has returned [NOERROR], a run of
    [main] that returns has closed the descriptor of the device: the last
    call of the run is [close] on the value that [open] returned, and it is
    a [close] that succeeded.  This holds whether the setup and the capture
    that follow succeed or fail. *)
Theorem main_closes_descriptor
    (opts : list (ascii * string)) (args : app_args_t) (dev : video_dev_t)
    (w w1 : world) (code : Z) (w' : world) :
  parse_args opts default_args = (0, args) ->
  open_video_device args initial_dev w = Done (NOERROR, dev) w1 ->
  main opts w = Done code w' ->
  exists o r,
    head (script w) = Some o
    /\ 0 <= rv o
    /\ last (trace w') = Some (SysClose (rv o), r)
    /\ 0 <= rv r.
Proof.
  intros Hparse Hopen Hrun.
  destruct (open_video_device_descriptor _ _ _ _ _ Hopen) as (o & s & Hs & Hfd & Ho).
  unfold main in Hrun. rewrite Hparse in Hrun.
  cbn [Z.eqb negb] in Hrun. unfold bind at 1 in Hrun. rewrite Hopen in Hrun.
  cbn [NOERROR Z.eqb negb] in Hrun. unfold bind at 1 in Hrun.
  destruct (init_video_device args dev w1) as [[code2 dev2] w2 | |] eqn:Hinit;
    [| discriminate ..].
  destruct (returns_init_video_device _ _ _ _ _ Hinit) as [_ Hfd2].
  cbn [snd] in Hfd2. unfold bind at 1 in Hrun.
  match type of Hrun with
  | match ?m with _ => _ end = _ => destruct m as [code3 w3 | |]; [| discriminate ..]
  end.
  unfold bind in Hrun.
  destruct (close_video_device dev2 w3) as [[] w4 | |] eqn:Hclose;
    [| discriminate ..].
  injection Hrun as _ <-.
  destruct (close_video_device_done dev2 w3 w4 ltac:(lia) Hclose) as (r & Hlast & Hr).
  exists o, r. rewrite Hs. cbn [head].
  assert (Heq : fd dev2 = rv o) by congruence.
  rewrite <- Heq. repeat split; solve [assumption | lia].
Qed.

(** A run where the format is refused, and a run that captures one
    frame: both end with the descriptor closed, the second after a [close]
    that failed and was made again. *)
Lemma main_closes_descriptor_witness :
  let cap := ok_arg (ArgCapability (mk_capability 0 1)) in
  let s1 := [ok 3; cap; ok 0; fail EINVAL; ok 0; fail EINVAL; ok 0] in
  let s2 := [ok 3; cap; ok 0; fail EINVAL; ok 0; ok 0; ok 0;
             ok_arg (ArgReq (mk_req 2 1 1)); ok 4096;
             ok_arg (ArgBuffer (mk_buffer 0 1 1 8 0)); ok 8192;
             ok_arg (ArgBuffer (mk_buffer 1 1 1 8 8)); ok 12288;
             ok 0; ok 0; ok 0;
             ready; ok_arg (ArgBuffer (mk_buffer 1 1 1 8 0)); ok 5; ok 8; ok 0; ok 0;
             ok 0; ok 0; ok 0; fail EIO; ok 0] in
  (exists o r,
     head (script (boot s1)) = Some o /\ 0 <= rv o
     /\ last (trace (world_of (main [] (boot s1)))) = Some (SysClose (rv o), r)
     /\ 0 <= rv r)
  /\ value_of (main [] (boot s1)) = Some INVALID_FORMAT_ARGUMENTS
  /\ (exists o r,
        head (script (boot s2)) = Some o /\ 0 <= rv o
        /\ last (trace (world_of (main [("c"%char, "1"%string)] (boot s2))))
           = Some (SysClose (rv o), r)
        /\ 0 <= rv r)
  /\ value_of (main [("c"%char, "1"%string)] (boot s2)) = Some NOERROR
  /\ script (world_of (main [("c"%char, "1"%string)] (boot s2))) = [].
Proof.
  intros cap s1 s2. split; [| split; [| split; [| split]]].
  - eapply (main_closes_descriptor [] default_args _ (boot s1) _ _ _).
    + reflexivity.
    + vm_compute. reflexivity.
    + vm_compute. reflexivity.
  - vm_compute. reflexivity.
  - eapply (main_closes_descriptor [("c"%char, "1"%string)] _ _ (boot s2) _ _ _).
    + vm_compute. reflexivity.
    + vm_compute. reflexivity.
    + vm_compute. reflexivity.
  - vm_compute. reflexivity.
  - vm_compute. reflexivity.
Defined.

(** ** Starting the capture: the other ways it fails *)

(** X20.  [start_capture], with the buffers [bs] already queued:
    - when an attempt for the next buffer, after fewer than five that were
      retried, fails with an [errno] other than EINVAL, EIO, ENOMEM and
      EAGAIN, the start fails with [MEMORY_QUEUEING_FAILED] at once: that
      attempt is the last call, it is not retried, no sleep follows it and
      streaming is not started;
    - when all the buffers are queued and VIDIOC_STREAMON fails, whatever
      the [errno], the start fails with [VIDEO_DEVICE_STREAMING_FAILED];
      VIDIOC_STREAMON is asked once and is the last call: the buffers stay
      queued. *)
Theorem start_capture_other_failures
    (dev : video_dev_t) (bs : list (list (reply * reply) * reply))
    (ts : list (reply * reply)) (tr : list event) (e : Z) :
  Forall queued_well bs ->
  Forall (fun qu => transient (fst qu)) ts ->
  ((length bs < Z.to_nat (u32 (buffer_count dev)))%nat ->
   (length ts < 5)%nat ->
   forall f s,
     rv f < 0 ->
     re f <> EINVAL -> re f <> EIO -> re f <> ENOMEM -> re f <> EAGAIN ->
     exists w',
       start_capture dev
         (mk_world (all_queued bs ++ retried_replies ts ++ f :: s) tr e)
         = Done MEMORY_QUEUEING_FAILED w'
       /\ script w' = s
       /\ last (trace w')
          = Some (SysIoctl (fd dev) VIDIOC_QBUF
                    (ArgBuffer
                       (mk_buffer (Z.of_nat (length bs))
                          V4L2_BUF_TYPE_VIDEO_CAPTURE V4L2_MEMORY_MMAP 0 0)), f)
       /\ count_events is_usleep (trace w')
          = (count_events is_usleep tr + retries bs + length ts)%nat
       /\ count_events (is_ioctl VIDIOC_STREAMON) (trace w')
          = count_events (is_ioctl VIDIOC_STREAMON) tr)
  /\ (length bs = Z.to_nat (u32 (buffer_count dev)) ->
      forall on s,
        rv on < 0 ->
        exists w',
          start_capture dev (mk_world (all_queued bs ++ on :: s) tr e)
            = Done VIDEO_DEVICE_STREAMING_FAILED w'
          /\ script w' = s
          /\ last (trace w')
             = Some (SysIoctl (fd dev) VIDIOC_STREAMON
                       (ArgType V4L2_BUF_TYPE_VIDEO_CAPTURE), on)
          /\ count_events (is_ioctl VIDIOC_STREAMON) (trace w')
             = S (count_events (is_ioctl VIDIOC_STREAMON) tr)
          /\ count_events (is_ioctl VIDIOC_QBUF) (trace w')
             = (count_events (is_ioctl VIDIOC_QBUF) tr
                + (retries bs + length bs))%nat).
Proof.
  intros Hbs Hts. split.
  - intros Hlen Hfew f s Hf H1 H2 H3 H4. unfold start_capture. unfold bind at 1.
    destruct (queue_buffers_queued bs
                (Z.to_nat (u32 (buffer_count dev)) - length bs) dev 0
                (retried_replies ts ++ f :: s) tr e Hbs)
      as (evs & e' & Hrun & _ & Hus & Hon).
    replace (length bs + (Z.to_nat (u32 (buffer_count dev)) - length bs))%nat
      with (Z.to_nat (u32 (buffer_count dev))) in Hrun by lia.
    rewrite Hrun.
    destruct (Z.to_nat (u32 (buffer_count dev)) - length bs)%nat
      as [| m] eqn:Hm; [lia |].
    cbn [queue_buffers]. unfold bind at 1.
    destruct (queue_retry_transients ts (5 - length ts) dev
                (0 + Z.of_nat (length bs)) 0 (f :: s) (tr ++ evs) e' Hts)
      as (evs' & e'' & Hrun' & _ & Hus' & Hon').
    replace (length ts + (5 - length ts))%nat with 5%nat in Hrun' by lia.
    rewrite Hrun'.
    destruct (5 - length ts)%nat as [| k] eqn:Hk; [lia |].
    cbn [queue_retry]. run.
    rewrite (eqb_false (rv f) 0) by lia. rewrite (ltb_true _ _ Hf).
    rewrite !Z.add_0_l.
    rewrite (eqb_false _ _ H1), (eqb_false _ _ H2), (eqb_false _ _ H3),
      (eqb_false _ _ H4).
    cbn [orb]. run.
    cbn [Z.eqb negb MEMORY_QUEUEING_FAILED NOERROR].
    rewrite (geb_false (Z.of_nat (length ts)) 5) by lia.
    cbn [Z.eqb negb].
    eexists. split; [reflexivity |]. split; [reflexivity |].
    split; [apply last_snoc |]. cbn [trace].
    rewrite !count_events_app, Hus, Hon, Hus', Hon'. cbn. lia.
  - intros Hlen on s Hon. unfold start_capture. unfold bind at 1.
    destruct (queue_buffers_queued bs 0 dev 0 (on :: s) tr e Hbs)
      as (evs & e' & Hrun & Hqs & _ & Hons).
    rewrite Nat.add_0_r, Hlen in Hrun. rewrite Hrun.
    cbn [queue_buffers]. run. cbn [negb Z.eqb NOERROR].
    rewrite (ltb_true _ _ Hon).
    eexists. split; [reflexivity |]. split; [reflexivity |].
    cbn [trace]. split; [apply last_snoc |].
    rewrite !count_events_app, Hqs, Hons. cbn. lia.
Qed.

(** On a session of two buffers: the second buffer refused with ENODEV
    after one attempt that was retried, and streaming refused with
    ENOSPC. *)
Lemma start_capture_other_failures_witness :
  let tbl := [Some (mk_video_buf 8192 100); Some (mk_video_buf 12288 100)] in
  let dev := set_buffers (set_fd initial_dev 3) (Some tbl) 2 in
  let t := (fail ENOMEM, ok 0) in
  (exists w',
     start_capture dev
       (boot (all_queued [([], ok 0)] ++ retried_replies [t] ++ fail 19 :: [ok 0]))
       = Done MEMORY_QUEUEING_FAILED w'
     /\ script w' = [ok 0]
     /\ last (trace w')
        = Some (SysIoctl 3 VIDIOC_QBUF
                  (ArgBuffer (mk_buffer 1 V4L2_BUF_TYPE_VIDEO_CAPTURE
                                V4L2_MEMORY_MMAP 0 0)), fail 19)
     /\ count_events is_usleep (trace w') = 1%nat
     /\ count_events (is_ioctl VIDIOC_STREAMON) (trace w') = 0%nat)
  /\ (exists w',
        start_capture dev
          (boot (all_queued [([t], ok 0); ([], ok 0)] ++ fail 28 :: [ok 0]))
          = Done VIDEO_DEVICE_STREAMING_FAILED w'
        /\ script w' = [ok 0]
        /\ last (trace w')
           = Some (SysIoctl 3 VIDIOC_STREAMON
                     (ArgType V4L2_BUF_TYPE_VIDEO_CAPTURE), fail 28)
        /\ count_events (is_ioctl VIDIOC_STREAMON) (trace w') = 1%nat
        /\ count_events (is_ioctl VIDIOC_QBUF) (trace w') = 3%nat).
Proof.
  intros tbl dev t.
  assert (Ht : transient (fst t)) by (split; [simpl; lia | left; reflexivity]).
  split.
  - apply (proj1 (start_capture_other_failures dev [([], ok 0)] [t] [] 0
                    ltac:(repeat constructor; simpl; lia)
                    ltac:(repeat constructor; simpl; lia))
             ltac:(vm_compute; lia) ltac:(simpl; lia) (fail 19) [ok 0]).
    + simpl; lia.
    + discriminate.
    + discriminate.
    + discriminate.
    + discriminate.
  - apply (proj2 (start_capture_other_failures dev [([t], ok 0); ([], ok 0)] [] [] 0
                    ltac:(repeat constructor; solve [exact Ht | simpl; lia])
                    ltac:(constructor))).
    + reflexivity.
    + simpl; lia.
Defined.
